(** * Node algebra of the awkward-array core: RecordArray, UnionArray, UnmaskedArray

    A shallow embedding of [src/libawkward/array/RecordArray.cpp],
    [UnionArray.cpp] and [UnmaskedArray.cpp].

    - A C++ [std::shared_ptr<Content>] tree is a value of the inductive type
      [Content]; [dynamic_cast] chains become pattern matching.
    - An [Index8]/[Index32]/[IndexU32]/[Index64] window (block, offset,
      length) is the logical sequence it denotes, a [list Z].
    - [int64_t] lengths are [Z]; the 8-bit store into a tags buffer is the
      wrap-around [to8].
    - A C++ exception is the [Err] branch of [result].
    - Virtual calls that recurse through the tree carry a [fuel] argument.
    - The classes whose sources are not part of the three files (EmptyArray,
      NumpyArray, RegularArray, ListArray, ListOffsetArray, IndexedArray
      and IndexedOptionArray, ByteMaskedArray, BitMaskedArray, the scalar
      Record, the Content base class, Index, Identities, Slice) and the
      cpu-kernels appear either as definitions written from the
      specification or as fields of the interface [Collaborators].
    - The three instantiations UnionArray8_32, UnionArray8_U32 and
      UnionArray8_64 of the template are one constructor with the width of
      the index as a field. *)

From Stdlib Require Import ZArith List Bool Lia.
From stdpp Require Import base gmap strings list pretty.
Import ListNotations.
Open Scope Z_scope.
Set Warnings "-register-all".

(** ** Errors *)

Inductive error : Type :=
| InvalidArgument (msg : string)   (* std::invalid_argument *)
| RuntimeError (msg : string)      (* std::runtime_error *)
| KernelError (msg : string)       (* util::handle_error on a failed kernel *)
| OutOfFuel.

Inductive result (A : Type) : Type :=
| Ok (a : A)
| Err (e : error).
Arguments Ok {A} a.
Arguments Err {A} e.

Definition rbind {A B} (m : result A) (k : A -> result B) : result B :=
  match m with
  | Ok a => k a
  | Err e => Err e
  end.

Notation "'do' x <- m ;; k" := (rbind m (fun x => k))
  (at level 10, x name, m at level 99, k at level 200).
Notation "'do' ' p <- m ;; k" := (rbind m (fun p => k))
  (at level 10, p pattern, m at level 99, k at level 200).

(** A loop that pushes one result per element and stops at the first
    exception. *)
Definition mapM {A B} (f : A -> result B) : list A -> result (list B) :=
  fix go (l : list A) : result (list B) :=
    match l with
    | [] => Ok []
    | x :: xs => do y <- f x ;; do ys <- go xs ;; Ok (y :: ys)
    end.

(** A loop that threads a state and stops at the first exception. *)
Definition foldM {A S} (f : S -> A -> result S) : list A -> S -> result S :=
  fix go (l : list A) (s : S) : result S :=
    match l with
    | [] => Ok s
    | x :: xs => do s' <- f s x ;; go xs s'
    end.

(** The elements of a vector with their positions. *)
Definition enumerate {A} (l : list A) : list (nat * A) :=
  zip (seq 0 (List.length l)) l.

Definition is_ok {A} (r : result A) : bool :=
  match r with Ok _ => true | Err _ => false end.

Definition is_invalid_argument {A} (r : result A) : bool :=
  match r with Err (InvalidArgument _) => true | _ => false end.

Definition is_runtime_error {A} (r : result A) : bool :=
  match r with Err (RuntimeError _) => true | _ => false end.

(** ** Buffers, parameters, identities *)

Definition vlen {A} (l : list A) : Z := Z.of_nat (List.length l).

(** [kMaxInt8] is declared in a header outside the three files; the
    specification fixes the bound at 127. *)
Definition kMaxInt8 : Z := 127.

(** Conversion to [int8_t] on a store into an [Index8]. *)
Definition to8 (z : Z) : Z := (z + 128) mod 256 - 128.

(** Element [i] of a buffer or of a [std::vector], [None] outside of it. *)
Definition vec_at {A} (l : list A) (i : Z) : option A :=
  if i <? 0 then None else l !! Z.to_nat i.

(** Modelled from the spec: util::Parameters, a string-to-string map whose
    equality is set-wise (section 9, "Parameters map"). *)
Abbreviation Parameters := (gmap string string).

(** Modelled from the spec: Content::parameters_equal, the set-wise
    equality of two parameter maps (section 9, "Parameters map"). *)
Definition parameters_equal (p q : Parameters) : bool := bool_decide (p = q).

(** Modelled from the spec: Identities, "parallel per-row labels"
    (section 3.2); one label per row. *)
Definition Identities : Type := list Z.
Definition IdentitiesPtr : Type := option Identities.

Definition Identities_length (ids : Identities) : Z := vlen ids.

Definition Identities_getitem_range_nowrap (ids : Identities) (start stop : Z)
  : Identities :=
  take (Z.to_nat (stop - start)) (drop (Z.to_nat start) ids).

Definition Identities_getitem_carry_64 (ids : Identities) (carry : list Z)
  : Identities :=
  omap (vec_at ids) carry.

(** ** The node tree *)

Inductive IndexWidth : Type := I32 | U32 | I64.
Inductive OptionWidth : Type := O32 | O64.

Inductive Content : Type :=
| EmptyArray (identities : IdentitiesPtr) (parameters : Parameters)
| NumpyArray (identities : IdentitiesPtr) (parameters : Parameters)
    (format : string) (shape : list Z) (data : list Z)
| RegularArray (identities : IdentitiesPtr) (parameters : Parameters)
    (content : Content) (size : Z) (length : Z)
| ListArray (w : IndexWidth) (identities : IdentitiesPtr)
    (parameters : Parameters) (starts stops : list Z) (content : Content)
| ListOffsetArray (w : IndexWidth) (identities : IdentitiesPtr)
    (parameters : Parameters) (offsets : list Z) (content : Content)
| IndexedArray (w : IndexWidth) (identities : IdentitiesPtr)
    (parameters : Parameters) (index : list Z) (content : Content)
| IndexedOptionArray (w : OptionWidth) (identities : IdentitiesPtr)
    (parameters : Parameters) (index : list Z) (content : Content)
| ByteMaskedArray (identities : IdentitiesPtr) (parameters : Parameters)
    (mask : list Z) (content : Content) (valid_when : bool)
| BitMaskedArray (identities : IdentitiesPtr) (parameters : Parameters)
    (mask : list Z) (content : Content) (valid_when lsb_order : bool)
    (length : Z)
| UnmaskedArray (identities : IdentitiesPtr) (parameters : Parameters)
    (content : Content)
| RecordArray (identities : IdentitiesPtr) (parameters : Parameters)
    (contents : list Content) (recordlookup : option (list string))
    (length : Z)
| UnionArray (w : IndexWidth) (identities : IdentitiesPtr)
    (parameters : Parameters) (tags : list Z) (index : list Z)
    (contents : list Content)
(* the scalar class Record: one row of a RecordArray *)
| Record (array : Content) (at_ : Z).

Abbreviation UnionArray8_64 := (UnionArray I64).
Abbreviation IndexedOptionArray64 := (IndexedOptionArray O64).

Inductive SliceItem : Type :=
| SliceAt (at_ : Z)
| SliceRange (start stop step : Z)
| SliceEllipsis
| SliceNewAxis
| SliceArray64 (index : list Z) (shape : list Z)
| SliceJagged64 (offsets : list Z) (content : SliceItem)
| SliceMissing64 (index : list Z) (content : SliceItem)
| SliceField (key : string)
| SliceFields (keys : list string).

Definition SliceItemPtr : Type := option SliceItem.
Definition Slice : Type := list SliceItem.

Fixpoint Content_parameters (c : Content) : Parameters :=
  match c with
  | EmptyArray _ p | NumpyArray _ p _ _ _ | RegularArray _ p _ _ _
  | ListArray _ _ p _ _ _ | ListOffsetArray _ _ p _ _
  | IndexedArray _ _ p _ _ | IndexedOptionArray _ _ p _ _
  | ByteMaskedArray _ p _ _ _ | BitMaskedArray _ p _ _ _ _ _
  | UnmaskedArray _ p _ | RecordArray _ p _ _ _ | UnionArray _ _ p _ _ _ => p
  | Record array _ => Content_parameters array
  end.

Definition Content_identities (c : Content) : IdentitiesPtr :=
  match c with
  | EmptyArray i _ | NumpyArray i _ _ _ _ | RegularArray i _ _ _ _
  | ListArray _ i _ _ _ _ | ListOffsetArray _ i _ _ _
  | IndexedArray _ i _ _ _ | IndexedOptionArray _ i _ _ _
  | ByteMaskedArray i _ _ _ _ | BitMaskedArray i _ _ _ _ _ _
  | UnmaskedArray i _ _ | RecordArray i _ _ _ _ | UnionArray _ i _ _ _ _ => i
  | Record _ _ => None
  end.

Definition is_EmptyArray (c : Content) : bool :=
  match c with EmptyArray _ _ => true | _ => false end.

Definition is_UnionArray (c : Content) : bool :=
  match c with UnionArray _ _ _ _ _ _ => true | _ => false end.

Definition is_RecordArray (c : Content) : bool :=
  match c with RecordArray _ _ _ _ _ => true | _ => false end.

Definition is_UnmaskedArray (c : Content) : bool :=
  match c with UnmaskedArray _ _ _ => true | _ => false end.

(** [length()]: RecordArray.cpp 310-313, UnionArray.cpp 613-617,
    UnmaskedArray.cpp 220-223.
    Modelled from the spec: the other variants, by the [length()] column
    of the table in section 3.2; a scalar, which the table does not list,
    has no rows and reports -1. *)
Fixpoint Content_length (c : Content) : Z :=
  match c with
  | EmptyArray _ _ => 0
  | NumpyArray _ _ _ shape _ => hd 0 shape
  | RegularArray _ _ _ _ length => length
  | ListArray _ _ _ starts _ _ => vlen starts
  | ListOffsetArray _ _ _ offsets _ => vlen offsets - 1
  | IndexedArray _ _ _ index _ => vlen index
  | IndexedOptionArray _ _ _ index _ => vlen index
  | ByteMaskedArray _ _ mask _ _ => vlen mask
  | BitMaskedArray _ _ _ _ _ _ length => length
  | UnmaskedArray _ _ content => Content_length content
  | RecordArray _ _ _ _ length_ => length_
  | UnionArray _ _ _ tags _ _ => vlen tags
  | Record _ _ => -1
  end.

(** The structural invariants of section 3: no length is negative, a
    record lookup has one key per field, and every field of a record is at
    least as long as the record (the check of RecordArray::validityerror,
    RecordArray.cpp 546-551), in the record and below it. *)
Fixpoint well_formed (c : Content) : bool :=
  (0 <=? Content_length c) &&
  match c with
  | RecordArray _ _ contents recordlookup length_ =>
      match recordlookup with
      | Some keys => vlen keys =? vlen contents
      | None => true
      end
      && forallb (fun x => (length_ <=? Content_length x) && well_formed x)
                 contents
  | UnmaskedArray _ _ content => well_formed content
  | _ => true
  end.

(** The number of nodes of a tree, for induction over its children. *)
Fixpoint Content_size (c : Content) : nat :=
  match c with
  | EmptyArray _ _ | NumpyArray _ _ _ _ _ => 1
  | RegularArray _ _ content _ _
  | ListArray _ _ _ _ _ content
  | ListOffsetArray _ _ _ _ content
  | IndexedArray _ _ _ _ content
  | IndexedOptionArray _ _ _ _ content
  | ByteMaskedArray _ _ _ content _
  | BitMaskedArray _ _ _ content _ _ _
  | UnmaskedArray _ _ content => S (Content_size content)
  | RecordArray _ _ contents _ _
  | UnionArray _ _ _ _ _ contents =>
      S (list_sum (List.map Content_size contents))
  | Record array _ => S (Content_size array)
  end.

(** ** RecordArray: constructors *)

(** RecordArray.cpp 23-37. *)
Definition RecordArray_new (identities : IdentitiesPtr)
    (parameters : Parameters) (contents : list Content)
    (recordlookup : option (list string)) (length : Z) : result Content :=
  match recordlookup with
  | Some keys =>
      if negb (vlen keys =? vlen contents)
      then Err (InvalidArgument
                  "recordlookup and contents must have the same number of fields")
      else Ok (RecordArray identities parameters contents recordlookup length)
  | None => Ok (RecordArray identities parameters contents recordlookup length)
  end.

(** RecordArray.cpp 45-50: the body of the loop over the fields. *)
Definition minlength_step (out : Z) (x : Content) : Z :=
  let len := Content_length x in
  if (out <? 0) || (out >? len) then len else out.

(** RecordArray.cpp 39-53. *)
Definition minlength (contents : list Content) : Z :=
  match contents with
  | [] => 0
  | _ => fold_left minlength_step contents (-1)
  end.

(** RecordArray.cpp 55-63: the constructor without a length. *)
Definition RecordArray_new4 (identities : IdentitiesPtr)
    (parameters : Parameters) (contents : list Content)
    (recordlookup : option (list string)) : result Content :=
  RecordArray_new identities parameters contents recordlookup
    (minlength contents).

(** ** UnmaskedArray: option-type simplification *)

(** UnmaskedArray.cpp 225-228. *)
Definition UnmaskedArray_shallow_copy (identities : IdentitiesPtr)
    (parameters : Parameters) (content : Content) : Content :=
  UnmaskedArray identities parameters content.

(** UnmaskedArray.cpp 59-74. *)
Definition UnmaskedArray_simplify_optiontype (identities : IdentitiesPtr)
    (parameters : Parameters) (content : Content) : Content :=
  match content with
  | IndexedArray I32 _ _ _ _
  | IndexedArray U32 _ _ _ _
  | IndexedArray I64 _ _ _ _
  | IndexedOptionArray O32 _ _ _ _
  | IndexedOptionArray O64 _ _ _ _
  | ByteMaskedArray _ _ _ _ _
  | BitMaskedArray _ _ _ _ _ _ _
  | UnmaskedArray _ _ _ => content
  | _ => UnmaskedArray_shallow_copy identities parameters content
  end.

(** The child kinds named by the option-collapse rule. *)
Definition is_option_or_indexed (c : Content) : bool :=
  match c with
  | IndexedArray _ _ _ _ _ | IndexedOptionArray _ _ _ _ _
  | ByteMaskedArray _ _ _ _ _ | BitMaskedArray _ _ _ _ _ _ _
  | UnmaskedArray _ _ _ => true
  | _ => false
  end.

(** ** cpu-kernels

    The kernels are external to the three files; their names are those of
    section 6.1 of the specification. A freshly allocated [Index] has
    unspecified contents in C++; [new_Index] fixes them to zero. *)

Definition new_Index (length : Z) : list Z := replicate (Z.to_nat length) 0.

(** Writing the run [vals] into [buf] from position [offset] on; the buffer
    keeps its size. *)
Definition store (buf : list Z) (offset : Z) (vals : list Z) : list Z :=
  let off := Z.to_nat offset in
  take (List.length buf)
       (take off buf ++ vals ++ drop (off + List.length vals)%nat buf).

(** Modelled from the spec: awkward_carry_arange_64, the index
    [0, 1, ..., length-1] ("arange", section 8 item 2). *)
Definition awkward_carry_arange_64 (length : Z) : list Z := seqZ 0 length.

(** Modelled from the spec: awkward_unionarray_filltags_to8_const, the run
    of [length] copies of the tag [base] (section 4.6: arm 0 is [other]). *)
Definition awkward_unionarray_filltags_to8_const
    (totags : list Z) (totagsoffset length base : Z) : list Z :=
  store totags totagsoffset (replicate (Z.to_nat length) (to8 base)).

(** Modelled from the spec: awkward_unionarray_filltags_to8_from8, a copy
    of [length] tags rebased by [base] (section 4.6 item 5, "rebasing the
    second's tags by self.numcontents()"). *)
Definition awkward_unionarray_filltags_to8_from8
    (totags : list Z) (totagsoffset : Z) (fromtags : list Z)
    (length base : Z) : list Z :=
  store totags totagsoffset
    ((fun t => to8 (t + base)) <$> take (Z.to_nat length) fromtags).

(** Modelled from the spec: awkward_unionarray_fillindex_to64_count, the
    identity index [0, 1, ..., length-1] (section 4.6 item 1, "identity
    index"). *)
Definition awkward_unionarray_fillindex_to64_count
    (toindex : list Z) (toindexoffset length : Z) : list Z :=
  store toindex toindexoffset (seqZ 0 length).

(** Modelled from the spec: awkward_unionarray_fillindex_to64_from32,
    _fromU32 and _from64, a copy of [length] index values (section 4.6
    item 5, "concatenate tag/index buffers"). *)
Definition awkward_unionarray_fillindex_to64_from
    (toindex : list Z) (toindexoffset : Z) (fromindex : list Z)
    (length : Z) : list Z :=
  store toindex toindexoffset (take (Z.to_nat length) fromindex).

(** Modelled from the spec: awkward_unionarray_simplify_one_to8_64
    (section 4.4 item 1, non-union arm): the positions where
    [fromtags == fromwhich] get the tag [towhich] and the index
    [fromindex + base]. *)
Definition awkward_unionarray_simplify_one_to8_64
    (totags toindex fromtags fromindex : list Z)
    (towhich fromwhich length base : Z) : list Z * list Z :=
  let hit (i : nat) : option Z :=
    if Z.of_nat i <? length then
      match fromtags !! i, fromindex !! i with
      | Some t, Some x => if t =? fromwhich then Some (x + base) else None
      | _, _ => None
      end
    else None in
  (imap (fun i old => match hit i with
                      | Some _ => to8 towhich
                      | None => old
                      end) totags,
   imap (fun i old => default old (hit i)) toindex).

(** Modelled from the spec: awkward_unionarray_simplify8_32_to8_64,
    _simplify8_U32_to8_64 and _simplify8_64_to8_64 (section 4.4 item 1,
    union arm): the positions where [outertags == outerwhich] and
    [innertags] at the outer index is [innerwhich] get the tag [towhich]
    and the inner index plus [base]. *)
Definition awkward_unionarray_simplify8_to8_64
    (totags toindex outertags outerindex innertags innerindex : list Z)
    (towhich innerwhich outerwhich length base : Z) : list Z * list Z :=
  let hit (i : nat) : option Z :=
    if Z.of_nat i <? length then
      match outertags !! i, outerindex !! i with
      | Some t, Some j =>
          if t =? outerwhich then
            match vec_at innertags j, vec_at innerindex j with
            | Some u, Some x =>
                if u =? innerwhich then Some (x + base) else None
            | _, _ => None
            end
          else None
      | _, _ => None
      end
    else None in
  (imap (fun i old => match hit i with
                      | Some _ => to8 towhich
                      | None => old
                      end) totags,
   imap (fun i old => default old (hit i)) toindex).

(** Modelled from the spec: awkward_unionarray_project_64, the index
    values at the positions where [tags == which] (section 4.5,
    "index_at_positions_where_tags==arm"). The pair is [lenout] and the
    carry. *)
Definition awkward_unionarray_project_64
    (fromtags fromindex : list Z) (length which : Z) : Z * list Z :=
  let tocarry :=
    omap (fun '(t, x) => if t =? which then Some x else None)
         (take (Z.to_nat length) (zip fromtags fromindex)) in
  (vlen tocarry, tocarry).

(** Modelled from the spec: awkward_unionarray_regular_index, the "regular
    index [0,1,2,...] as tags-aligned" of section 4.2: every row receives
    its rank among the rows that carry the same tag. *)
Definition awkward_unionarray_regular_index (fromtags : list Z) : list Z :=
  imap (fun i t =>
          vlen (filter (fun u => u = t) (take i fromtags)))
       fromtags.

(** Modelled from the spec: awkward_index_carry_64, the gather
    [to[i] = from[carry[i]]] of section 4.5 ("Union gathers tags and index
    in parallel"). The kernel hands back an Error that carry passes to
    util::handle_error (UnionArray.cpp 839-846); which positions it
    reports is stated neither in the specification nor in the three files.
    Here every position outside of the source is reported, and what is
    proved about the result of a carry takes the positions inside the
    source, where the gather alone decides. *)
Definition awkward_index_carry_64 (fromindex carry : list Z)
  : result (list Z) :=
  mapM (fun j => match vec_at fromindex j with
                 | Some x => Ok x
                 | None => Err (KernelError "index out of range")
                 end) carry.

(** Modelled from the spec: awkward_index_carry_nocheck_64, the same
    gather without the range check; a position outside of the source reads
    memory that is not the buffer's, here 0. *)
Definition awkward_index_carry_nocheck_64 (fromindex carry : list Z)
  : list Z :=
  (fun j => default 0 (vec_at fromindex j)) <$> carry.

(** [std::sort] on a [std::vector<std::string>]: ascending in the
    lexicographic order of [std::string]. *)
Definition std_sort_insert (x : string) : list string -> list string :=
  fix go (l : list string) : list string :=
    match l with
    | [] => [x]
    | y :: ys => if String.leb x y then x :: l else y :: go ys
    end.

Definition std_sort (l : list string) : list string :=
  fold_right std_sort_insert [] l.

(** Modelled from the spec: util::keys, the record's own keys when it is
    named and the fabricated keys "0", "1", ... when it is a tuple
    (sections 3.2 and 6.2). *)
Definition util_keys (recordlookup : option (list string)) (numfields : Z)
  : list string :=
  match recordlookup with
  | Some keys => keys
  | None => (fun i : nat => pretty i) <$> seq 0 (Z.to_nat numfields)
  end.

(** ** Collaborators

    What the three files call and do not define: the virtual methods of
    the other node classes, helpers of the Content base class and of
    [util], and the kernels the specification names without describing.
    A method of a collaborating class takes the node it is called on
    first. *)
Class Collaborators : Type := {
  foreign_merge : Content -> Content -> result Content;
  foreign_reverse_merge : Content -> Content -> result Content;
  foreign_mergeable : Content -> Content -> bool -> result bool;
  foreign_carry : Content -> list Z -> result Content;
  foreign_getitem_range : Content -> Z -> Z -> result Content;
  foreign_getitem_range_nowrap : Content -> Z -> Z -> result Content;
  foreign_getitem_at_nowrap : Content -> Z -> result Content;
  foreign_getitem_next :
    Content -> SliceItemPtr -> Slice -> list Z -> result Content;
  foreign_offsets_and_flattened :
    Content -> Z -> Z -> result (list Z * Content);
  (* Content::axis_wrap_if_negative *)
  axis_wrap_if_negative : Content -> Z -> result Z;
  (* Content::getitem_next(SliceEllipsis | SliceNewAxis | SliceField |
     SliceFields | SliceMissing64, tail, advanced) *)
  Content_getitem_next_shared :
    Content -> SliceItem -> Slice -> list Z -> result Content;
  (* SliceItem::preserves_type(advanced) *)
  SliceItem_preserves_type : SliceItem -> list Z -> bool;
  (* util::fieldindex(recordlookup, key, numfields) *)
  util_fieldindex : option (list string) -> string -> Z -> result Z;
  (* Slice::none() *)
  Slice_none : Z;
  (* awkward_regularize_rangeslice(&start, &stop, posstep, hasstart,
     hasstop, length) *)
  awkward_regularize_rangeslice :
    Z -> Z -> bool -> bool -> bool -> Z -> Z * Z;
  (* awkward_unionarray_flatten_length_64 and _flatten_combine_64 on the
     tags, the index and the per-arm offsets; the latter returns totags,
     toindex and tooffsets *)
  awkward_unionarray_flatten_length_64 :
    list Z -> list Z -> Z -> list (list Z) -> result Z;
  awkward_unionarray_flatten_combine_64 :
    list Z -> list Z -> Z -> list (list Z) -> Z ->
    result (list Z * list Z * list Z)
}.

(** ** The three classes *)

(** Modelled from the spec: Index::getitem_range_nowrap, the O(1) window
    [start, stop) of section 3.1. *)
Definition Index_getitem_range_nowrap (l : list Z) (start stop : Z)
  : list Z :=
  take (Z.to_nat (stop - start)) (drop (Z.to_nat start) l).

(** UnionArray.cpp 69-87. *)
Definition UnionArray_new (w : IndexWidth) (identities : IdentitiesPtr)
    (parameters : Parameters) (tags index : list Z)
    (contents : list Content) : result Content :=
  match contents with
  | [] => Err (InvalidArgument "UnionArray must have at least one content")
  | _ =>
      if vlen index <? vlen tags
      then Err (InvalidArgument
                  "UnionArray index must not be shorter than its tags")
      else Ok (UnionArray w identities parameters tags index contents)
  end.

(** UnionArray.cpp 55-67. *)
Definition UnionArray_regular_index (tags : list Z) : list Z :=
  awkward_unionarray_regular_index tags.

(** UnmaskedArray.cpp 76-87. *)
Definition UnmaskedArray_toIndexedOptionArray64 (identities : IdentitiesPtr)
    (parameters : Parameters) (content : Content) : Content :=
  let index := awkward_carry_arange_64 (Content_length content) in
  IndexedOptionArray64 identities parameters index content.

(** Modelled from the spec: Content::merge_as_union (section 4.6 item 1),
    "wrap both in a two-arm Union<i8,i64> with identity index". *)
Definition Content_merge_as_union (self other : Content) : result Content :=
  let mylength := Content_length self in
  let theirlength := Content_length other in
  let tags := new_Index (mylength + theirlength) in
  let index := new_Index (mylength + theirlength) in
  let contents := [self; other] in
  let tags := awkward_unionarray_filltags_to8_const tags 0 mylength 0 in
  let index := awkward_unionarray_fillindex_to64_count index 0 mylength in
  let tags :=
    awkward_unionarray_filltags_to8_const tags mylength theirlength 1 in
  let index :=
    awkward_unionarray_fillindex_to64_count index mylength theirlength in
  UnionArray_new I64 None ∅ tags index contents.

(** UnionArray.cpp 1146-1154. *)
Definition UnionArray_mergeable (parameters : Parameters) (other : Content)
  : bool :=
  if negb (parameters_equal parameters (Content_parameters other))
  then false
  else true.

(** UnionArray.cpp 1156-1234. *)
Definition UnionArray_reverse_merge (tags_ index_ : list Z)
    (contents_ : list Content) (other : Content) : result Content :=
  let theirlength := Content_length other in
  let mylength := vlen tags_ in
  let tags := new_Index (theirlength + mylength) in
  let index := new_Index (theirlength + mylength) in
  let contents := other :: contents_ in
  let tags := awkward_unionarray_filltags_to8_const tags 0 theirlength 0 in
  let index := awkward_unionarray_fillindex_to64_count index 0 theirlength in
  let tags :=
    awkward_unionarray_filltags_to8_from8 tags theirlength tags_ mylength 1 in
  let index :=
    awkward_unionarray_fillindex_to64_from index theirlength index_ mylength in
  if vlen contents >? kMaxInt8
  then Err (RuntimeError
              "FIXME: handle UnionArray with more than 127 contents")
  else UnionArray_new I64 None ∅ tags index contents.

(** UnionArray.cpp 1236-1407. [self] is the node the method is called on,
    [UnionArray w identities parameters tags_ index_ contents_]. *)
Definition UnionArray_merge (self : Content) (parameters : Parameters)
    (tags_ index_ : list Z) (contents_ : list Content) (other : Content)
  : result Content :=
  if negb (parameters_equal parameters (Content_parameters other))
  then Content_merge_as_union self other
  else if is_EmptyArray other then Ok self
  else
    let mylength := vlen tags_ in
    let theirlength := Content_length other in
    let tags := new_Index (mylength + theirlength) in
    let index := new_Index (mylength + theirlength) in
    let tags := awkward_unionarray_filltags_to8_from8 tags 0 tags_ mylength 0 in
    let index :=
      awkward_unionarray_fillindex_to64_from index 0 index_ mylength in
    let numcontents := vlen contents_ in
    let '(tags, index, contents) :=
      match other with
      | UnionArray _ _ _ other_tags other_index other_contents =>
          (awkward_unionarray_filltags_to8_from8
             tags mylength other_tags theirlength numcontents,
           awkward_unionarray_fillindex_to64_from
             index mylength other_index theirlength,
           contents_ ++ other_contents)
      | _ =>
          (awkward_unionarray_filltags_to8_const
             tags mylength theirlength numcontents,
           awkward_unionarray_fillindex_to64_count index mylength theirlength,
           contents_ ++ [other])
      end in
    if vlen contents >? kMaxInt8
    then Err (RuntimeError
                "FIXME: handle UnionArray with more than 127 contents")
    else UnionArray_new I64 None ∅ tags index contents.

(** The [contents] vector that UnionArray.cpp 1297-1395 assembles before
    the capacity check: the arms of self, then the arms of other when other
    is a union and other itself when it is not. *)
Definition UnionArray_merge_contents (contents_ : list Content)
    (other : Content) : list Content :=
  match other with
  | UnionArray _ _ _ _ _ other_contents => contents_ ++ other_contents
  | _ => contents_ ++ [other]
  end.

(** The number of arms of a union, 0 for any other node. *)
Definition numcontents (c : Content) : Z :=
  match c with
  | UnionArray _ _ _ _ _ contents => vlen contents
  | _ => 0
  end.

(** The rows of a union that carry the tag [which], in ascending order. *)
Definition positions_where (tags : list Z) (which : Z) : list nat :=
  filter (fun k => tags !! k = Some which) (seq 0 (List.length tags)).

(** The values of [index] at the rows [ks]. *)
Definition index_at_positions (index : list Z) (ks : list nat) : list Z :=
  omap (fun k => index !! k) ks.

(** RecordArray.cpp 1001-1010. *)
Definition RecordArray_field (contents_ : list Content) (fieldindex : Z)
  : result Content :=
  if fieldindex >=? vlen contents_
  then Err (InvalidArgument "fieldindex for record with only so many fields")
  else match vec_at contents_ fieldindex with
       | Some c => Ok c
       | None => Err (RuntimeError "read outside of contents_")
       end.

Section Embedding.
Context `{Collaborators}.

(** RecordArray.cpp 524-527 and 1012-1015. *)
Definition RecordArray_field_key (contents_ : list Content)
    (recordlookup_ : option (list string)) (key : string)
  : result Content :=
  do i <- util_fieldindex recordlookup_ key (vlen contents_) ;;
  match vec_at contents_ i with
  | Some c => Ok c
  | None => Err (RuntimeError "read outside of contents_")
  end.

(** RecordArray.cpp 539-542. *)
Definition RecordArray_keys (contents_ : list Content)
    (recordlookup_ : option (list string)) : list string :=
  util_keys recordlookup_ (vlen contents_).

(** [carry]: UnmaskedArray.cpp 365-374, RecordArray.cpp 444-459,
    UnionArray.cpp 827-864. *)
Fixpoint Content_carry (self : Content) (carry : list Z)
  : result Content :=
  match self with
  | UnmaskedArray identities_ parameters_ content_ =>
      let identities :=
        (fun ids => Identities_getitem_carry_64 ids carry) <$> identities_ in
      do next <- Content_carry content_ carry ;;
      Ok (UnmaskedArray identities parameters_ next)
  | RecordArray identities_ parameters_ contents_ recordlookup_ _ =>
      do contents <- mapM (fun content => Content_carry content carry)
                          contents_ ;;
      let identities :=
        (fun ids => Identities_getitem_carry_64 ids carry) <$> identities_ in
      RecordArray_new identities parameters_ contents recordlookup_
        (vlen carry)
  | UnionArray w identities_ parameters_ tags_ index_ contents_ =>
      let lentags := vlen tags_ in
      if vlen index_ <? lentags
      then Err (KernelError "len(index) < len(tags)")
      else
        do nexttags <- awkward_index_carry_64 tags_ carry ;;
        let nextindex := awkward_index_carry_nocheck_64 index_ carry in
        let identities :=
          (fun ids => Identities_getitem_carry_64 ids carry)
            <$> identities_ in
        UnionArray_new w identities parameters_ nexttags nextindex contents_
  | _ => foreign_carry self carry
  end.

(** [getitem_range_nowrap]: UnmaskedArray.cpp 296-306, RecordArray.cpp
    398-418, UnionArray.cpp 732-745. *)
Fixpoint Content_getitem_range_nowrap (self : Content) (start stop : Z)
  : result Content :=
  match self with
  | UnmaskedArray identities_ parameters_ content_ =>
      let identities :=
        (fun ids => Identities_getitem_range_nowrap ids start stop)
          <$> identities_ in
      do next <- Content_getitem_range_nowrap content_ start stop ;;
      Ok (UnmaskedArray identities parameters_ next)
  | RecordArray identities_ parameters_ contents_ recordlookup_ _ =>
      match contents_ with
      | [] =>
          RecordArray_new identities_ parameters_ contents_ recordlookup_
            (stop - start)
      | _ =>
          do contents <-
            mapM (fun content =>
                    Content_getitem_range_nowrap content start stop)
                 contents_ ;;
          RecordArray_new identities_ parameters_ contents recordlookup_
            (stop - start)
      end
  | UnionArray w identities_ parameters_ tags_ index_ contents_ =>
      let identities :=
        (fun ids => Identities_getitem_range_nowrap ids start stop)
          <$> identities_ in
      UnionArray_new w identities parameters_
        (Index_getitem_range_nowrap tags_ start stop)
        (Index_getitem_range_nowrap index_ start stop)
        contents_
  | _ => foreign_getitem_range_nowrap self start stop
  end.

(** [getitem_range]: UnmaskedArray.cpp 280-294, RecordArray.cpp 382-396,
    UnionArray.cpp 715-730; the three bodies differ in nothing but the
    class. *)
Definition Content_getitem_range (self : Content) (start stop : Z)
  : result Content :=
  match self with
  | UnmaskedArray identities_ _ _
  | RecordArray identities_ _ _ _ _
  | UnionArray _ identities_ _ _ _ _ =>
      let '(regular_start, regular_stop) :=
        awkward_regularize_rangeslice start stop true
          (negb (start =? Slice_none)) (negb (stop =? Slice_none))
          (Content_length self) in
      match identities_ with
      | Some ids =>
          if regular_stop >? Identities_length ids
          then Err (KernelError "index out of range")
          else Content_getitem_range_nowrap self regular_start regular_stop
      | None => Content_getitem_range_nowrap self regular_start regular_stop
      end
  | _ => foreign_getitem_range self start stop
  end.

(** [getitem_at_nowrap]: UnmaskedArray.cpp 275-278, RecordArray.cpp
    377-380, UnionArray.cpp 694-713. *)
Fixpoint Content_getitem_at_nowrap (self : Content) (at_ : Z)
  : result Content :=
  match self with
  | UnmaskedArray _ _ content_ => Content_getitem_at_nowrap content_ at_
  | RecordArray _ _ _ _ _ => Ok (Record self at_)
  | UnionArray _ _ _ tags_ index_ contents_ =>
      match vec_at tags_ at_, vec_at index_ at_ with
      | Some tag, Some index =>
          (fix pick (cs : list Content) (k : nat) : result Content :=
             match cs with
             | [] => Err (KernelError "not 0 <= tag[i] < numcontents")
             | content :: cs' =>
                 match k with
                 | O =>
                     if negb ((0 <=? index)
                              && (index <? Content_length content))
                     then Err (KernelError "index[i] > len(content(tag))")
                     else Content_getitem_at_nowrap content index
                 | S k' => pick cs' k'
                 end
             end)
            contents_
            (* (size_t)tag: a negative tag is a huge unsigned one *)
            (if tag <? 0 then List.length contents_ else Z.to_nat tag)
      | _, _ => Err (RuntimeError "read outside of tags_ or index_")
      end
  | _ => foreign_getitem_at_nowrap self at_
  end.

(** UnionArray.cpp 126-157. *)
Definition UnionArray_project (tags_ index_ : list Z)
    (contents_ : list Content) (index : Z) : result Content :=
  if negb ((0 <=? index) && (index <? vlen contents_))
  then Err (InvalidArgument "index out of range for UnionArray")
  else
    let lentags := vlen tags_ in
    if vlen index_ <? lentags
    then Err (KernelError "len(index) < len(tags)")
    else
      let '(lenout, tmpcarry) :=
        awkward_unionarray_project_64 tags_ index_ lentags index in
      let nextcarry := take (Z.to_nat lenout) tmpcarry in
      match vec_at contents_ index with
      | Some content => Content_carry content nextcarry
      | None => Err (RuntimeError "read outside of contents_")
      end.

(** *** mergeable *)

(** The loop of RecordArray.cpp 681-686 over the positions of a tuple. *)
Definition RecordArray_mergeable_tuple
    (rec : Content -> Content -> bool -> result bool)
    (contents_ other_contents : list Content) (mergebool : bool)
  : result bool :=
  foldM (fun (acc : bool) (i : nat) =>
           if acc then
             do mine <- RecordArray_field contents_ (Z.of_nat i) ;;
             do theirs <- RecordArray_field other_contents (Z.of_nat i) ;;
             rec mine theirs mergebool
           else Ok false)
        (seq 0 (List.length contents_)) true.

(** The loop of RecordArray.cpp 695-701 over the sorted keys. *)
Definition RecordArray_mergeable_keys
    (rec : Content -> Content -> bool -> result bool)
    (contents_ : list Content) (recordlookup_ : option (list string))
    (other_contents : list Content) (other_lookup : option (list string))
    (self_keys : list string) (mergebool : bool) : result bool :=
  foldM (fun (acc : bool) (key : string) =>
           if acc then
             do mine <- RecordArray_field_key contents_ recordlookup_ key ;;
             do theirs <-
               RecordArray_field_key other_contents other_lookup key ;;
             rec mine theirs mergebool
           else Ok false)
        self_keys true.

(** RecordArray.cpp 632-709. [rec] is the virtual call [mergeable]. *)
Definition RecordArray_mergeable
    (rec : Content -> Content -> bool -> result bool)
    (self : Content) (parameters_ : Parameters)
    (contents_ : list Content) (recordlookup_ : option (list string))
    (other : Content) (mergebool : bool) : result bool :=
  if negb (parameters_equal parameters_ (Content_parameters other))
  then Ok false
  else
    match other with
    | EmptyArray _ _ | UnionArray _ _ _ _ _ _ => Ok true
    | IndexedArray _ _ _ _ content
    | IndexedOptionArray _ _ _ _ content
    | ByteMaskedArray _ _ _ content _
    | BitMaskedArray _ _ _ content _ _ _
    | UnmaskedArray _ _ content => rec self content mergebool
    | RecordArray _ _ other_contents other_lookup _ =>
        let istuple := negb (bool_decide (is_Some recordlookup_)) in
        let other_istuple := negb (bool_decide (is_Some other_lookup)) in
        if istuple && other_istuple then
          if vlen contents_ =? vlen other_contents
          then RecordArray_mergeable_tuple rec contents_ other_contents
                 mergebool
          else Ok false
        else if negb istuple && negb other_istuple then
          let self_keys := std_sort (RecordArray_keys contents_ recordlookup_) in
          let other_keys :=
            std_sort (RecordArray_keys other_contents other_lookup) in
          if bool_decide (self_keys = other_keys)
          then RecordArray_mergeable_keys rec contents_ recordlookup_
                 other_contents other_lookup self_keys mergebool
          else Ok false
        else Ok false
    | _ => Ok false
    end.

(** UnmaskedArray.cpp 481-529. *)
Definition UnmaskedArray_mergeable
    (rec : Content -> Content -> bool -> result bool)
    (parameters_ : Parameters) (content_ : Content)
    (other : Content) (mergebool : bool) : result bool :=
  if negb (parameters_equal parameters_ (Content_parameters other))
  then Ok false
  else
    match other with
    | EmptyArray _ _ | UnionArray _ _ _ _ _ _ => Ok true
    | IndexedArray _ _ _ _ content
    | IndexedOptionArray _ _ _ _ content
    | ByteMaskedArray _ _ _ content _
    | BitMaskedArray _ _ _ content _ _ _
    | UnmaskedArray _ _ content => rec content_ content mergebool
    | _ => rec content_ other mergebool
    end.

Fixpoint Content_mergeable (fuel : nat) (self other : Content)
    (mergebool : bool) : result bool :=
  match fuel with
  | O => Err OutOfFuel
  | S fuel' =>
      match self with
      | UnmaskedArray _ parameters_ content_ =>
          UnmaskedArray_mergeable (Content_mergeable fuel')
            parameters_ content_ other mergebool
      | RecordArray _ parameters_ contents_ recordlookup_ _ =>
          RecordArray_mergeable (Content_mergeable fuel')
            self parameters_ contents_ recordlookup_ other mergebool
      | UnionArray _ _ parameters_ _ _ _ =>
          Ok (UnionArray_mergeable parameters_ other)
      | _ => foreign_mergeable self other mergebool
      end
  end.

(** *** merge and reverse_merge *)

(** UnmaskedArray.cpp 531-537; IndexedOptionArray64::reverse_merge is a
    collaborator's. *)
Definition UnmaskedArray_reverse_merge (identities_ : IdentitiesPtr)
    (parameters_ : Parameters) (content_ : Content) (other : Content)
  : result Content :=
  let indexedoptionarray :=
    UnmaskedArray_toIndexedOptionArray64 identities_ parameters_ content_ in
  foreign_reverse_merge indexedoptionarray other.

(** [rawother->reverse_merge(...)] on the classes that have the method. *)
Definition Content_reverse_merge (self other : Content) : result Content :=
  match self with
  | UnmaskedArray identities_ parameters_ content_ =>
      UnmaskedArray_reverse_merge identities_ parameters_ content_ other
  | UnionArray _ _ _ tags_ index_ contents_ =>
      UnionArray_reverse_merge tags_ index_ contents_ other
  | _ => foreign_reverse_merge self other
  end.

(** UnmaskedArray.cpp 539-542. [rec] is the virtual call [merge]. *)
Definition UnmaskedArray_merge (rec : Content -> Content -> result Content)
    (identities_ : IdentitiesPtr) (parameters_ : Parameters)
    (content_ : Content) (other : Content) : result Content :=
  rec (UnmaskedArray_toIndexedOptionArray64 identities_ parameters_ content_)
      other.

(** The loop of RecordArray.cpp 781-787. *)
Definition RecordArray_merge_tuple
    (rec : Content -> Content -> result Content)
    (contents_ other_contents : list Content) (mylength theirlength : Z)
  : result (list Content) :=
  mapM (fun i : nat =>
          do f <- RecordArray_field contents_ (Z.of_nat i) ;;
          do mine <- Content_getitem_range_nowrap f 0 mylength ;;
          do g <- RecordArray_field other_contents (Z.of_nat i) ;;
          do theirs <- Content_getitem_range_nowrap g 0 theirlength ;;
          rec mine theirs)
       (seq 0 (List.length contents_)).

(** The loop of RecordArray.cpp 801-807. *)
Definition RecordArray_merge_keys
    (rec : Content -> Content -> result Content)
    (contents_ : list Content) (recordlookup_ : option (list string))
    (other_contents : list Content) (other_lookup : option (list string))
    (mylength theirlength : Z) : result (list Content) :=
  mapM (fun key : string =>
          do f <- RecordArray_field_key contents_ recordlookup_ key ;;
          do mine <- Content_getitem_range_nowrap f 0 mylength ;;
          do g <- RecordArray_field_key other_contents other_lookup key ;;
          do theirs <- Content_getitem_range_nowrap g 0 theirlength ;;
          rec mine theirs)
       (RecordArray_keys contents_ recordlookup_).

(** RecordArray.cpp 711-822. [rec] is the virtual call [merge]; [self]
    is [RecordArray identities_ parameters_ contents_ recordlookup_
    length_]. *)
Definition RecordArray_merge (rec : Content -> Content -> result Content)
    (self : Content) (parameters_ : Parameters)
    (contents_ : list Content) (recordlookup_ : option (list string))
    (length_ : Z) (other : Content) : result Content :=
  if negb (parameters_equal parameters_ (Content_parameters other))
  then Content_merge_as_union self other
  else
    match other with
    | EmptyArray _ _ => Ok self
    | IndexedArray _ _ _ _ _
    | IndexedOptionArray _ _ _ _ _
    | ByteMaskedArray _ _ _ _ _
    | BitMaskedArray _ _ _ _ _ _ _
    | UnmaskedArray _ _ _
    | UnionArray _ _ _ _ _ _ => Content_reverse_merge other self
    | RecordArray _ _ other_contents other_lookup other_length =>
        let mylength := length_ in
        let theirlength := other_length in
        let istuple := negb (bool_decide (is_Some recordlookup_)) in
        let other_istuple := negb (bool_decide (is_Some other_lookup)) in
        if eqb istuple other_istuple
           && (vlen contents_ =? 0) && (vlen other_contents =? 0)
        then RecordArray_new None ∅ contents_ None (mylength + theirlength)
        else if istuple && other_istuple then
          if vlen contents_ =? vlen other_contents
          then
            do contents <-
              RecordArray_merge_tuple rec contents_ other_contents
                mylength theirlength ;;
            RecordArray_new4 None ∅ contents recordlookup_
          else Err (InvalidArgument
                      "cannot merge records or tuples with different fields")
        else if negb istuple && negb other_istuple then
          let self_keys := std_sort (RecordArray_keys contents_ recordlookup_) in
          let other_keys :=
            std_sort (RecordArray_keys other_contents other_lookup) in
          if bool_decide (self_keys = other_keys)
          then
            do contents <-
              RecordArray_merge_keys rec contents_ recordlookup_
                other_contents other_lookup mylength theirlength ;;
            RecordArray_new4 None ∅ contents recordlookup_
          else Err (InvalidArgument
                      "cannot merge records or tuples with different fields")
        else Err (InvalidArgument
                    "cannot merge records or tuples with different fields")
    | _ => Err (InvalidArgument "cannot merge RecordArray with other")
    end.

Fixpoint Content_merge (fuel : nat) (self other : Content)
  : result Content :=
  match fuel with
  | O => Err OutOfFuel
  | S fuel' =>
      match self with
      | UnmaskedArray identities_ parameters_ content_ =>
          UnmaskedArray_merge (Content_merge fuel')
            identities_ parameters_ content_ other
      | RecordArray _ parameters_ contents_ recordlookup_ length_ =>
          RecordArray_merge (Content_merge fuel')
            self parameters_ contents_ recordlookup_ length_ other
      | UnionArray _ _ parameters_ tags_ index_ contents_ =>
          UnionArray_merge self parameters_ tags_ index_ contents_ other
      | _ => foreign_merge self other
      end
  end.

(** *** Union-type simplification *)

(** The [k] loop with its [break] (UnionArray.cpp 181-205, 236-260,
    291-315 and 341-360): the first arm collected so far that is
    mergeable with [x]. *)
Definition find_mergeable (mergeable : Content -> Content -> result bool)
    (x : Content) : list Content -> nat -> result (option (nat * Content)) :=
  fix go (contents : list Content) (k : nat) :=
    match contents with
    | [] => Ok None
    | c :: cs =>
        do b <- mergeable c x ;;
        if b then Ok (Some (k, c)) else go cs (S k)
    end.

(** One arm [x] meets the arms collected so far (UnionArray.cpp 180-226
    and its three copies): merged into the first mergeable arm [k], or
    appended. [fill totags toindex towhich base] is the kernel call. *)
Definition simplify_step
    (mergeable : Content -> Content -> result bool)
    (merge : Content -> Content -> result Content)
    (fill : list Z -> list Z -> Z -> Z -> list Z * list Z)
    (st : list Z * list Z * list Content) (x : Content)
  : result (list Z * list Z * list Content) :=
  let '(tags, index, contents) := st in
  do found <- find_mergeable mergeable x contents 0%nat ;;
  match found with
  | Some (k, ck) =>
      let '(tags, index) :=
        fill tags index (Z.of_nat k) (Content_length ck) in
      do merged <- merge ck x ;;
      Ok (tags, index, <[k := merged]> contents)
  | None =>
      let '(tags, index) := fill tags index (vlen contents) 0 in
      Ok (tags, index, contents ++ [x])
  end.

(** The body of the loop over [contents_] (UnionArray.cpp 173-378). The
    branches for UnionArray8_32, UnionArray8_U32 and UnionArray8_64
    differ only in the width of the kernel. *)
Definition simplify_arm
    (mergeable : Content -> Content -> result bool)
    (merge : Content -> Content -> result Content)
    (tags_ index_ : list Z) (len : Z)
    (st : list Z * list Z * list Content) (ic : nat * Content)
  : result (list Z * list Z * list Content) :=
  let '(i, content) := ic in
  match content with
  | UnionArray _ _ _ innertags innerindex innercontents =>
      foldM (fun st' (jc : nat * Content) =>
               let '(j, inner) := jc in
               simplify_step mergeable merge
                 (fun totags toindex towhich base =>
                    awkward_unionarray_simplify8_to8_64 totags toindex
                      tags_ index_ innertags innerindex
                      towhich (Z.of_nat j) (Z.of_nat i) len base)
                 st' inner)
            (enumerate innercontents) st
  | _ =>
      simplify_step mergeable merge
        (fun totags toindex towhich base =>
           awkward_unionarray_simplify_one_to8_64 totags toindex
             tags_ index_ towhich (Z.of_nat i) len base)
        st content
  end.

(** UnionArray.cpp 162-378: the buffers and the canonical arms after the
    loop. *)
Definition simplify_canonical (fuel : nat) (tags_ index_ : list Z)
    (contents_ : list Content) (mergebool : bool)
  : result (list Z * list Z * list Content) :=
  let len := vlen tags_ in
  if vlen index_ <? len
  then Err (KernelError "len(index) < len(tags)")
  else
    foldM (simplify_arm
             (fun c x => Content_mergeable fuel c x mergebool)
             (Content_merge fuel) tags_ index_ len)
          (enumerate contents_) (new_Index len, new_Index len, []).

(** UnionArray.cpp 159-395. *)
Definition UnionArray_simplify_uniontype (fuel : nat)
    (identities_ : IdentitiesPtr) (parameters_ : Parameters)
    (tags_ index_ : list Z) (contents_ : list Content) (mergebool : bool)
  : result Content :=
  do '(tags, index, contents) <-
    simplify_canonical fuel tags_ index_ contents_ mergebool ;;
  if vlen contents >? kMaxInt8
  then Err (RuntimeError
              "FIXME: handle UnionArray with more than 127 contents")
  else
    match contents with
    | [c0] => Content_carry c0 index
    | _ => UnionArray_new I64 identities_ parameters_ tags index contents
    end.

(** [simplify_uniontype] called on a union held by value. *)
Definition Content_simplify_uniontype (fuel : nat) (out : Content)
    (mergebool : bool) : result Content :=
  match out with
  | UnionArray _ identities_ parameters_ tags_ index_ contents_ =>
      UnionArray_simplify_uniontype fuel identities_ parameters_
        tags_ index_ contents_ mergebool
  | _ => Err (RuntimeError "simplify_uniontype on a node that is no union")
  end.

(** *** Flatten *)

(** UnmaskedArray.cpp 457-479. [rec] is the virtual call
    [offsets_and_flattened]. *)
Definition UnmaskedArray_offsets_and_flattened
    (rec : Content -> Z -> Z -> result (list Z * Content))
    (self : Content) (content_ : Content) (axis depth : Z)
  : result (list Z * Content) :=
  do toaxis <- axis_wrap_if_negative self axis ;;
  if toaxis =? depth
  then Err (InvalidArgument "axis=0 not allowed for flatten")
  else
    do '(offsets, flattened) <- rec content_ axis depth ;;
    if vlen offsets =? 0
    then Ok (offsets, UnmaskedArray None ∅ flattened)
    else Ok (offsets, flattened).

(** UnionArray.cpp 1073-1144. *)
Definition UnionArray_offsets_and_flattened
    (rec : Content -> Z -> Z -> result (list Z * Content))
    (self : Content) (w : IndexWidth) (tags_ index_ : list Z)
    (contents_ : list Content) (axis depth : Z)
  : result (list Z * Content) :=
  do toaxis <- axis_wrap_if_negative self axis ;;
  if toaxis =? depth
  then Err (InvalidArgument "axis=0 not allowed for flatten")
  else
    do '(has_offsets, offsetsraws, contents) <-
      foldM (fun (acc : bool * list (list Z) * list Content) content =>
               let '(_, offsetsraws, contents) := acc in
               do '(offsets, flattened) <- rec content axis depth ;;
               Ok (negb (vlen offsets =? 0),
                   offsetsraws ++ [offsets],
                   contents ++ [flattened]))
            contents_ (false, [], []) ;;
    if has_offsets then
      do total_length <-
        awkward_unionarray_flatten_length_64 tags_ index_ (vlen tags_)
          offsetsraws ;;
      do '(totags, toindex, tooffsets) <-
        awkward_unionarray_flatten_combine_64 tags_ index_ (vlen tags_)
          offsetsraws total_length ;;
      do out <- UnionArray_new I64 None ∅ totags toindex contents ;;
      Ok (tooffsets, out)
    else
      do out <- UnionArray_new w None ∅ tags_ index_ contents ;;
      Ok (new_Index 0, out).

(** RecordArray.cpp 599-630. *)
Definition RecordArray_offsets_and_flattened
    (rec : Content -> Z -> Z -> result (list Z * Content))
    (self : Content) (contents_ : list Content)
    (recordlookup_ : option (list string)) (length_ : Z) (axis depth : Z)
  : result (list Z * Content) :=
  do toaxis <- axis_wrap_if_negative self axis ;;
  if toaxis =? depth
  then Err (InvalidArgument "axis=0 not allowed for flatten")
  else if toaxis =? depth + 1
  then Err (InvalidArgument
              "arrays of records cannot be flattened (but their contents can be; try a different 'axis')")
  else
    do contents <-
      mapM (fun content =>
              do trimmed <- Content_getitem_range content 0 length_ ;;
              do '(offsets, flattened) <- rec trimmed axis depth ;;
              if negb (vlen offsets =? 0)
              then Err (RuntimeError
                          "RecordArray content with axis > depth + 1 returned a non-empty offsets from offsets_and_flattened")
              else Ok flattened)
           contents_ ;;
    do out <- RecordArray_new4 None ∅ contents recordlookup_ ;;
    Ok (new_Index 0, out).

Fixpoint Content_offsets_and_flattened (fuel : nat) (self : Content)
    (axis depth : Z) : result (list Z * Content) :=
  match fuel with
  | O => Err OutOfFuel
  | S fuel' =>
      match self with
      | UnmaskedArray _ _ content_ =>
          UnmaskedArray_offsets_and_flattened
            (Content_offsets_and_flattened fuel') self content_ axis depth
      | RecordArray _ _ contents_ recordlookup_ length_ =>
          RecordArray_offsets_and_flattened
            (Content_offsets_and_flattened fuel')
            self contents_ recordlookup_ length_ axis depth
      | UnionArray w _ _ tags_ index_ contents_ =>
          UnionArray_offsets_and_flattened
            (Content_offsets_and_flattened fuel')
            self w tags_ index_ contents_ axis depth
      | _ => foreign_offsets_and_flattened self axis depth
      end
  end.

(** *** getitem_next *)

(** The heads that address elements: SliceAt, SliceRange, SliceArray64,
    SliceJagged64. *)
Definition addresses_elements (head : SliceItem) : bool :=
  match head with
  | SliceAt _ | SliceRange _ _ _ | SliceArray64 _ _ | SliceJagged64 _ _ =>
      true
  | _ => false
  end.

(** UnionArray.cpp 776-825. [rec] is the virtual call [getitem_next]. *)
Definition UnionArray_getitem_next (fuel : nat)
    (rec : Content -> SliceItemPtr -> Slice -> list Z -> result Content)
    (self : Content) (w : IndexWidth) (identities_ : IdentitiesPtr)
    (parameters_ : Parameters) (tags_ index_ : list Z)
    (contents_ : list Content)
    (head : SliceItemPtr) (tail : Slice) (advanced : list Z)
  : result Content :=
  match head with
  | None => Ok self
  | Some item =>
      if addresses_elements item then
        do outcontents <-
          mapM (fun i : nat =>
                  do projection <-
                    UnionArray_project tags_ index_ contents_ (Z.of_nat i) ;;
                  rec projection head tail advanced)
               (seq 0 (List.length contents_)) ;;
        let outindex := UnionArray_regular_index tags_ in
        do out <-
          UnionArray_new w identities_ parameters_ tags_ outindex
            outcontents ;;
        Content_simplify_uniontype fuel out false
      else Content_getitem_next_shared self item tail advanced
  end.

(** UnmaskedArray.cpp 324-363. *)
Definition UnmaskedArray_getitem_next
    (rec : Content -> SliceItemPtr -> Slice -> list Z -> result Content)
    (self : Content) (identities_ : IdentitiesPtr)
    (parameters_ : Parameters) (content_ : Content)
    (head : SliceItemPtr) (tail : Slice) (advanced : list Z)
  : result Content :=
  match head with
  | None => Ok self
  | Some item =>
      if addresses_elements item then
        do next <- rec content_ head tail advanced ;;
        Ok (UnmaskedArray_simplify_optiontype identities_ parameters_ next)
      else Content_getitem_next_shared self item tail advanced
  end.

(** RecordArray.cpp 420-423. *)
Definition RecordArray_getitem_field (contents_ : list Content)
    (recordlookup_ : option (list string)) (length_ : Z) (key : string)
  : result Content :=
  do f <- RecordArray_field_key contents_ recordlookup_ key ;;
  Content_getitem_range_nowrap f 0 length_.

(** RecordArray.cpp 425-442. *)
Definition RecordArray_getitem_fields (identities_ : IdentitiesPtr)
    (parameters_ : Parameters) (contents_ : list Content)
    (recordlookup_ : option (list string)) (length_ : Z)
    (keys : list string) : result Content :=
  do contents <-
    mapM (RecordArray_getitem_field contents_ recordlookup_ length_) keys ;;
  let recordlookup :=
    match recordlookup_ with
    | Some _ => Some keys
    | None => None
    end in
  RecordArray_new4 identities_ parameters_ contents recordlookup.

(** RecordArray.cpp 1052-1092 with the overloads for SliceField and
    SliceFields, 1118-1138. A Slice is consumed head first. *)
Definition RecordArray_getitem_next
    (rec : Content -> SliceItemPtr -> Slice -> list Z -> result Content)
    (self : Content) (identities_ : IdentitiesPtr)
    (parameters_ : Parameters) (contents_ : list Content)
    (recordlookup_ : option (list string)) (length_ : Z)
    (head : SliceItemPtr) (tail : Slice) (advanced : list Z)
  : result Content :=
  let nexthead := hd_error tail in
  let nexttail := tl tail in
  let emptytail : Slice := [] in
  match head with
  | None => Ok self
  | Some (SliceField key) =>
      do projected <-
        RecordArray_getitem_field contents_ recordlookup_ length_ key ;;
      do out <- rec projected (hd_error emptytail) (tl emptytail) advanced ;;
      rec out nexthead nexttail advanced
  | Some (SliceFields keys) =>
      do projected <-
        RecordArray_getitem_fields identities_ parameters_ contents_
          recordlookup_ length_ keys ;;
      do out <- rec projected (hd_error emptytail) (tl emptytail) advanced ;;
      rec out nexthead nexttail advanced
  | Some (SliceMissing64 index content) =>
      Content_getitem_next_shared self (SliceMissing64 index content)
        tail advanced
  | Some item =>
      do contents <-
        mapM (fun content => rec content head emptytail advanced)
             contents_ ;;
      let parameters :=
        if SliceItem_preserves_type item advanced
        then parameters_ else ∅ in
      do out <- RecordArray_new4 None parameters contents recordlookup_ ;;
      rec out nexthead nexttail advanced
  end.

Fixpoint Content_getitem_next (fuel : nat) (self : Content)
    (head : SliceItemPtr) (tail : Slice) (advanced : list Z)
  : result Content :=
  match fuel with
  | O => Err OutOfFuel
  | S fuel' =>
      match self with
      | UnmaskedArray identities_ parameters_ content_ =>
          UnmaskedArray_getitem_next (Content_getitem_next fuel')
            self identities_ parameters_ content_ head tail advanced
      | RecordArray identities_ parameters_ contents_ recordlookup_
          length_ =>
          RecordArray_getitem_next (Content_getitem_next fuel')
            self identities_ parameters_ contents_ recordlookup_ length_
            head tail advanced
      | UnionArray w identities_ parameters_ tags_ index_ contents_ =>
          UnionArray_getitem_next fuel' (Content_getitem_next fuel')
            self w identities_ parameters_ tags_ index_ contents_
            head tail advanced
      | _ => foreign_getitem_next self head tail advanced
      end
  end.

End Embedding.

(** ** A closed set of collaborators

    For closed examples: one-dimensional NumpyArray leaves and EmptyArray
    behave as the specification describes them (a merge is the
    concatenation, an EmptyArray merges trivially, a carry is a gather, a
    range is a window), a carry turns the offsets of a list node into
    gathered starts and stops, and a SliceAt picks one element out of every
    list of numbers; every other request to a collaborator raises. *)

Definition not_modelled {A} : result A :=
  Err (RuntimeError "collaborator outside of the closed examples").

Definition leaf_merge (self other : Content) : result Content :=
  match self, other with
  | EmptyArray _ _, EmptyArray _ _ => Ok other
  | NumpyArray _ p fmt [n] data, NumpyArray _ q fmt' [m] data' =>
      if parameters_equal p q && bool_decide (fmt = fmt')
      then Ok (NumpyArray None p fmt [n + m] (data ++ data'))
      else not_modelled
  | _, _ => not_modelled
  end.

Definition leaf_mergeable (self other : Content) (mergebool : bool)
  : result bool :=
  match self, other with
  | NumpyArray _ p fmt _ _, NumpyArray _ q fmt' _ _ =>
      Ok (parameters_equal p q && bool_decide (fmt = fmt'))
  | NumpyArray _ _ _ _ _, _ => Ok false
  | _, _ => not_modelled
  end.

Definition leaf_carry (self : Content) (carry : list Z) : result Content :=
  match self with
  | NumpyArray _ p fmt [_] data =>
      do next <- awkward_index_carry_64 data carry ;;
      Ok (NumpyArray None p fmt [vlen carry] next)
  | ListOffsetArray w _ p offsets content =>
      do starts <- awkward_index_carry_64 offsets carry ;;
      do stops <- awkward_index_carry_64 (drop 1 offsets) carry ;;
      Ok (ListArray w None p starts stops content)
  | ListArray w _ p starts stops content =>
      do starts' <- awkward_index_carry_64 starts carry ;;
      do stops' <- awkward_index_carry_64 stops carry ;;
      Ok (ListArray w None p starts' stops' content)
  | _ => not_modelled
  end.

Definition leaf_getitem_next (self : Content) (head : SliceItemPtr)
    (tail : Slice) (advanced : list Z) : result Content :=
  match head, self with
  | None, _ => Ok self
  | Some (SliceAt k), ListArray _ _ _ starts stops (NumpyArray _ p fmt [_] data) =>
      do picked <-
        mapM (fun '(start, stop) =>
                if (0 <=? k) && (start + k <? stop)
                then match vec_at data (start + k) with
                     | Some x => Ok x
                     | None => Err (KernelError "index out of range")
                     end
                else Err (KernelError "index out of range"))
             (zip starts stops) ;;
      Ok (NumpyArray None p fmt [vlen starts] picked)
  | _, _ => not_modelled
  end.

Definition leaf_getitem_range_nowrap (self : Content) (start stop : Z)
  : result Content :=
  match self with
  | NumpyArray _ p fmt [n] data =>
      if (0 <=? start) && (start <=? stop) && (stop <=? n)
      then Ok (NumpyArray None p fmt [stop - start]
                 (Index_getitem_range_nowrap data start stop))
      else not_modelled
  | _ => not_modelled
  end.

Definition leaf_offsets_and_flattened (self : Content) (axis depth : Z)
  : result (list Z * Content) :=
  match self with
  | ListOffsetArray _ _ _ offsets content =>
      if axis =? depth
      then Err (InvalidArgument "axis=0 not allowed for flatten")
      else if axis =? depth + 1 then Ok (offsets, content)
      else not_modelled
  | _ => not_modelled
  end.

Definition leaf_collaborators : Collaborators := {|
  foreign_merge := leaf_merge;
  foreign_reverse_merge := fun _ _ => not_modelled;
  foreign_mergeable := leaf_mergeable;
  foreign_carry := leaf_carry;
  foreign_getitem_range := fun self start stop =>
    leaf_getitem_range_nowrap self (Z.max 0 start)
      (Z.min stop (Content_length self));
  foreign_getitem_range_nowrap := leaf_getitem_range_nowrap;
  foreign_getitem_at_nowrap := fun _ _ => not_modelled;
  foreign_getitem_next := leaf_getitem_next;
  foreign_offsets_and_flattened := leaf_offsets_and_flattened;
  axis_wrap_if_negative := fun _ axis =>
    if axis <? 0 then not_modelled else Ok axis;
  Content_getitem_next_shared := fun _ _ _ _ => not_modelled;
  SliceItem_preserves_type := fun _ _ => true;
  util_fieldindex := fun recordlookup key numfields =>
    match recordlookup with
    | Some keys =>
        match list_find (fun k => k = key) keys with
        | Some (i, _) => Ok (Z.of_nat i)
        | None => Err (InvalidArgument "key not in record")
        end
    | None => Err (InvalidArgument "key not in record")
    end;
  Slice_none := 2 ^ 63 - 1;
  awkward_regularize_rangeslice := fun start stop _ hasstart hasstop length =>
    ((if hasstart then Z.max 0 (Z.min start length) else 0),
     (if hasstop then Z.max 0 (Z.min stop length) else length));
  awkward_unionarray_flatten_length_64 := fun _ _ _ _ => not_modelled;
  awkward_unionarray_flatten_combine_64 := fun _ _ _ _ _ => not_modelled
|}.

(** The same collaborators with a flatten that breaks the contract of
    [offsets_and_flattened] below a record: it hands back offsets at every
    axis. *)
Definition unexpected_offsets_and_flattened (self : Content) (axis depth : Z)
  : result (list Z * Content) :=
  Ok ([0; Content_length self], self).

Definition unexpected_collaborators : Collaborators := {|
  foreign_merge := leaf_merge;
  foreign_reverse_merge := fun _ _ => not_modelled;
  foreign_mergeable := leaf_mergeable;
  foreign_carry := leaf_carry;
  foreign_getitem_range := @foreign_getitem_range leaf_collaborators;
  foreign_getitem_range_nowrap := leaf_getitem_range_nowrap;
  foreign_getitem_at_nowrap := fun _ _ => not_modelled;
  foreign_getitem_next := leaf_getitem_next;
  foreign_offsets_and_flattened := unexpected_offsets_and_flattened;
  axis_wrap_if_negative := @axis_wrap_if_negative leaf_collaborators;
  Content_getitem_next_shared := fun _ _ _ _ => not_modelled;
  SliceItem_preserves_type := fun _ _ => true;
  util_fieldindex := @util_fieldindex leaf_collaborators;
  Slice_none := @Slice_none leaf_collaborators;
  awkward_regularize_rangeslice :=
    @awkward_regularize_rangeslice leaf_collaborators;
  awkward_unionarray_flatten_length_64 := fun _ _ _ _ => not_modelled;
  awkward_unionarray_flatten_combine_64 := fun _ _ _ _ _ => not_modelled
|}.

(** * Further methods of the three classes *)

(** ** Their collaborators

    What getitem_at, setitem_field, keys, purelist_depth, validityerror,
    asslice and reduce_next call outside of the three files. *)
Class Observers : Type := {
  foreign_getitem_at : Content -> Z -> result Content;
  foreign_keys : Content -> list string;
  foreign_purelist_depth : Content -> Z;
  foreign_validityerror : Content -> string -> string;
  (* util::init_recordlookup(numfields) *)
  util_init_recordlookup : Z -> list string;
  (* util::awkward_unionarray_validity<T, I> on the tags, the index, the
     length, the number of arms and their lengths: the message and the row
     of a failure *)
  awkward_unionarray_validity :
    list Z -> list Z -> Z -> Z -> list Z -> option (string * Z);
  (* Content::asslice of the other classes *)
  foreign_asslice : Content -> result SliceItem;
  (* the class Reducer with its name(), and Content::reduce_next(reducer,
     negaxis, starts, parents, outlength, mask, keepdims) of the other
     classes *)
  Reducer : Type;
  Reducer_name : Reducer -> string;
  foreign_reduce_next :
    Content -> Reducer -> Z -> list Z -> list Z -> Z -> bool -> bool ->
    result Content
}.

(** The sum of two [int64_t]. *)
Definition wrap64 (z : Z) : Z := (z + 2 ^ 63) mod 2 ^ 64 - 2 ^ 63.

(** UnionArray.cpp 396-412. *)
Definition UnionArray_classname (w : IndexWidth) : string :=
  match w with
  | I32 => "UnionArray8_32"
  | U32 => "UnionArray8_U32"
  | I64 => "UnionArray8_64"
  end.

(** The message of RecordArray.cpp 85-90 and 123-128. *)
Definition setitem_field_length_message (whatlength length_ : Z) : string :=
  "array of length " +:+ pretty whatlength
  +:+ " cannot be assigned to record array of length " +:+ pretty length_.

(** RecordArray.cpp 91-100: [what] is pushed before the field at [where_],
    or after the last field. *)
Definition setitem_field_contents (contents_ : list Content) (where_ : Z)
    (what : Content) : list Content :=
  mjoin (imap (fun i c => if where_ =? Z.of_nat i then [what; c] else [c])
              contents_)
  ++ (if where_ >=? vlen contents_ then [what] else []).

(** RecordArray.cpp 101-113; the keys are read with [at(i)], which raises
    when the lookup is shorter than the fields. *)
Definition setitem_field_recordlookup (contents_ : list Content)
    (recordlookup_ : option (list string)) (where_ : Z)
  : result (option (list string)) :=
  match recordlookup_ with
  | None => Ok None
  | Some keys =>
      do pushed <-
        mapM (fun i : nat =>
                match keys !! i with
                | Some key =>
                    Ok (if where_ =? Z.of_nat i
                        then [pretty where_; key] else [key])
                | None => Err (RuntimeError "vector::at out of range")
                end)
             (seq 0 (List.length contents_)) ;;
      Ok (Some (mjoin pushed
                ++ (if where_ >=? vlen contents_
                    then [pretty where_] else [])))
  end.

(** RecordArray.cpp 80-118. *)
Definition RecordArray_setitem_field (identities_ : IdentitiesPtr)
    (parameters_ : Parameters) (contents_ : list Content)
    (recordlookup_ : option (list string)) (length_ : Z)
    (where_ : Z) (what : Content) : result Content :=
  if where_ <? 0
  then Err (InvalidArgument "where must be non-negative")
  else if negb (Content_length what =? length_)
  then Err (InvalidArgument
              (setitem_field_length_message (Content_length what) length_))
  else
    let contents := setitem_field_contents contents_ where_ what in
    do recordlookup <-
      setitem_field_recordlookup contents_ recordlookup_ where_ ;;
    RecordArray_new4 identities_ parameters_ contents recordlookup.

(** UnionArray.cpp 996-1009: the keys of [out], from the last to the
    first, are erased unless [tmp] has them. *)
Definition keys_erase_missing (tmp out : list string) : list string :=
  fold_left (fun (out : list string) (j : nat) =>
               match out !! j with
               | Some key =>
                   if existsb (String.eqb key) tmp then out
                   else delete j out
               | None => out
               end)
            (rev (seq 0 (List.length out))) out.

Section Further.
Context `{Collaborators} `{Observers}.

(** RecordArray.cpp 361-375, UnionArray.cpp 679-692 and UnmaskedArray.cpp
    260-273: the same body in the three classes. *)
Definition Content_getitem_at (self : Content) (at_ : Z) : result Content :=
  match self with
  | RecordArray _ _ _ _ _
  | UnionArray _ _ _ _ _ _
  | UnmaskedArray _ _ _ =>
      let len := Content_length self in
      let regular_at := if at_ <? 0 then wrap64 (at_ + len) else at_ in
      if negb ((0 <=? regular_at) && (regular_at <? len))
      then Err (KernelError "index out of range")
      else Content_getitem_at_nowrap self regular_at
  | _ => foreign_getitem_at self at_
  end.

(** RecordArray.cpp 120-147. *)
Definition RecordArray_setitem_field_key (identities_ : IdentitiesPtr)
    (parameters_ : Parameters) (contents_ : list Content)
    (recordlookup_ : option (list string)) (length_ : Z)
    (where_ : string) (what : Content) : result Content :=
  if negb (Content_length what =? length_)
  then Err (InvalidArgument
              (setitem_field_length_message (Content_length what) length_))
  else
    let contents := contents_ ++ [what] in
    let recordlookup :=
      match recordlookup_ with
      | Some keys => keys ++ [where_]
      | None => util_init_recordlookup (vlen contents_) ++ [where_]
      end in
    RecordArray_new4 identities_ parameters_ contents (Some recordlookup).

(** [keys]: UnmaskedArray.cpp 427-430, RecordArray.cpp 539-542 and
    UnionArray.cpp 988-1012. *)
Fixpoint Content_keys (self : Content) : list string :=
  match self with
  | UnmaskedArray _ _ content_ => Content_keys content_
  | RecordArray _ _ contents_ recordlookup_ _ =>
      RecordArray_keys contents_ recordlookup_
  | UnionArray _ _ _ _ _ contents_ =>
      match contents_ with
      | [] => []
      | first :: rest =>
          (fix go (cs : list Content) (out : list string) : list string :=
             match cs with
             | [] => out
             | content :: cs' =>
                 go cs' (keys_erase_missing (Content_keys content) out)
             end) rest (Content_keys first)
      end
  | _ => foreign_keys self
  end.

(** [purelist_depth]: UnmaskedArray.cpp 392-395, RecordArray.cpp 471-474
    and UnionArray.cpp 898-913. *)
Fixpoint Content_purelist_depth (self : Content) : Z :=
  match self with
  | UnmaskedArray _ _ content_ => Content_purelist_depth content_
  | RecordArray _ _ _ _ _ => 1
  | UnionArray _ _ _ _ _ contents_ =>
      (fix go (cs : list Content) (first : bool) (out : Z) : Z :=
         match cs with
         | [] => out
         | content :: cs' =>
             if first then go cs' false (Content_purelist_depth content)
             else if negb (out =? Content_purelist_depth content) then -1
             else go cs' first out
         end) contents_ true (-1)
  | _ => foreign_purelist_depth self
  end.

(** [validityerror]: UnmaskedArray.cpp 432-435, RecordArray.cpp 544-561
    and UnionArray.cpp 1014-1041. The empty string is "no error". *)
Fixpoint Content_validityerror (self : Content) (path : string) : string :=
  match self with
  | UnmaskedArray _ _ content_ =>
      Content_validityerror content_ (path +:+ ".content")
  | RecordArray _ _ contents_ _ length_ =>
      match list_find (fun c => Content_length c < length_) contents_ with
      | Some (i, _) =>
          "at " +:+ path +:+ " (" +:+ "RecordArray" +:+ "): len(field("
          +:+ pretty (Z.of_nat i) +:+ ")) < len(recordarray)"
      | None =>
          (fix go (cs : list Content) (i : nat) : string :=
             match cs with
             | [] => ""
             | content :: cs' =>
                 let sub :=
                   Content_validityerror content
                     (path +:+ ".field(" +:+ pretty (Z.of_nat i) +:+ ")") in
                 if negb (String.eqb sub "") then sub else go cs' (S i)
             end) contents_ 0%nat
      end
  | UnionArray w _ _ tags_ index_ contents_ =>
      let lencontents := Content_length <$> contents_ in
      match awkward_unionarray_validity tags_ index_ (vlen tags_)
              (vlen contents_) lencontents with
      | Some (str, row) =>
          "at " +:+ path +:+ " (" +:+ UnionArray_classname w +:+ "): "
          +:+ str +:+ " at i=" +:+ pretty row
      | None =>
          (fix go (cs : list Content) (i : nat) : string :=
             match cs with
             | [] => ""
             | content :: cs' =>
                 let sub :=
                   Content_validityerror content
                     (path +:+ ".content(" +:+ pretty (Z.of_nat i)
                      +:+ ")") in
                 if negb (String.eqb sub "") then sub else go cs' (S i)
             end) contents_ 0%nat
      end
  | _ => foreign_validityerror self path
  end.

(** UnionArray.cpp 113-124. *)
Definition UnionArray_content (w : IndexWidth) (contents_ : list Content)
    (index : Z) : result Content :=
  if negb ((0 <=? index) && (index <? vlen contents_))
  then Err (InvalidArgument
              ("index " +:+ pretty index +:+ " out of range for "
               +:+ UnionArray_classname w +:+ " with "
               +:+ pretty (vlen contents_) +:+ " contents"))
  else match vec_at contents_ index with
       | Some c => Ok c
       | None => Err (RuntimeError "read outside of contents_")
       end.

(** [asslice]: UnmaskedArray.cpp 544-547, RecordArray.cpp 824-827 and
    UnionArray.cpp 1409-1446, whose three branches differ in the width of
    the union only. *)
Fixpoint Content_asslice (fuel : nat) (self : Content) : result SliceItem :=
  match fuel with
  | O => Err OutOfFuel
  | S fuel' =>
      match self with
      | UnmaskedArray _ _ content_ => Content_asslice fuel' content_
      | RecordArray _ _ _ _ _ =>
          Err (InvalidArgument "cannot use records as a slice")
      | UnionArray _ identities_ parameters_ tags_ index_ contents_ =>
          do simplified <-
            UnionArray_simplify_uniontype fuel' identities_ parameters_
              tags_ index_ contents_ false ;;
          match simplified with
          | UnionArray w _ _ _ _ raw_contents =>
              if vlen raw_contents =? 1
              then
                do content <- UnionArray_content w raw_contents 0 ;;
                Content_asslice fuel' content
              else Err (InvalidArgument
                          "cannot use a union of different types as a slice")
          | _ => Content_asslice fuel' simplified
          end
      | _ => foreign_asslice self
      end
  end.

(** [reduce_next]: UnmaskedArray.cpp 609-624, RecordArray.cpp 923-948 and
    UnionArray.cpp 1530-1555. *)
Fixpoint Content_reduce_next (fuel : nat) (self : Content)
    (reducer : Reducer) (negaxis : Z) (starts parents : list Z)
    (outlength : Z) (mask keepdims : bool) : result Content :=
  match fuel with
  | O => Err OutOfFuel
  | S fuel' =>
      match self with
      | UnmaskedArray _ _ content_ =>
          Content_reduce_next fuel' content_ reducer negaxis starts parents
            outlength mask keepdims
      | RecordArray _ _ contents_ recordlookup_ length_ =>
          do contents <-
            mapM (fun content =>
                    do trimmed <-
                      Content_getitem_range_nowrap content 0 length_ ;;
                    Content_reduce_next fuel' trimmed reducer negaxis starts
                      parents outlength mask keepdims)
                 contents_ ;;
          RecordArray_new None ∅ contents recordlookup_ outlength
      | UnionArray w identities_ parameters_ tags_ index_ contents_ =>
          do simplified <-
            UnionArray_simplify_uniontype fuel' identities_ parameters_
              tags_ index_ contents_ true ;;
          if is_UnionArray simplified
          then Err (InvalidArgument
                      ("cannot reduce (call '" +:+ Reducer_name reducer
                       +:+ "' on) an irreducible "
                       +:+ UnionArray_classname w))
          else Content_reduce_next fuel' simplified reducer negaxis starts
                 parents outlength mask keepdims
      | _ =>
          foreign_reduce_next self reducer negaxis starts parents outlength
            mask keepdims
      end
  end.

End Further.

(** The collaborators of the further methods for closed examples: a leaf
    has no keys, the depth of its lists plus one, and no validity error;
    a union is valid when every tag names an arm and every index a row of
    that arm. *)
Definition leaf_purelist_depth (self : Content) : Z :=
  match self with
  | ListArray _ _ _ _ _ _ | ListOffsetArray _ _ _ _ _
  | RegularArray _ _ _ _ _ => 2
  | _ => 1
  end.

Definition leaf_unionarray_validity (tags index : list Z)
    (length numcontents : Z) (lencontents : list Z) : option (string * Z) :=
  (fun '(i, _) => ("tags or index out of range", Z.of_nat i)) <$>
  list_find (fun ti : Z * Z =>
               negb ((0 <=? ti.1) && (ti.1 <? numcontents)
                     && (0 <=? ti.2)
                     && (ti.2 <? default 0 (vec_at lencontents ti.1)))
               = true)
            (zip tags index).

Definition leaf_observers : Observers := {|
  foreign_getitem_at := fun _ _ => not_modelled;
  foreign_keys := fun _ => [];
  foreign_purelist_depth := leaf_purelist_depth;
  foreign_validityerror := fun _ _ => "";
  util_init_recordlookup := util_keys None;
  awkward_unionarray_validity := leaf_unionarray_validity;
  foreign_asslice := fun _ => not_modelled;
  Reducer := string;
  Reducer_name := fun name => name;
  foreign_reduce_next := fun _ _ _ _ _ _ _ _ => not_modelled
|}.

(** * Theorems *)

(** ** Buffers *)

Lemma vlen_nonneg {A} (l : list A) : 0 <= vlen l.
Proof. unfold vlen. lia. Qed.

Lemma vlen_app {A} (l k : list A) : vlen (l ++ k) = vlen l + vlen k.
Proof. unfold vlen. rewrite length_app. lia. Qed.

Lemma length_store (buf : list Z) (offset : Z) (vals : list Z) :
  List.length (store buf offset vals) = List.length buf.
Proof.
  unfold store. rewrite length_take, !length_app, length_take, length_drop. lia.
Qed.

Lemma store_app (xs ys vals : list Z) (offset : Z) :
  offset = vlen xs ->
  List.length vals = List.length ys ->
  store (xs ++ ys) offset vals = xs ++ vals.
Proof.
  intros -> Hlen. unfold store, vlen. rewrite Nat2Z.id.
  rewrite take_app_length.
  rewrite drop_app_ge by lia.
  rewrite drop_ge by lia.
  rewrite app_nil_r.
  apply take_ge. rewrite !length_app. lia.
Qed.

Lemma store_new_Index (n : Z) (vals : list Z) (m : nat) :
  Z.to_nat n = (List.length vals + m)%nat ->
  store (new_Index n) 0 vals = vals ++ replicate m 0.
Proof.
  intros Hn. unfold store, new_Index. rewrite Hn. simpl Z.to_nat.
  rewrite take_0, app_nil_l, Nat.add_0_l.
  rewrite drop_replicate, length_replicate.
  replace (List.length vals + m - List.length vals)%nat with m by lia.
  apply take_ge. rewrite length_app, length_replicate. lia.
Qed.
Lemma vlen_replicate {A} (n : Z) (x : A) :
  0 <= n -> vlen (replicate (Z.to_nat n) x) = n.
Proof. intros. unfold vlen. rewrite length_replicate. lia. Qed.

Lemma vlen_seqZ (m n : Z) : 0 <= n -> vlen (seqZ m n) = n.
Proof. intros. unfold vlen. rewrite length_seqZ. lia. Qed.

Lemma to8_small (z : Z) : -128 <= z <= 127 -> to8 z = z.
Proof. intros. unfold to8. rewrite Z.mod_small; lia. Qed.

Lemma UnionArray_new_ok (w : IndexWidth) ids (p : Parameters)
    (tags index : list Z) (contents : list Content) :
  contents <> [] -> vlen tags <= vlen index ->
  UnionArray_new w ids p tags index contents =
    Ok (UnionArray w ids p tags index contents).
Proof.
  intros Hne Hlen. unfold UnionArray_new.
  destruct contents; [congruence|].
  destruct (Z.ltb_spec (vlen index) (vlen tags)); [lia | reflexivity].
Qed.

Lemma UnionArray_reverse_merge_closed (tags_ index_ : list Z)
    (contents_ : list Content) (other : Content) :
  0 <= Content_length other ->
  vlen tags_ <= vlen index_ ->
  vlen contents_ < 127 ->
  UnionArray_reverse_merge tags_ index_ contents_ other =
    Ok (UnionArray8_64 None ∅
          (replicate (Z.to_nat (Content_length other)) 0
             ++ ((fun t => to8 (t + 1)) <$> tags_))
          (seqZ 0 (Content_length other) ++ take (List.length tags_) index_)
          (other :: contents_)).
Proof.
  intros Hother Hidx Hcap. unfold UnionArray_reverse_merge.
  set (their := Content_length other) in *.
  unfold awkward_unionarray_filltags_to8_const,
    awkward_unionarray_filltags_to8_from8,
    awkward_unionarray_fillindex_to64_count,
    awkward_unionarray_fillindex_to64_from.
  change (to8 0) with 0.
  assert (Hmy : Z.to_nat (vlen tags_) = List.length tags_)
    by (unfold vlen; lia).
  rewrite (store_new_Index _ (replicate (Z.to_nat their) 0) (List.length tags_))
    by (rewrite length_replicate; unfold vlen; lia).
  rewrite (store_new_Index _ (seqZ 0 their) (List.length tags_))
    by (rewrite length_seqZ; unfold vlen; lia).
  rewrite Hmy, take_ge by lia.
  rewrite store_app;
    [| rewrite vlen_replicate; lia
     | rewrite length_fmap, length_replicate; reflexivity].
  rewrite store_app;
    [| rewrite vlen_seqZ; lia
     | rewrite length_take, length_replicate; unfold vlen in Hidx; lia].
  destruct (Z.gtb_spec (vlen (other :: contents_)) kMaxInt8) as [Hgt|_].
  { unfold vlen, kMaxInt8 in *. simpl in Hgt. lia. }
  apply UnionArray_new_ok; [discriminate|].
  rewrite !vlen_app, vlen_replicate, vlen_seqZ by lia.
  unfold vlen. rewrite length_fmap, length_take. unfold vlen in Hidx. lia.
Qed.

Lemma vec_at_lookup {A} (l : list A) (i : Z) (x : A) :
  vec_at l i = Some x <-> 0 <= i /\ l !! Z.to_nat i = Some x.
Proof.
  unfold vec_at. destruct (Z.ltb_spec i 0); split.
  - discriminate.
  - intros [? _]; lia.
  - auto.
  - intros [_ ?]; assumption.
Qed.

Lemma vec_at_app_l {A} (l k : list A) (i : Z) :
  0 <= i < vlen l -> vec_at (l ++ k) i = l !! Z.to_nat i.
Proof.
  intros Hi. unfold vec_at, vlen in *.
  destruct (Z.ltb_spec i 0); [lia|]. apply lookup_app_l. lia.
Qed.

Lemma vec_at_app_r {A} (l k : list A) (offset j : Z) :
  offset = vlen l -> 0 <= j ->
  vec_at (l ++ k) (offset + j) = k !! Z.to_nat j.
Proof.
  intros -> Hj. unfold vec_at, vlen.
  destruct (Z.ltb_spec (Z.of_nat (List.length l) + j) 0); [lia|].
  rewrite lookup_app_r by lia. f_equal. lia.
Qed.

(** ** reverse_merge of a union (C5) *)

(** C5 (as amended): for a UnionArray s with valid tags and fewer than 127
    arms,
    s.reverse_merge(other) is the UnionArray8_64 whose arms are other
    followed by the arms of s; row i < len(other) has tag 0 and index i,
    and row len(other)+j has tag s.tags[j]+1 and index s.index[j]. *)
Theorem C5_union_reverse_merge (tags_ index_ : list Z)
    (contents_ : list Content) (other : Content) :
  0 <= Content_length other ->
  vlen tags_ <= vlen index_ ->
  Forall (fun t => 0 <= t < vlen contents_) tags_ ->
  vlen contents_ < 127 ->
  exists tags index,
    UnionArray_reverse_merge tags_ index_ contents_ other =
      Ok (UnionArray8_64 None ∅ tags index (other :: contents_)) /\
    vlen tags = Content_length other + vlen tags_ /\
    (forall i, 0 <= i < Content_length other ->
       vec_at tags i = Some 0 /\ vec_at index i = Some i) /\
    (forall j t x, vec_at tags_ j = Some t -> vec_at index_ j = Some x ->
       vec_at tags (Content_length other + j) = Some (t + 1) /\
       vec_at index (Content_length other + j) = Some x).
Proof.
  intros Hother Hidx Hvalid Hcap.
  eexists _, _. split;
    [apply UnionArray_reverse_merge_closed; assumption|].
  set (their := Content_length other) in *.
  split; [|split].
  - rewrite vlen_app, vlen_replicate by lia.
    unfold vlen. rewrite length_fmap. reflexivity.
  - intros i Hi. split.
    + rewrite vec_at_app_l by (rewrite vlen_replicate; lia).
      apply lookup_replicate_2. lia.
    + rewrite vec_at_app_l by (rewrite vlen_seqZ; lia).
      rewrite lookup_seqZ_lt by lia. f_equal. lia.
  - intros j t x Ht Hx.
    apply vec_at_lookup in Ht as [Hj Ht].
    apply vec_at_lookup in Hx as [_ Hx].
    split.
    + rewrite vec_at_app_r; [| rewrite vlen_replicate; lia | lia].
      rewrite list_lookup_fmap, Ht. simpl. f_equal.
      apply to8_small.
      rewrite Forall_forall in Hvalid.
      assert (0 <= t < vlen contents_).
      { apply Hvalid. eapply list_elem_of_lookup_2. exact Ht. }
      lia.
    + rewrite vec_at_app_r; [| rewrite vlen_seqZ; lia | lia].
      rewrite lookup_take_lt; [exact Hx|].
      apply lookup_lt_Some in Ht. exact Ht.
Qed.

Lemma C5_union_reverse_merge_witness :
  let other := NumpyArray None ∅ "d" [2] [25; 35] in
  let a := NumpyArray None ∅ "d" [1] [15] in
  let b := NumpyArray None ∅ "?" [1] [1] in
  exists tags index,
    UnionArray_reverse_merge [0; 1; 1] [0; 0; 1] [a; b] other =
      Ok (UnionArray8_64 None ∅ tags index [other; a; b]) /\
    vec_at tags 1 = Some 0 /\ vec_at index 1 = Some 1 /\
    vec_at tags (2 + 2) = Some (1 + 1) /\ vec_at index (2 + 2) = Some 1.
Proof.
  intros other a b.
  destruct (C5_union_reverse_merge [0; 1; 1] [0; 0; 1] [a; b] other)
    as (tags & index & Hr & _ & Hhead & Htail).
  - simpl. lia.
  - unfold vlen. simpl. lia.
  - repeat constructor; unfold vlen; simpl; lia.
  - unfold vlen. simpl. lia.
  - exists tags, index. split; [exact Hr|].
    destruct (Hhead 1) as [H1 H2]; [simpl; lia|].
    destruct (Htail 2 1 1) as [H3 H4]; [reflexivity | reflexivity |].
    auto.
Defined.

(** The claim C5 as stated fails: a union with 127 arms is valid (its tags
    fit the 8 bits and the constructor accepts it), and reverse_merge
    raises on it, the result needing 128 arms. *)
Lemma C5_full_union_reverse_merge_raises :
  let a := NumpyArray None ∅ "d" [1] [15] in
  let other := NumpyArray None ∅ "?" [1] [1] in
  let contents := replicate 127 a in
  UnionArray_new I64 None ∅ [0; 126] [0; 0] contents =
    Ok (UnionArray8_64 None ∅ [0; 126] [0; 0] contents) /\
  Forall (fun t => 0 <= t < vlen contents) [0; 126] /\
  UnionArray_reverse_merge [0; 126] [0; 0] contents other =
    Err (RuntimeError "FIXME: handle UnionArray with more than 127 contents").
Proof.
  intros a other contents. split; [|split].
  - vm_compute. reflexivity.
  - repeat constructor; vm_compute; congruence.
  - vm_compute. reflexivity.
Qed.


(** ** Record length (C10) *)

Lemma minlength_step_nonneg (out : Z) (x : Content) :
  0 <= out -> 0 <= Content_length x ->
  0 <= minlength_step out x /\
  minlength_step out x <= out /\
  minlength_step out x <= Content_length x /\
  (minlength_step out x = out \/ minlength_step out x = Content_length x).
Proof.
  intros Hout Hx. unfold minlength_step. cbn zeta.
  destruct (Z.ltb_spec out 0); [lia|]. cbn [orb].
  destruct (Z.gtb_spec out (Content_length x)); lia.
Qed.

Lemma minlength_fold_nonneg (l : list Content) (out : Z) :
  0 <= out ->
  Forall (fun c => 0 <= Content_length c) l ->
  0 <= fold_left minlength_step l out /\
  fold_left minlength_step l out <= out /\
  Forall (fun c => fold_left minlength_step l out <= Content_length c) l /\
  (fold_left minlength_step l out = out \/
   Exists (fun c => fold_left minlength_step l out = Content_length c) l).
Proof.
  revert out. induction l as [|x l IH]; intros out Hout Hall;
    cbn [fold_left].
  - split; [lia|]. split; [lia|]. split; [constructor | left; reflexivity].
  - inversion Hall as [|? ? Hx Hl]; subst.
    destruct (minlength_step_nonneg out x Hout Hx) as (S0 & S1 & S2 & S3).
    destruct (IH (minlength_step out x) S0 Hl) as (H0 & H1 & H2 & H3).
    split; [exact H0|]. split; [lia|]. split.
    + constructor; [lia | exact H2].
    + destruct H3 as [H3|H3].
      * destruct S3 as [S3|S3]; [left; lia | right; left; lia].
      * right; right; exact H3.
Qed.

Lemma minlength_is_minimum (x : Content) (l : list Content) :
  Forall (fun c => 0 <= Content_length c) (x :: l) ->
  Forall (fun c => minlength (x :: l) <= Content_length c) (x :: l) /\
  Exists (fun c => minlength (x :: l) = Content_length c) (x :: l).
Proof.
  intros Hall. inversion Hall as [|? ? Hx Hl]; subst.
  unfold minlength. cbn [fold_left].
  replace (minlength_step (-1) x) with (Content_length x) by reflexivity.
  destruct (minlength_fold_nonneg l (Content_length x) Hx Hl)
    as (H0 & H1 & H2 & H3).
  split.
  - constructor; auto.
  - destruct H3 as [H3|H3]; [left; exact H3 | right; exact H3].
Qed.

(** C10: a RecordArray built by the constructor that takes no length has
    length 0 when it has no fields and otherwise the minimum of its fields'
    lengths (fields' lengths being non-negative, as every length is); a
    record without fields has another length only through the constructor
    that takes the length, which stores it as given. *)
Theorem C10_record_length_is_minlength
    (identities : IdentitiesPtr) (parameters : Parameters)
    (contents : list Content) (recordlookup : option (list string))
    (r : Content) :
  Forall (fun c => 0 <= Content_length c) contents ->
  RecordArray_new4 identities parameters contents recordlookup = Ok r ->
  (contents = [] -> Content_length r = 0) /\
  (contents <> [] ->
     Forall (fun c => Content_length r <= Content_length c) contents /\
     Exists (fun c => Content_length r = Content_length c) contents) /\
  (forall n r',
     RecordArray_new identities parameters [] recordlookup n = Ok r' ->
     Content_length r' = n).
Proof.
  intros Hall Hr.
  assert (Hlen : Content_length r = minlength contents).
  { unfold RecordArray_new4, RecordArray_new in Hr.
    destruct recordlookup as [keys|];
      [destruct (negb (vlen keys =? vlen contents)); [discriminate|]|];
      inversion Hr; reflexivity. }
  split; [|split].
  - intros ->. rewrite Hlen. reflexivity.
  - intros Hne. rewrite Hlen.
    destruct contents as [|x l]; [congruence|].
    apply minlength_is_minimum; assumption.
  - intros n r' Hr'. unfold RecordArray_new in Hr'.
    destruct recordlookup as [keys|];
      [destruct (negb (vlen keys =? vlen [])); [discriminate|]|];
      inversion Hr'; reflexivity.
Qed.

Lemma C10_record_length_witness :
  let a := NumpyArray None ∅ "l" [5] [1; 2; 3; 4; 5] in
  let b := NumpyArray None ∅ "l" [3] [7; 8; 9] in
  let r := RecordArray None ∅ [a; b] None 3 in
  RecordArray_new4 None ∅ [a; b] None = Ok r /\
  Forall (fun c => Content_length r <= Content_length c) [a; b] /\
  Exists (fun c => Content_length r = Content_length c) [a; b].
Proof.
  intros a b r. split; [reflexivity|].
  apply (proj1 (proj2 (C10_record_length_is_minlength None ∅ [a; b] None r
                         ltac:(repeat constructor; simpl; lia) eq_refl))).
  discriminate.
Defined.

(** ** Option-type simplification of UnmaskedArray (C6) *)

(** C6: simplify_optiontype of an UnmaskedArray returns the child itself
    when the child is an IndexedArray, IndexedOptionArray, ByteMaskedArray,
    BitMaskedArray or UnmaskedArray, and otherwise a node equal to the
    UnmaskedArray it was called on. *)
Theorem C6_unmasked_simplify_optiontype
    (identities : IdentitiesPtr) (parameters : Parameters)
    (content : Content) :
  UnmaskedArray_simplify_optiontype identities parameters content =
    if is_option_or_indexed content
    then content
    else UnmaskedArray identities parameters content.
Proof.
  destruct content as
    [ | | | | | w ? ? ? ? | w ? ? ? ? | | | | | | ]; try reflexivity;
    destruct w; reflexivity.
Qed.

(** ** merge falls back to a two-arm union (C4) *)

Lemma Content_merge_as_union_closed (self other : Content) :
  0 <= Content_length self ->
  0 <= Content_length other ->
  Content_merge_as_union self other =
    Ok (UnionArray8_64 None ∅
          (replicate (Z.to_nat (Content_length self)) 0
             ++ replicate (Z.to_nat (Content_length other)) 1)
          (seqZ 0 (Content_length self) ++ seqZ 0 (Content_length other))
          [self; other]).
Proof.
  intros Hself Hother. unfold Content_merge_as_union.
  set (my := Content_length self) in *.
  set (their := Content_length other) in *.
  unfold awkward_unionarray_filltags_to8_const,
    awkward_unionarray_fillindex_to64_count.
  change (to8 0) with 0. change (to8 1) with 1.
  rewrite (store_new_Index _ (replicate (Z.to_nat my) 0) (Z.to_nat their))
    by (rewrite length_replicate; lia).
  rewrite (store_new_Index _ (seqZ 0 my) (Z.to_nat their))
    by (rewrite length_seqZ; lia).
  rewrite store_app;
    [| rewrite vlen_replicate; lia | rewrite !length_replicate; reflexivity].
  rewrite store_app;
    [| rewrite vlen_seqZ; lia
     | rewrite length_seqZ, length_replicate; reflexivity].
  apply UnionArray_new_ok; [discriminate|].
  rewrite !vlen_app, !vlen_replicate, !vlen_seqZ by lia. lia.
Qed.

Lemma parameters_equal_false (p q : Parameters) :
  p <> q -> parameters_equal p q = false.
Proof. intros Hne. unfold parameters_equal. apply bool_decide_eq_false_2, Hne. Qed.

Lemma parameters_equal_true (p q : Parameters) :
  p = q -> parameters_equal p q = true.
Proof. intros Heq. unfold parameters_equal. apply bool_decide_eq_true_2, Heq. Qed.

Section MergeFallback.
Context `{Collaborators}.

Lemma Content_merge_parameters_differ (fuel : nat) (self other : Content) :
  is_RecordArray self || is_UnionArray self = true ->
  Content_parameters self <> Content_parameters other ->
  Content_merge (S fuel) self other = Content_merge_as_union self other.
Proof.
  intros Hclass Hne.
  destruct self; try discriminate Hclass; cbn [Content_merge];
    [unfold RecordArray_merge | unfold UnionArray_merge];
    cbn [Content_parameters] in Hne;
    rewrite (parameters_equal_false _ _ Hne); reflexivity.
Qed.

(** C4: when the parameters of self and other differ, merge on a
    RecordArray or a UnionArray is merge_as_union: the UnionArray8_64
    with the two arms self and other, tag 0 and index i on the rows of
    self, tag 1 and index j on the rows of other. *)
Theorem C4_merge_parameters_differ (fuel : nat) (self other : Content) :
  is_RecordArray self || is_UnionArray self = true ->
  Content_parameters self <> Content_parameters other ->
  0 <= Content_length self ->
  0 <= Content_length other ->
  exists tags index,
    Content_merge (S fuel) self other =
      Ok (UnionArray8_64 None ∅ tags index [self; other]) /\
    Content_merge (S fuel) self other = Content_merge_as_union self other /\
    vlen tags = Content_length self + Content_length other /\
    (forall i, 0 <= i < Content_length self ->
       vec_at tags i = Some 0 /\ vec_at index i = Some i) /\
    (forall j, 0 <= j < Content_length other ->
       vec_at tags (Content_length self + j) = Some 1 /\
       vec_at index (Content_length self + j) = Some j).
Proof.
  intros Hclass Hne Hself Hother.
  rewrite (Content_merge_parameters_differ fuel self other Hclass Hne).
  rewrite (Content_merge_as_union_closed self other Hself Hother).
  eexists _, _. split; [reflexivity|]. split; [reflexivity|].
  split; [|split].
  - rewrite vlen_app, !vlen_replicate by lia. reflexivity.
  - intros i Hi. split.
    + rewrite vec_at_app_l by (rewrite vlen_replicate; lia).
      apply lookup_replicate_2. lia.
    + rewrite vec_at_app_l by (rewrite vlen_seqZ; lia).
      rewrite lookup_seqZ_lt by lia. f_equal. lia.
  - intros j Hj. split.
    + rewrite vec_at_app_r; [| rewrite vlen_replicate; lia | lia].
      apply lookup_replicate_2. lia.
    + rewrite vec_at_app_r; [| rewrite vlen_seqZ; lia | lia].
      rewrite lookup_seqZ_lt by lia. f_equal. lia.
Qed.

(** An UnmaskedArray does not look at the parameters itself: its merge is
    the merge of its IndexedOptionArray64 form, a collaborator's. *)
Lemma UnmaskedArray_merge_delegates (fuel : nat) (ids : IdentitiesPtr)
    (p : Parameters) (content other : Content) :
  Content_merge (S (S fuel)) (UnmaskedArray ids p content) other =
    foreign_merge (UnmaskedArray_toIndexedOptionArray64 ids p content) other.
Proof. reflexivity. Qed.

End MergeFallback.

Lemma C4_merge_parameters_differ_witness :
  let a := NumpyArray None ∅ "d" [2] [15; 25] in
  let self := RecordArray None {["__record__" := "point"]} [a] None 2 in
  let other := NumpyArray None ∅ "d" [1] [35] in
  exists tags index,
    @Content_merge leaf_collaborators 1 self other =
      Ok (UnionArray8_64 None ∅ tags index [self; other]) /\
    vec_at tags 1 = Some 0 /\ vec_at index 1 = Some 1 /\
    vec_at tags (2 + 0) = Some 1 /\ vec_at index (2 + 0) = Some 0.
Proof.
  intros a self other.
  destruct (@C4_merge_parameters_differ leaf_collaborators 0 self other)
    as (tags & index & Hr & _ & _ & Hmine & Htheirs).
  - reflexivity.
  - simpl. intros Heq.
    apply (f_equal (fun m : Parameters => m !! "__record__")) in Heq.
    vm_compute in Heq. discriminate Heq.
  - simpl. lia.
  - simpl. lia.
  - exists tags, index. split; [exact Hr|].
    destruct (Hmine 1) as [H1 H2]; [simpl; lia|].
    destruct (Htheirs 0) as [H3 H4]; [simpl; lia|].
    auto.
Defined.

(** ** The 127-arm limit (C9) *)

Lemma UnionArray_new_inv (w : IndexWidth) ids (p : Parameters)
    (tags index : list Z) (contents : list Content) (r : Content) :
  UnionArray_new w ids p tags index contents = Ok r ->
  r = UnionArray w ids p tags index contents.
Proof.
  unfold UnionArray_new. destruct contents; [discriminate|].
  destruct (vlen index <? vlen tags); [discriminate|].
  intros Hr. inversion Hr. reflexivity.
Qed.

Lemma UnionArray_merge_grows (self : Content) (p : Parameters)
    (tags_ index_ : list Z) (contents_ : list Content) (other : Content) :
  parameters_equal p (Content_parameters other) = true ->
  is_EmptyArray other = false ->
  exists tags index,
    UnionArray_merge self p tags_ index_ contents_ other =
      if vlen (UnionArray_merge_contents contents_ other) >? kMaxInt8
      then Err (RuntimeError
                  "FIXME: handle UnionArray with more than 127 contents")
      else UnionArray_new I64 None ∅ tags index
             (UnionArray_merge_contents contents_ other).
Proof.
  intros Hp He. unfold UnionArray_merge. rewrite Hp, He. cbn [negb].
  destruct other; eexists _, _; reflexivity.
Qed.

Section Capacity.
Context `{Collaborators}.

(** C9: simplify_uniontype, merge and reverse_merge of a UnionArray raise
    when the contents they have assembled number more than 127, and a
    union they return has at most 127 arms (merge may also return self
    untouched, when other is an EmptyArray). *)
Theorem C9_union_capacity :
  (forall fuel ids (p : Parameters) tags_ index_ contents_ mergebool
          tags index contents,
     simplify_canonical fuel tags_ index_ contents_ mergebool =
       Ok (tags, index, contents) ->
     (127 < vlen contents ->
      is_runtime_error
        (UnionArray_simplify_uniontype fuel ids p tags_ index_ contents_
           mergebool) = true) /\
     (is_ok (UnionArray_simplify_uniontype fuel ids p tags_ index_
               contents_ mergebool) = true ->
      vlen contents <= 127)) /\
  (forall self (p : Parameters) tags_ index_ contents_ other,
     (parameters_equal p (Content_parameters other) = true ->
      is_EmptyArray other = false ->
      127 < vlen (UnionArray_merge_contents contents_ other) ->
      is_runtime_error
        (UnionArray_merge self p tags_ index_ contents_ other) = true) /\
     (forall r,
        UnionArray_merge self p tags_ index_ contents_ other = Ok r ->
        r = self \/ (is_UnionArray r = true /\ numcontents r <= 127))) /\
  (forall tags_ index_ contents_ other,
     (127 < vlen (other :: contents_) ->
      is_runtime_error
        (UnionArray_reverse_merge tags_ index_ contents_ other) = true) /\
     (forall r,
        UnionArray_reverse_merge tags_ index_ contents_ other = Ok r ->
        is_UnionArray r = true /\ numcontents r <= 127)).
Proof.
  split; [|split].
  - intros fuel ids p tags_ index_ contents_ mergebool tags index contents
      Hcanon.
    unfold UnionArray_simplify_uniontype. rewrite Hcanon. cbn [rbind].
    unfold kMaxInt8. split.
    + intros Hbig.
      destruct (Z.gtb_spec (vlen contents) 127); [reflexivity | lia].
    + destruct (Z.gtb_spec (vlen contents) 127); [discriminate | lia].
  - intros self p tags_ index_ contents_ other. split.
    + intros Hp He Hbig.
      destruct (UnionArray_merge_grows self p tags_ index_ contents_ other
                  Hp He) as (tags & index & ->).
      unfold kMaxInt8.
      destruct (Z.gtb_spec (vlen (UnionArray_merge_contents contents_ other))
                  127); [reflexivity | lia].
    + intros r Hr.
      destruct (parameters_equal p (Content_parameters other)) eqn:Hp.
      * destruct (is_EmptyArray other) eqn:He.
        -- left. unfold UnionArray_merge in Hr. rewrite Hp, He in Hr.
           cbn [negb] in Hr. inversion Hr. reflexivity.
        -- right.
           destruct (UnionArray_merge_grows self p tags_ index_ contents_
                       other Hp He) as (tags & index & Hm).
           rewrite Hm in Hr. unfold kMaxInt8 in Hr.
           destruct (Z.gtb_spec
                       (vlen (UnionArray_merge_contents contents_ other))
                       127); [discriminate|].
           apply UnionArray_new_inv in Hr. subst r. split; [reflexivity|].
           simpl. assumption.
      * right. unfold UnionArray_merge in Hr. rewrite Hp in Hr.
        cbn [negb] in Hr. unfold Content_merge_as_union in Hr.
        apply UnionArray_new_inv in Hr. subst r. split; [reflexivity|].
        unfold numcontents, vlen. simpl. lia.
  - intros tags_ index_ contents_ other. unfold UnionArray_reverse_merge.
    unfold kMaxInt8. split.
    + intros Hbig.
      destruct (Z.gtb_spec (vlen (other :: contents_)) 127);
        [reflexivity | lia].
    + intros r Hr.
      destruct (Z.gtb_spec (vlen (other :: contents_)) 127);
        [discriminate|].
      apply UnionArray_new_inv in Hr. subst r. split; [reflexivity|].
      simpl. assumption.
Qed.

End Capacity.

Lemma C9_union_capacity_witness :
  let a := NumpyArray None ∅ "d" [1] [15] in
  let arms := replicate 127 a in
  is_runtime_error
    (UnionArray_reverse_merge [0] [0] arms a) = true /\
  is_runtime_error
    (UnionArray_merge (UnionArray8_64 None ∅ [0] [0] arms)
       ∅ [0] [0] arms a) = true.
Proof.
  intros a arms.
  destruct (@C9_union_capacity leaf_collaborators) as (_ & Hmerge & Hrev).
  split.
  - apply (proj1 (Hrev [0] [0] arms a)). vm_compute. reflexivity.
  - apply (proj1 (Hmerge (UnionArray8_64 None ∅ [0] [0] arms)
                    ∅ [0] [0] arms a)).
    + reflexivity.
    + reflexivity.
    + vm_compute. reflexivity.
Defined.

(** ** Flatten legality (C8) *)

Lemma mapM_app_Err {A B} (f : A -> result B) (before after : list A)
    (x : A) (e : error) :
  Forall (fun a => is_ok (f a) = true) before ->
  f x = Err e ->
  mapM f (before ++ x :: after) = Err e.
Proof.
  intros Hbefore Hx. induction before as [|a before IH]; cbn [mapM app].
  - rewrite Hx. reflexivity.
  - inversion Hbefore as [|? ? Ha Hrest]; subst.
    destruct (f a) as [b|]; [|discriminate Ha]. cbn [rbind].
    fold (mapM f). rewrite (IH Hrest). reflexivity.
Qed.

Section Flatten.
Context `{Collaborators}.

(** C8: with [toaxis] the axis after axis_wrap_if_negative,
    offsets_and_flattened of a RecordArray, a UnionArray or an
    UnmaskedArray raises std::invalid_argument when toaxis = depth; of a
    RecordArray it raises std::invalid_argument also when
    toaxis = depth + 1; and at any other axis (so at every axis beyond
    depth + 1) a RecordArray raises std::runtime_error as soon as the
    recursive call on one of its trimmed fields returns offsets that are
    not empty. *)
Theorem C8_flatten_errors (fuel : nat) (self : Content)
    (axis depth toaxis : Z) :
  axis_wrap_if_negative self axis = Ok toaxis ->
  (is_RecordArray self || is_UnionArray self || is_UnmaskedArray self
     = true ->
   toaxis = depth ->
   is_invalid_argument
     (Content_offsets_and_flattened (S fuel) self axis depth) = true) /\
  (is_RecordArray self = true ->
   toaxis = depth + 1 ->
   is_invalid_argument
     (Content_offsets_and_flattened (S fuel) self axis depth) = true) /\
  (forall ids (p : Parameters) before content after recordlookup length_
          trimmed offsets flattened,
     self = RecordArray ids p (before ++ content :: after)
              recordlookup length_ ->
     toaxis <> depth ->
     toaxis <> depth + 1 ->
     Forall (fun c =>
               exists t f,
                 Content_getitem_range c 0 length_ = Ok t /\
                 Content_offsets_and_flattened fuel t axis depth =
                   Ok ([], f)) before ->
     Content_getitem_range content 0 length_ = Ok trimmed ->
     Content_offsets_and_flattened fuel trimmed axis depth =
       Ok (offsets, flattened) ->
     offsets <> [] ->
     is_runtime_error
       (Content_offsets_and_flattened (S fuel) self axis depth) = true).
Proof.
  intros Hwrap. split; [|split].
  - intros Hclass ->.
    destruct self; try discriminate Hclass; cbn [Content_offsets_and_flattened];
      [ unfold UnmaskedArray_offsets_and_flattened
      | unfold RecordArray_offsets_and_flattened
      | unfold UnionArray_offsets_and_flattened ];
      rewrite Hwrap; cbn [rbind]; rewrite Z.eqb_refl; reflexivity.
  - intros Hclass ->.
    destruct self; try discriminate Hclass.
    cbn [Content_offsets_and_flattened].
    unfold RecordArray_offsets_and_flattened.
    rewrite Hwrap. cbn [rbind].
    destruct (Z.eqb_spec (depth + 1) depth); [reflexivity|].
    rewrite Z.eqb_refl. reflexivity.
  - intros ids p before content after recordlookup length_ trimmed offsets
      flattened -> Hne0 Hne1 Hbefore Htrim Hrec Hoffsets.
    cbn [Content_offsets_and_flattened].
    unfold RecordArray_offsets_and_flattened.
    rewrite Hwrap. cbn [rbind].
    destruct (Z.eqb_spec toaxis depth); [contradiction|].
    destruct (Z.eqb_spec toaxis (depth + 1)); [contradiction|].
    erewrite mapM_app_Err; cycle 1.
    + eapply Forall_impl; [exact Hbefore|].
      intros c (t & f & Ht & Hf). cbn beta. rewrite Ht. cbn [rbind].
      rewrite Hf. reflexivity.
    + cbn beta. rewrite Htrim. cbn [rbind]. rewrite Hrec. cbn [rbind].
      destruct offsets; [contradiction|]. reflexivity.
    + reflexivity.
Qed.

End Flatten.

Lemma C8_flatten_errors_witness :
  let x := NumpyArray None ∅ "l" [2] [1; 2] in
  let r := RecordArray None ∅ [x] (Some ["x"]) 2 in
  is_invalid_argument
    (@Content_offsets_and_flattened unexpected_collaborators 2 r 0 0)
    = true /\
  is_invalid_argument
    (@Content_offsets_and_flattened unexpected_collaborators 2 r 1 0)
    = true /\
  is_runtime_error
    (@Content_offsets_and_flattened unexpected_collaborators 2 r 2 0)
    = true.
Proof.
  intros x r.
  split; [|split].
  - apply (proj1 (@C8_flatten_errors unexpected_collaborators 1 r 0 0 0
                    eq_refl)); reflexivity.
  - apply (proj1 (proj2 (@C8_flatten_errors unexpected_collaborators 1 r 1 0 1
                           eq_refl))); reflexivity.
  - apply (proj2 (proj2 (@C8_flatten_errors unexpected_collaborators 1 r 2 0 2
                           eq_refl))
             None ∅ [] x [] (Some ["x"]) 2 x [0; 2] x).
    + reflexivity.
    + lia.
    + lia.
    + constructor.
    + reflexivity.
    + reflexivity.
    + discriminate.
Defined.


(** ** getitem_next of a union (C7) *)

Lemma filter_fmap_S (P : nat -> Prop) `{forall k, Decision (P k)}
    (l : list nat) :
  filter P (S <$> l) = S <$> filter (fun k => P (S k)) l.
Proof.
  induction l as [|a l IH]; [reflexivity|].
  cbn [fmap list_fmap]. rewrite !filter_cons.
  destruct (decide (P (S a))); cbn [fmap list_fmap]; rewrite IH; reflexivity.
Qed.

Lemma positions_where_cons (t : Z) (tags : list Z) (which : Z) :
  positions_where (t :: tags) which =
    (if decide (t = which) then [0%nat] else [])
      ++ (S <$> positions_where tags which).
Proof.
  unfold positions_where. cbn [List.length seq].
  rewrite <- fmap_S_seq, filter_cons, filter_fmap_S.
  cbn [lookup list_lookup].
  destruct (decide (Some t = Some which)) as [Heq|Hne];
    destruct (decide (t = which)) as [Heq'|Hne']; try congruence;
    reflexivity.
Qed.

Lemma index_at_positions_S (x : Z) (index : list Z) (ks : list nat) :
  index_at_positions (x :: index) (S <$> ks) = index_at_positions index ks.
Proof.
  unfold index_at_positions. induction ks as [|k ks IH]; [reflexivity|].
  cbn [fmap list_fmap omap list_omap]. cbn [lookup list_lookup].
  fold (omap (fun k => (x :: index) !! k) (S <$> ks)).
  fold (omap (fun k => index !! k) ks).
  rewrite IH. reflexivity.
Qed.

Lemma project_kernel_positions (tags index : list Z) (which : Z) :
  (List.length tags <= List.length index)%nat ->
  omap (fun '(t, x) => if t =? which then Some x else None) (zip tags index)
  = index_at_positions index (positions_where tags which).
Proof.
  revert index. induction tags as [|t tags IH]; intros index Hlen.
  - reflexivity.
  - destruct index as [|x index]; [simpl in Hlen; lia|].
    simpl in Hlen. rewrite positions_where_cons.
    unfold index_at_positions. rewrite omap_app.
    fold (index_at_positions (x :: index) (S <$> positions_where tags which)).
    rewrite index_at_positions_S, <- IH by lia.
    cbn [zip zip_with omap list_omap].
    destruct (Z.eqb_spec t which) as [->|Hne].
    + rewrite decide_True by reflexivity. reflexivity.
    + rewrite decide_False by assumption. reflexivity.
Qed.

Lemma rank_positions (tags : list Z) (t : Z) (k : nat) :
  (k <= List.length tags)%nat ->
  List.length (filter (fun j => tags !! j = Some t) (seq 0 k)) =
  List.length (filter (fun u => u = t) (take k tags)).
Proof.
  induction k as [|k IH]; intros Hk; [reflexivity|].
  destruct (lookup_lt_is_Some_2 tags k ltac:(lia)) as [u Hu].
  rewrite seq_S, (take_S_r _ _ _ Hu), !filter_app, !length_app, IH by lia.
  f_equal. cbn [Nat.add]. rewrite !filter_cons, !filter_nil, Hu.
  destruct (decide (Some u = Some t)); destruct (decide (u = t));
    try congruence; reflexivity.
Qed.

Lemma regular_index_aligned (tags : list Z) (k : nat) (t : Z) :
  tags !! k = Some t ->
  exists r,
    UnionArray_regular_index tags !! k = Some r /\ 0 <= r /\
    positions_where tags t !! Z.to_nat r = Some k.
Proof.
  intros Hk.
  unfold UnionArray_regular_index, awkward_unionarray_regular_index.
  rewrite list_lookup_imap, Hk. cbn [fmap option_fmap option_map].
  eexists. split; [reflexivity|]. split; [apply vlen_nonneg|].
  unfold vlen. rewrite Nat2Z.id.
  pose proof (lookup_lt_Some _ _ _ Hk) as Hlt.
  rewrite <- rank_positions by lia.
  unfold positions_where.
  replace (List.length tags) with (k + S (List.length tags - S k))%nat by lia.
  rewrite seq_app, filter_app. cbn [seq Nat.add].
  rewrite filter_cons, decide_True by exact Hk.
  apply list_lookup_middle. reflexivity.
Qed.

Lemma mapM_Forall2 {A B} (f : A -> result B) (l : list A) (r : list B) :
  mapM f l = Ok r <-> Forall2 (fun a b => f a = Ok b) l r.
Proof.
  revert r. induction l as [|a l IH]; intros r; cbn [mapM].
  - split.
    + intros Hr. inversion Hr. constructor.
    + intros Hr. inversion Hr. reflexivity.
  - fold (mapM f). split.
    + destruct (f a) as [b|] eqn:Hb; [|discriminate]. cbn [rbind].
      destruct (mapM f l) as [bs|] eqn:Hbs; [|discriminate]. cbn [rbind].
      intros Hr. inversion Hr. constructor; [exact Hb|]. apply IH. reflexivity.
    + intros Hr. inversion Hr as [|? b ? bs Hb Hbs]; subst.
      rewrite Hb. cbn [rbind]. apply IH in Hbs. rewrite Hbs. reflexivity.
Qed.

Lemma UnionArray_project_positions `{Collaborators} (tags_ index_ : list Z)
    (contents_ : list Content) (i : nat) (content : Content) :
  vlen tags_ <= vlen index_ ->
  contents_ !! i = Some content ->
  UnionArray_project tags_ index_ contents_ (Z.of_nat i) =
    Content_carry content
      (index_at_positions index_ (positions_where tags_ (Z.of_nat i))).
Proof.
  intros Hlen Hi. unfold UnionArray_project.
  pose proof (lookup_lt_Some _ _ _ Hi) as Hlt.
  destruct (Z.leb_spec 0 (Z.of_nat i)); [|lia].
  destruct (Z.ltb_spec (Z.of_nat i) (vlen contents_));
    [|unfold vlen in *; lia].
  cbn [andb negb].
  destruct (Z.ltb_spec (vlen index_) (vlen tags_)); [lia|].
  unfold awkward_unionarray_project_64.
  rewrite (take_ge (zip tags_ index_))
    by (rewrite length_zip; unfold vlen; lia).
  rewrite project_kernel_positions by (unfold vlen in Hlen; lia).
  rewrite take_ge by (unfold vlen; lia).
  unfold vec_at. destruct (Z.ltb_spec (Z.of_nat i) 0); [lia|].
  rewrite Nat2Z.id, Hi. reflexivity.
Qed.

Lemma simplify_no_arms `{Collaborators} (fuel : nat) (w : IndexWidth) ids
    (p : Parameters) (tags index : list Z) (r : Content) :
  Content_simplify_uniontype fuel (UnionArray w ids p tags index []) false
    <> Ok r.
Proof.
  cbn [Content_simplify_uniontype].
  unfold UnionArray_simplify_uniontype, simplify_canonical.
  destruct (vlen index <? vlen tags); [discriminate|].
  cbn. discriminate.
Qed.

Section UnionGetitem.
Context `{Collaborators}.

(** C7: for a head that is a SliceAt, SliceRange, SliceArray64 or
    SliceJagged64, getitem_next of a UnionArray returns r exactly when
    r is simplify_uniontype(false) of the union built from the tags of
    the array, the regular index of those tags and, as arm i,
    project(i).getitem_next(head, tail, advanced); project(i) is
    contents[i].carry over the values of index at the rows whose tag is
    i; and the regular index of row k is the rank of k among the rows of
    its tag, so that it addresses, in the projection, the element of
    row k. *)
Theorem C7_union_getitem_next (fuel : nat) (w : IndexWidth)
    (ids : IdentitiesPtr) (p : Parameters) (tags_ index_ : list Z)
    (contents_ : list Content) (item : SliceItem) (tail : Slice)
    (advanced : list Z) :
  addresses_elements item = true ->
  (forall r,
     Content_getitem_next (S fuel)
       (UnionArray w ids p tags_ index_ contents_)
       (Some item) tail advanced = Ok r <->
     exists outcontents,
       Forall2
         (fun (i : nat) (out_i : Content) =>
            exists projection,
              UnionArray_project tags_ index_ contents_ (Z.of_nat i)
                = Ok projection /\
              Content_getitem_next fuel projection (Some item) tail advanced
                = Ok out_i)
         (seq 0 (List.length contents_)) outcontents /\
       Content_simplify_uniontype fuel
         (UnionArray w ids p tags_ (UnionArray_regular_index tags_)
            outcontents)
         false = Ok r) /\
  (forall (i : nat) content,
     vlen tags_ <= vlen index_ ->
     contents_ !! i = Some content ->
     UnionArray_project tags_ index_ contents_ (Z.of_nat i) =
       Content_carry content
         (index_at_positions index_ (positions_where tags_ (Z.of_nat i)))) /\
  (forall (k : nat) t,
     tags_ !! k = Some t ->
     exists rank,
       UnionArray_regular_index tags_ !! k = Some rank /\ 0 <= rank /\
       positions_where tags_ t !! Z.to_nat rank = Some k).
Proof.
  intros Hitem. split; [|split].
  - intros r. cbn [Content_getitem_next]. unfold UnionArray_getitem_next.
    rewrite Hitem.
    set (f := fun i : nat =>
                do projection <-
                  UnionArray_project tags_ index_ contents_ (Z.of_nat i) ;;
                Content_getitem_next fuel projection (Some item) tail
                  advanced).
    assert (Hf : forall outcontents,
               mapM f (seq 0 (List.length contents_)) = Ok outcontents <->
               Forall2
                 (fun (i : nat) (out_i : Content) =>
                    exists projection,
                      UnionArray_project tags_ index_ contents_ (Z.of_nat i)
                        = Ok projection /\
                      Content_getitem_next fuel projection (Some item) tail
                        advanced = Ok out_i)
                 (seq 0 (List.length contents_)) outcontents).
    { intros outcontents. rewrite mapM_Forall2.
      split; intros HF; eapply Forall2_impl; try exact HF;
        intros i out_i; unfold f; cbn beta.
      - destruct (UnionArray_project tags_ index_ contents_ (Z.of_nat i))
          as [projection|]; [|discriminate].
        cbn [rbind]. intros Hout. exists projection. auto.
      - intros (projection & -> & Hout). exact Hout. }
    split.
    + destruct (mapM f (seq 0 (List.length contents_)))
        as [outcontents|] eqn:Hmap; [|discriminate].
      cbn [rbind].
      destruct (UnionArray_new w ids p tags_
                  (UnionArray_regular_index tags_) outcontents)
        as [out|] eqn:Hout; [|discriminate].
      cbn [rbind]. apply UnionArray_new_inv in Hout. subst out.
      intros Hr. exists outcontents. split; [|exact Hr].
      apply Hf. reflexivity.
    + intros (outcontents & HF & Hr).
      apply Hf in HF. rewrite HF. cbn [rbind].
      rewrite UnionArray_new_ok; [exact Hr | |].
      * intros ->. exact (simplify_no_arms _ _ _ _ _ _ _ Hr).
      * unfold UnionArray_regular_index, awkward_unionarray_regular_index,
          vlen. rewrite length_imap. lia.
  - intros i content. apply UnionArray_project_positions.
  - intros k t. apply regular_index_aligned.
Qed.

End UnionGetitem.

Lemma C7_union_getitem_next_witness :
  let a := ListOffsetArray I64 None ∅ [0; 2; 3]
             (NumpyArray None ∅ "l" [3] [1; 2; 3]) in
  let b := ListOffsetArray I64 None ∅ [0; 1]
             (NumpyArray None ∅ "l" [1] [99]) in
  let head := SliceAt 0 in
  exists outcontents,
    Forall2
      (fun (i : nat) (out_i : Content) =>
         exists projection,
           @UnionArray_project leaf_collaborators [0; 1; 0] [0; 0; 1] [a; b]
             (Z.of_nat i) = Ok projection /\
           @Content_getitem_next leaf_collaborators 2 projection (Some head)
             [] [] = Ok out_i)
      [0%nat; 1%nat] outcontents /\
    @Content_simplify_uniontype leaf_collaborators 2
      (UnionArray8_64 None ∅ [0; 1; 0] [0; 0; 1] outcontents) false
    = Ok (NumpyArray None ∅ "l" [3] [1; 99; 3]).
Proof.
  intros a b head.
  apply (proj1 (@C7_union_getitem_next leaf_collaborators 2 I64 None ∅
                  [0; 1; 0] [0; 0; 1] [a; b] head [] [] eq_refl)).
  vm_compute. reflexivity.
Defined.

(** ** Union-type simplification (C1) *)

Lemma foldM_invariant {A S} (f : S -> A -> result S) (P : S -> Prop)
    (l : list A) (s s' : S) :
  (forall s a s', P s -> f s a = Ok s' -> P s') ->
  P s -> foldM f l s = Ok s' -> P s'.
Proof.
  intros Hstep. revert s. induction l as [|a l IH]; intros s Hs; cbn [foldM].
  - intros Hr. inversion Hr. subst. exact Hs.
  - fold (foldM f). destruct (f s a) as [s1|] eqn:Hf; [|discriminate].
    cbn [rbind]. apply IH. eapply Hstep; eassumption.
Qed.

Lemma simplify_step_lengths
    (mergeable : Content -> Content -> result bool)
    (merge : Content -> Content -> result Content)
    (fill : list Z -> list Z -> Z -> Z -> list Z * list Z)
    (n : nat) (st st' : list Z * list Z * list Content) (x : Content) :
  (forall t i towhich base,
     List.length (fill t i towhich base).1 = List.length t /\
     List.length (fill t i towhich base).2 = List.length i) ->
  List.length st.1.1 = n /\ List.length st.1.2 = n ->
  simplify_step mergeable merge fill st x = Ok st' ->
  List.length st'.1.1 = n /\ List.length st'.1.2 = n.
Proof.
  intros Hfill [Ht Hi]. destruct st as [[tags index] contents].
  cbn [fst snd] in Ht, Hi. unfold simplify_step.
  destruct (find_mergeable mergeable x contents 0) as [[[k ck]|]|];
    cbn [rbind]; [| |discriminate].
  - destruct (fill tags index (Z.of_nat k) (Content_length ck))
      as [tags1 index1] eqn:Hf.
    destruct (merge ck x) as [merged|]; [|discriminate]. cbn [rbind].
    intros Hr. inversion Hr. subst st'. cbn [fst snd].
    pose proof (Hfill tags index (Z.of_nat k) (Content_length ck)) as Hl.
    rewrite Hf in Hl. cbn [fst snd] in Hl. lia.
  - destruct (fill tags index (vlen contents) 0) as [tags1 index1] eqn:Hf.
    intros Hr. inversion Hr. subst st'. cbn [fst snd].
    pose proof (Hfill tags index (vlen contents) 0) as Hl.
    rewrite Hf in Hl. cbn [fst snd] in Hl. lia.
Qed.

Section Simplify.
Context `{Collaborators}.

Lemma simplify_canonical_lengths (fuel : nat) (tags_ index_ : list Z)
    (contents_ : list Content) (mergebool : bool)
    (tags index : list Z) (contents : list Content) :
  simplify_canonical fuel tags_ index_ contents_ mergebool =
    Ok (tags, index, contents) ->
  vlen tags = vlen tags_ /\ vlen index = vlen tags_.
Proof.
  unfold simplify_canonical.
  destruct (vlen index_ <? vlen tags_); [discriminate|].
  intros Hfold.
  enough (List.length (tags, index, contents).1.1 = List.length tags_ /\
          List.length (tags, index, contents).1.2 = List.length tags_) as Hl
    by (cbn [fst snd] in Hl; unfold vlen; lia).
  eapply (foldM_invariant _
            (fun st => List.length st.1.1 = List.length tags_ /\
                       List.length st.1.2 = List.length tags_));
    [| |exact Hfold].
  - intros st [i content] st' Hst. unfold simplify_arm.
    destruct content;
      try (apply simplify_step_lengths; [|exact Hst];
           intros; unfold awkward_unionarray_simplify_one_to8_64;
           cbn [fst snd]; rewrite !length_imap; auto).
    intros Hinner.
    eapply (foldM_invariant _
              (fun st => List.length st.1.1 = List.length tags_ /\
                         List.length st.1.2 = List.length tags_));
      [|exact Hst|exact Hinner].
    intros st1 [j inner] st2 Hst1.
    apply simplify_step_lengths; [|exact Hst1].
    intros; unfold awkward_unionarray_simplify8_to8_64;
      cbn [fst snd]; rewrite !length_imap; auto.
  - cbn [fst snd]. unfold new_Index, vlen.
    rewrite length_replicate. lia.
Qed.

Lemma Content_carry_class (c0 : Content) (carry : list Z) (r : Content) :
  Content_carry c0 carry = Ok r ->
  (is_RecordArray c0 = true -> is_RecordArray r = true) /\
  (is_UnmaskedArray c0 = true -> is_UnmaskedArray r = true) /\
  (is_UnionArray c0 = true -> is_UnionArray r = true).
Proof.
  intros Hr.
  destruct c0; (split; [|split]); intros Hc; try discriminate Hc;
    cbn [Content_carry] in Hr.
  - destruct (Content_carry c0 carry); [|discriminate].
    cbn [rbind] in Hr. inversion Hr. reflexivity.
  - destruct (mapM _ contents) as [cs|]; [|discriminate].
    cbn [rbind] in Hr. unfold RecordArray_new in Hr.
    destruct recordlookup as [keys|];
      [destruct (negb (vlen keys =? vlen cs)); [discriminate|]|];
      inversion Hr; reflexivity.
  - destruct (vlen index <? vlen tags); [discriminate|].
    destruct (awkward_index_carry_64 tags carry); [|discriminate].
    cbn [rbind] in Hr. apply UnionArray_new_inv in Hr. subst r. reflexivity.
Qed.

(** C1 (as amended): once the loop of simplify_uniontype has produced the
    canonical tags, index and contents, both buffers are as long as the
    tags of the array; with exactly one canonical arm the result is
    canonical[0].carry(index), which is a RecordArray, an UnmaskedArray or
    a UnionArray when canonical[0] is one; with 2 to 127 canonical arms
    the result is the UnionArray8_64 over the canonical tags, index and
    contents, with the identities and parameters of the array. *)
Theorem C1_simplify_uniontype_result (fuel : nat) (ids : IdentitiesPtr)
    (p : Parameters) (tags_ index_ : list Z) (contents_ : list Content)
    (mergebool : bool) (tags index : list Z) (contents : list Content) :
  simplify_canonical fuel tags_ index_ contents_ mergebool =
    Ok (tags, index, contents) ->
  vlen tags = vlen tags_ /\ vlen index = vlen tags_ /\
  (forall c0,
     contents = [c0] ->
     UnionArray_simplify_uniontype fuel ids p tags_ index_ contents_ mergebool
       = Content_carry c0 index /\
     (forall r,
        Content_carry c0 index = Ok r ->
        (is_RecordArray c0 = true -> is_RecordArray r = true) /\
        (is_UnmaskedArray c0 = true -> is_UnmaskedArray r = true) /\
        (is_UnionArray c0 = true -> is_UnionArray r = true))) /\
  (2 <= vlen contents <= 127 ->
   UnionArray_simplify_uniontype fuel ids p tags_ index_ contents_ mergebool
     = Ok (UnionArray8_64 ids p tags index contents)).
Proof.
  intros Hcanon.
  destruct (simplify_canonical_lengths _ _ _ _ _ _ _ _ Hcanon) as [Ht Hi].
  split; [exact Ht|]. split; [exact Hi|].
  unfold UnionArray_simplify_uniontype. rewrite Hcanon. cbn [rbind].
  unfold kMaxInt8. split.
  - intros c0 ->. split; [reflexivity|].
    intros r Hr. apply (Content_carry_class c0 index r Hr).
  - intros Hcount.
    destruct (Z.gtb_spec (vlen contents) 127); [lia|].
    destruct contents as [|c0 [|c1 rest]];
      [unfold vlen in Hcount; cbn [List.length] in Hcount; lia
      |unfold vlen in Hcount; cbn [List.length] in Hcount; lia|].
    apply UnionArray_new_ok; [discriminate | lia].
Qed.

End Simplify.

Lemma C1_simplify_uniontype_witness :
  let a := NumpyArray None ∅ "l" [2] [1; 3] in
  let b := NumpyArray None ∅ "l" [1] [99] in
  let c := NumpyArray None ∅ "?" [1] [1] in
  @UnionArray_simplify_uniontype leaf_collaborators 2 None ∅
     [0; 1; 0] [0; 0; 1] [a; b] false
    = @Content_carry leaf_collaborators
        (NumpyArray None ∅ "l" [3] [1; 3; 99]) [0; 2; 1] /\
  @UnionArray_simplify_uniontype leaf_collaborators 2 None ∅
     [0; 1; 0] [0; 0; 1] [a; c] false
    = Ok (UnionArray8_64 None ∅ [0; 1; 0] [0; 0; 1] [a; c]).
Proof.
  intros a b c. split.
  - apply (@C1_simplify_uniontype_result leaf_collaborators 2 None ∅
             [0; 1; 0] [0; 0; 1] [a; b] false
             [0; 0; 0] [0; 2; 1] [NumpyArray None ∅ "l" [3] [1; 3; 99]]
             eq_refl).
    reflexivity.
  - apply (@C1_simplify_uniontype_result leaf_collaborators 2 None ∅
             [0; 1; 0] [0; 0; 1] [a; c] false
             [0; 1; 0] [0; 0; 1] [a; c] eq_refl).
    vm_compute. split; discriminate.
Defined.

(** The claim C1 as stated fails: a union whose only arm is a union whose
    only arm is again a union keeps one canonical arm, the innermost
    union, and simplify_uniontype returns its carry, which is a union. *)
Lemma C1_single_arm_can_be_union :
  let a := NumpyArray None ∅ "d" [1] [15] in
  let b := NumpyArray None ∅ "?" [1] [1] in
  let innermost := UnionArray8_64 None ∅ [0; 1] [0; 0] [a; b] in
  let inner := UnionArray8_64 None ∅ [0; 0] [0; 1] [innermost] in
  @simplify_canonical leaf_collaborators 2 [0; 0] [0; 1] [inner] false
    = Ok ([0; 0], [0; 1], [innermost]) /\
  @UnionArray_simplify_uniontype leaf_collaborators 2 None ∅
     [0; 0] [0; 1] [inner] false
    = Ok (UnionArray8_64 None ∅ [0; 1] [0; 0] [a; b]) /\
  is_UnionArray (UnionArray8_64 None ∅ [0; 1] [0; 0] [a; b]) = true.
Proof.
  intros a b innermost inner. repeat split; vm_compute; reflexivity.
Qed.

(** ** Merging an EmptyArray (C2) *)

Section MergeEmpty.
Context `{Collaborators}.

Lemma two_arm_union_getitem_at (self other : Content) (n i : Z) :
  0 <= i < Content_length self ->
  Content_length self = n ->
  Content_getitem_at_nowrap
    (UnionArray8_64 None ∅
       (replicate (Z.to_nat n) 0 ++ replicate (Z.to_nat (Content_length other)) 1)
       (seqZ 0 n ++ seqZ 0 (Content_length other))
       [self; other]) i
  = Content_getitem_at_nowrap self i.
Proof.
  intros Hi Hn. cbn [Content_getitem_at_nowrap].
  rewrite !vec_at_app_l
    by (rewrite ?vlen_replicate, ?vlen_seqZ; lia).
  rewrite lookup_replicate_2 by lia.
  rewrite lookup_seqZ_lt by lia.
  cbn [Z.ltb Z.compare Z.to_nat]. rewrite Z.add_0_l, Z2Nat.id by lia.
  destruct (Z.leb_spec 0 i); [|lia].
  destruct (Z.ltb_spec i (Content_length self)); [|lia].
  reflexivity.
Qed.

(** C2: for a RecordArray or a UnionArray c of non-negative length and an
    EmptyArray e, c.merge(e) returns a node of the length of c whose
    element at every position is the element of c at that position (c
    itself when the parameters agree, the two-arm union over c and e when
    they do not). *)
Theorem C2_merge_empty_pointwise (fuel : nat) (c : Content)
    (ids : IdentitiesPtr) (p : Parameters) :
  is_RecordArray c || is_UnionArray c = true ->
  0 <= Content_length c ->
  exists r,
    Content_merge (S fuel) c (EmptyArray ids p) = Ok r /\
    Content_length r = Content_length c /\
    (forall i, 0 <= i < Content_length c ->
       Content_getitem_at_nowrap r i = Content_getitem_at_nowrap c i).
Proof.
  intros Hclass Hlen.
  destruct (decide (Content_parameters c = p)) as [Heq|Hne].
  - exists c. split; [|split; [reflexivity | reflexivity]].
    destruct c; try discriminate Hclass; cbn [Content_merge];
      [unfold RecordArray_merge | unfold UnionArray_merge];
      cbn [Content_parameters] in *;
      rewrite (parameters_equal_true _ _ Heq); reflexivity.
  - rewrite (Content_merge_parameters_differ fuel c (EmptyArray ids p))
      by assumption.
    rewrite Content_merge_as_union_closed by (cbn [Content_length]; lia).
    eexists. split; [reflexivity|]. split.
    + cbn [Content_length]. rewrite vlen_app, !vlen_replicate by lia. lia.
    + intros i Hi. apply two_arm_union_getitem_at; [exact Hi | reflexivity].
Qed.

End MergeEmpty.

Lemma C2_merge_empty_pointwise_witness :
  let a := NumpyArray None ∅ "d" [2] [15; 25] in
  let c := RecordArray None {["__record__" := "point"]} [a] (Some ["x"]) 2 in
  exists r,
    @Content_merge leaf_collaborators 1 c (EmptyArray None ∅) = Ok r /\
    Content_length r = 2 /\
    @Content_getitem_at_nowrap leaf_collaborators r 1 = Ok (Record c 1).
Proof.
  intros a c.
  destruct (@C2_merge_empty_pointwise leaf_collaborators 0 c None ∅)
    as (r & Hr & Hlen & Hat).
  - reflexivity.
  - simpl. lia.
  - exists r. split; [exact Hr|]. split; [exact Hlen|].
    rewrite Hat by (simpl; lia). reflexivity.
Defined.

(** ** The length of a merge (C3) *)

Lemma length_std_sort_insert (x : string) (l : list string) :
  List.length (std_sort_insert x l) = S (List.length l).
Proof.
  induction l as [|y ys IH]; [reflexivity|].
  cbn [std_sort_insert]. destruct (String.leb x y); cbn [List.length].
  - reflexivity.
  - fold (std_sort_insert x ys). rewrite IH. reflexivity.
Qed.

Lemma length_std_sort (l : list string) :
  List.length (std_sort l) = List.length l.
Proof.
  induction l as [|x l IH]; [reflexivity|].
  cbn [std_sort fold_right]. fold (std_sort l).
  rewrite length_std_sort_insert, IH. reflexivity.
Qed.

Lemma minlength_all_equal (cs : list Content) (n : Z) :
  cs <> [] -> 0 <= n ->
  Forall (fun c => Content_length c = n) cs ->
  minlength cs = n.
Proof.
  intros Hne Hn Hall. destruct cs as [|x l]; [congruence|].
  destruct (minlength_is_minimum x l) as [_ Hex].
  - eapply Forall_impl; [exact Hall|]. cbn beta. intros c ->. exact Hn.
  - apply Exists_exists in Hex as (c & Hc & Hmin).
    rewrite Forall_forall in Hall. rewrite Hmin. apply Hall. exact Hc.
Qed.

Lemma RecordArray_new_inv ids (p : Parameters) (contents : list Content)
    (recordlookup : option (list string)) (n : Z) (r : Content) :
  RecordArray_new ids p contents recordlookup n = Ok r ->
  r = RecordArray ids p contents recordlookup n /\
  match recordlookup with
  | Some keys => vlen keys = vlen contents
  | None => True
  end.
Proof.
  unfold RecordArray_new. destruct recordlookup as [keys|].
  - destruct (Z.eqb_spec (vlen keys) (vlen contents)); [|discriminate].
    intros Hr. inversion Hr. auto.
  - intros Hr. inversion Hr. auto.
Qed.

Lemma well_formed_nonneg (c : Content) :
  well_formed c = true -> 0 <= Content_length c.
Proof.
  destruct c; cbn [well_formed]; intros Hwf;
    apply andb_prop in Hwf as [Hlen _]; apply Z.leb_le in Hlen; exact Hlen.
Qed.

Lemma well_formed_record ids (p : Parameters) (contents : list Content)
    (recordlookup : option (list string)) (length_ : Z) :
  well_formed (RecordArray ids p contents recordlookup length_) = true <->
  0 <= length_ /\
  match recordlookup with
  | Some keys => vlen keys = vlen contents
  | None => True
  end /\
  (forall x, x ∈ contents ->
     length_ <= Content_length x /\ well_formed x = true).
Proof.
  cbn [well_formed Content_length].
  rewrite !andb_true_iff, Z.leb_le, forallb_forall.
  split.
  - intros [Hlen [Hkeys Hall]]. split; [exact Hlen|]. split.
    + destruct recordlookup; [apply Z.eqb_eq; exact Hkeys | exact I].
    + intros x Hx. apply list_elem_of_In in Hx. specialize (Hall x Hx).
      apply andb_prop in Hall as [Hle Hwf]. apply Z.leb_le in Hle. auto.
  - intros [Hlen [Hkeys Hall]]. split; [exact Hlen|]. split.
    + destruct recordlookup; [apply Z.eqb_eq; exact Hkeys | reflexivity].
    + intros x Hx. apply list_elem_of_In in Hx.
      destruct (Hall x Hx) as [Hle Hwf].
      apply andb_true_intro. split; [apply Z.leb_le; exact Hle | exact Hwf].
Qed.

Lemma Content_size_elem (x : Content) (contents : list Content) :
  x ∈ contents ->
  (Content_size x <= list_sum (List.map Content_size contents))%nat.
Proof.
  induction 1 as [x l | x y l _ IH]; simpl; lia.
Qed.

Lemma mapM_length {A B} (f : A -> result B) (l : list A) (r : list B) :
  mapM f l = Ok r -> List.length r = List.length l.
Proof.
  intros Hr. apply mapM_Forall2 in Hr.
  symmetry. eapply Forall2_length. exact Hr.
Qed.

Lemma mapM_elem {A B} (f : A -> result B) (l : list A) (r : list B) (b : B) :
  mapM f l = Ok r -> b ∈ r -> exists a, a ∈ l /\ f a = Ok b.
Proof.
  intros Hr Hb. apply mapM_Forall2 in Hr.
  apply list_elem_of_lookup in Hb as [i Hi].
  destruct (Forall2_lookup_r _ _ _ _ _ Hr Hi) as (a & Ha & Hf).
  exists a. split; [eapply list_elem_of_lookup_2; exact Ha | exact Hf].
Qed.

Lemma vec_at_elem {A} (l : list A) (i : Z) (x : A) :
  vec_at l i = Some x -> x ∈ l.
Proof.
  intros Hx. apply vec_at_lookup in Hx as [_ Hx].
  eapply list_elem_of_lookup_2. exact Hx.
Qed.

Lemma RecordArray_field_elem (contents_ : list Content) (i : Z) (f : Content) :
  RecordArray_field contents_ i = Ok f -> f ∈ contents_.
Proof.
  unfold RecordArray_field. destruct (i >=? vlen contents_); [discriminate|].
  destruct (vec_at contents_ i) as [c|] eqn:Hc; [|discriminate].
  intros Hf. inversion Hf. subst. eapply vec_at_elem. exact Hc.
Qed.

Lemma RecordArray_field_key_elem `{Collaborators} (contents_ : list Content)
    (recordlookup_ : option (list string)) (key : string) (f : Content) :
  RecordArray_field_key contents_ recordlookup_ key = Ok f -> f ∈ contents_.
Proof.
  unfold RecordArray_field_key.
  destruct (util_fieldindex recordlookup_ key (vlen contents_)) as [i|];
    [|discriminate].
  cbn [rbind]. destruct (vec_at contents_ i) as [c|] eqn:Hc; [|discriminate].
  intros Hf. inversion Hf. subst. eapply vec_at_elem. exact Hc.
Qed.

Lemma vlen_store (buf : list Z) (offset : Z) (vals : list Z) :
  vlen (store buf offset vals) = vlen buf.
Proof. unfold vlen. rewrite length_store. reflexivity. Qed.

Lemma vlen_new_Index (n : Z) : 0 <= n -> vlen (new_Index n) = n.
Proof. intros. unfold new_Index. apply vlen_replicate. assumption. Qed.

Lemma UnionArray_reverse_merge_length (tags_ index_ : list Z)
    (contents_ : list Content) (other r : Content) :
  0 <= Content_length other ->
  UnionArray_reverse_merge tags_ index_ contents_ other = Ok r ->
  Content_length r = Content_length other + vlen tags_.
Proof.
  intros Hother. unfold UnionArray_reverse_merge.
  destruct (vlen (other :: contents_) >? kMaxInt8); [discriminate|].
  intros Hr. apply UnionArray_new_inv in Hr. subst r.
  cbn [Content_length].
  unfold awkward_unionarray_filltags_to8_from8,
    awkward_unionarray_filltags_to8_const.
  rewrite !vlen_store, vlen_new_Index; [reflexivity|].
  pose proof (vlen_nonneg tags_). lia.
Qed.

Lemma UnionArray_merge_length (self : Content) (p : Parameters)
    (tags_ index_ : list Z) (contents_ : list Content) (other r : Content) :
  Content_length self = vlen tags_ ->
  0 <= Content_length other ->
  UnionArray_merge self p tags_ index_ contents_ other = Ok r ->
  Content_length r = vlen tags_ + Content_length other.
Proof.
  intros Hself Hother. pose proof (vlen_nonneg tags_) as Hmy.
  unfold UnionArray_merge.
  destruct (parameters_equal p (Content_parameters other)); cbn [negb].
  - destruct (is_EmptyArray other) eqn:He.
    + intros Hr. inversion Hr. subst r.
      destruct other; try discriminate He. cbn [Content_length]. lia.
    + assert (Hlen :
        forall tags index contents,
          vlen tags = vlen tags_ + Content_length other ->
          (if vlen contents >? kMaxInt8
           then Err (RuntimeError
                       "FIXME: handle UnionArray with more than 127 contents")
           else UnionArray_new I64 None ∅ tags index contents) = Ok r ->
          Content_length r = vlen tags_ + Content_length other).
      { intros tags index contents Ht.
        destruct (vlen contents >? kMaxInt8); [discriminate|].
        intros Hr. apply UnionArray_new_inv in Hr. subst r. exact Ht. }
      unfold awkward_unionarray_filltags_to8_from8,
        awkward_unionarray_filltags_to8_const.
      destruct other; apply Hlen;
        rewrite !vlen_store, vlen_new_Index by lia; reflexivity.
  - rewrite Content_merge_as_union_closed by lia.
    intros Hr. inversion Hr. subst r. cbn [Content_length].
    rewrite vlen_app, !vlen_replicate by lia. lia.
Qed.

Lemma Content_merge_as_union_length (self other r : Content) :
  0 <= Content_length self -> 0 <= Content_length other ->
  Content_merge_as_union self other = Ok r ->
  Content_length r = Content_length self + Content_length other.
Proof.
  intros Hself Hother. rewrite Content_merge_as_union_closed by lia.
  intros Hr. inversion Hr. subst r. cbn [Content_length].
  rewrite vlen_app, !vlen_replicate by lia. reflexivity.
Qed.

Section MergeLength.
Context `{Collaborators}.

(** What the merge of a RecordArray, a UnionArray or an UnmaskedArray
    relies on in its collaborators: their merges add the lengths, and their
    window [0, n) of a well-formed node is well-formed and has n rows. *)
Hypothesis foreign_merge_length :
  forall a b r,
    well_formed a = true -> well_formed b = true ->
    foreign_merge a b = Ok r ->
    Content_length r = Content_length a + Content_length b.

Hypothesis foreign_reverse_merge_length :
  forall self other r,
    well_formed self = true -> well_formed other = true ->
    foreign_reverse_merge self other = Ok r ->
    Content_length r = Content_length other + Content_length self.

Hypothesis foreign_getitem_range_nowrap_length :
  forall c n r,
    well_formed c = true -> 0 <= n <= Content_length c ->
    foreign_getitem_range_nowrap c 0 n = Ok r ->
    Content_length r = n /\ well_formed r = true.

Lemma Content_getitem_range_nowrap_length (c : Content) (n : Z) (r : Content) :
  well_formed c = true -> 0 <= n <= Content_length c ->
  Content_getitem_range_nowrap c 0 n = Ok r ->
  Content_length r = n /\ well_formed r = true.
Proof.
  remember (Content_size c) as size eqn:Hsize.
  revert c n r Hsize.
  induction size as [size IH] using lt_wf_ind.
  intros c n r Hsize Hwf Hn Hr.
  destruct c; cbn [Content_getitem_range_nowrap] in Hr;
    try (eapply foreign_getitem_range_nowrap_length; eassumption).
  - (* UnmaskedArray *)
    destruct (Content_getitem_range_nowrap c 0 n) as [next|] eqn:Hnext;
      [|discriminate].
    cbn [rbind] in Hr. inversion Hr. subst r.
    cbn [well_formed Content_length] in *.
    apply andb_prop in Hwf as [_ Hwf].
    destruct (IH (Content_size c) ltac:(subst size; cbn [Content_size]; lia)
                c n next eq_refl Hwf Hn Hnext) as [Hlen Hwf'].
    rewrite Hlen, Hwf'. split; [reflexivity|].
    apply andb_true_intro. split; [apply Z.leb_le; lia | reflexivity].
  - (* RecordArray *)
    apply well_formed_record in Hwf as (Hlen & _ & Hfields).
    cbn [Content_length] in Hn.
    assert (Hresult :
      forall cs,
        (forall x', x' ∈ cs -> n <= Content_length x' /\ well_formed x' = true) ->
        RecordArray_new identities parameters cs recordlookup (n - 0) = Ok r ->
        Content_length r = n /\ well_formed r = true).
    { intros cs Hcs Hnew. apply RecordArray_new_inv in Hnew as [-> Hkeys].
      split; [cbn [Content_length]; lia|].
      apply well_formed_record. split; [lia|]. split; [exact Hkeys|].
      intros x' Hx'. destruct (Hcs x' Hx'). split; [lia | assumption]. }
    destruct contents as [|c0 contents'].
    + apply (Hresult []); [|exact Hr]. intros x' Hx'. inversion Hx'.
    + destruct (mapM _ (c0 :: contents')) as [cs|] eqn:Hmap; [|discriminate].
      cbn [rbind] in Hr. apply (Hresult cs); [|exact Hr].
      intros x' Hx'.
      destruct (mapM_elem _ _ _ _ Hmap Hx') as (x & Hx & Hrange).
      cbn beta in Hrange.
      destruct (Hfields x Hx) as [Hxlen Hxwf].
      pose proof (Content_size_elem x _ Hx) as Hxsize.
      destruct (IH (Content_size x)
                  ltac:(subst size; cbn [Content_size]; lia)
                  x n x' eq_refl Hxwf ltac:(lia) Hrange) as [Hl Hw].
      split; [lia | exact Hw].
  - (* UnionArray *)
    apply UnionArray_new_inv in Hr. subst r.
    cbn [Content_length well_formed] in *.
    assert (Hlen : vlen (Index_getitem_range_nowrap tags 0 n) = n).
    { unfold Index_getitem_range_nowrap, vlen in *.
      rewrite length_take, length_drop. lia. }
    rewrite Hlen. split; [reflexivity|].
    apply andb_true_intro. split; [apply Z.leb_le; lia | reflexivity].
Qed.

Lemma merge_fields_length {X} (rec : Content -> Content -> result Content)
    (field_mine field_theirs : X -> result Content)
    (contents_ other_contents : list Content) (mylength theirlength : Z)
    (args : list X) (cs : list Content) :
  (forall a b r,
     well_formed a = true -> well_formed b = true -> rec a b = Ok r ->
     Content_length r = Content_length a + Content_length b) ->
  (forall x f, field_mine x = Ok f -> f ∈ contents_) ->
  (forall x g, field_theirs x = Ok g -> g ∈ other_contents) ->
  (forall f, f ∈ contents_ ->
     mylength <= Content_length f /\ well_formed f = true) ->
  (forall g, g ∈ other_contents ->
     theirlength <= Content_length g /\ well_formed g = true) ->
  0 <= mylength -> 0 <= theirlength ->
  mapM (fun x =>
          do f <- field_mine x ;;
          do mine <- Content_getitem_range_nowrap f 0 mylength ;;
          do g <- field_theirs x ;;
          do theirs <- Content_getitem_range_nowrap g 0 theirlength ;;
          rec mine theirs) args = Ok cs ->
  Forall (fun c => Content_length c = mylength + theirlength) cs.
Proof.
  intros Hrec Hmine Htheirs Hwf1 Hwf2 Hmy Htheir Hmap.
  apply Forall_forall. intros c Hc.
  destruct (mapM_elem _ _ _ _ Hmap Hc) as (x & _ & Hx). cbn beta in Hx.
  destruct (field_mine x) as [f|] eqn:Hf; [|discriminate].
  cbn [rbind] in Hx.
  destruct (Content_getitem_range_nowrap f 0 mylength) as [mine|] eqn:Hm;
    [|discriminate].
  cbn [rbind] in Hx.
  destruct (field_theirs x) as [g|] eqn:Hg; [|discriminate].
  cbn [rbind] in Hx.
  destruct (Content_getitem_range_nowrap g 0 theirlength) as [theirs|] eqn:Ht;
    [|discriminate].
  cbn [rbind] in Hx.
  destruct (Hwf1 f (Hmine x f Hf)) as [Hfl Hfw].
  destruct (Hwf2 g (Htheirs x g Hg)) as [Hgl Hgw].
  destruct (Content_getitem_range_nowrap_length f mylength mine Hfw
              ltac:(lia) Hm) as [Hml Hmw].
  destruct (Content_getitem_range_nowrap_length g theirlength theirs Hgw
              ltac:(lia) Ht) as [Htl Htw].
  rewrite (Hrec mine theirs c Hmw Htw Hx). lia.
Qed.

Lemma Content_reverse_merge_length (self other r : Content) :
  well_formed self = true -> well_formed other = true ->
  Content_reverse_merge self other = Ok r ->
  Content_length r = Content_length other + Content_length self.
Proof.
  intros Hself Hother.
  pose proof (well_formed_nonneg _ Hself) as Hs.
  pose proof (well_formed_nonneg _ Hother) as Ho.
  destruct self; cbn [Content_reverse_merge];
    try (apply foreign_reverse_merge_length; assumption).
  - unfold UnmaskedArray_reverse_merge, UnmaskedArray_toIndexedOptionArray64.
    intros Hr.
    apply foreign_reverse_merge_length in Hr; [| |exact Hother].
    + rewrite Hr. cbn [Content_length] in *.
      unfold awkward_carry_arange_64. rewrite vlen_seqZ by lia. reflexivity.
    + cbn [well_formed Content_length].
      unfold awkward_carry_arange_64.
      cbn [Content_length] in Hs. rewrite vlen_seqZ by lia.
      apply andb_true_intro. split; [apply Z.leb_le; lia | reflexivity].
  - intros Hr. cbn [Content_length].
    apply (UnionArray_reverse_merge_length _ _ _ _ _ Ho Hr).
Qed.

(** C3: for well-formed c1 and c2 and collaborators that keep the same
    law, a merge that succeeds has length len(c1) + len(c2). *)
Theorem C3_merge_length (fuel : nat) (c1 c2 r : Content) :
  well_formed c1 = true -> well_formed c2 = true ->
  Content_merge fuel c1 c2 = Ok r ->
  Content_length r = Content_length c1 + Content_length c2.
Proof.
  revert c1 c2 r. induction fuel as [|fuel IH]; intros c1 c2 r Hwf1 Hwf2;
    [discriminate|].
  pose proof (well_formed_nonneg _ Hwf1) as Hlen1.
  pose proof (well_formed_nonneg _ Hwf2) as Hlen2.
  destruct c1; cbn [Content_merge];
    try (apply foreign_merge_length; assumption).
  - (* UnmaskedArray *)
    unfold UnmaskedArray_merge, UnmaskedArray_toIndexedOptionArray64.
    intros Hr. cbn [Content_length] in *.
    apply IH in Hr; [| |exact Hwf2].
    + rewrite Hr. cbn [Content_length].
      unfold awkward_carry_arange_64. rewrite vlen_seqZ by lia. reflexivity.
    + cbn [well_formed Content_length].
      unfold awkward_carry_arange_64. rewrite vlen_seqZ by lia.
      apply andb_true_intro. split; [apply Z.leb_le; lia | reflexivity].
  - (* RecordArray *)
    unfold RecordArray_merge.
    destruct (parameters_equal parameters (Content_parameters c2));
      cbn [negb];
      [|apply Content_merge_as_union_length; assumption].
    destruct c2;
      try discriminate;
      try (apply Content_reverse_merge_length; assumption).
    + (* EmptyArray *)
      intros Hr. inversion Hr. cbn [Content_length]. lia.
    + (* RecordArray *)
      rename identities0 into other_ids, parameters0 into other_parameters,
        contents0 into other_contents, recordlookup0 into other_lookup,
        length0 into other_length.
      cbn [Content_length] in *.
      apply well_formed_record in Hwf1 as (_ & Hkeys1 & Hfields1).
      apply well_formed_record in Hwf2 as (_ & Hkeys2 & Hfields2).
      destruct (eqb (negb (bool_decide (is_Some recordlookup)))
                    (negb (bool_decide (is_Some other_lookup)))
                && (vlen contents =? 0) && (vlen other_contents =? 0))
        eqn:Hnone.
      { intros Hr. apply RecordArray_new_inv in Hr as [-> _]. reflexivity. }
      assert (Hfinish :
        forall cs,
          cs <> [] ->
          Forall (fun c => Content_length c = length + other_length) cs ->
          RecordArray_new4 None ∅ cs recordlookup = Ok r ->
          Content_length r = length + other_length).
      { intros cs Hne Hall Hnew. unfold RecordArray_new4 in Hnew.
        apply RecordArray_new_inv in Hnew as [-> _]. cbn [Content_length].
        apply minlength_all_equal; [exact Hne | lia | exact Hall]. }
      destruct recordlookup as [keys|]; destruct other_lookup as [other_keys|];
        cbn [is_Some bool_decide negb andb eqb] in *;
        rewrite ?bool_decide_eq_true_2, ?bool_decide_eq_false_2 in *
          by (try (eexists; reflexivity); intros [? ?]; discriminate);
        cbn [negb andb eqb] in *; try discriminate.
      * (* both named *)
        destruct (bool_decide (std_sort (RecordArray_keys contents (Some keys))
                               = std_sort (RecordArray_keys other_contents
                                             (Some other_keys)))) eqn:Hsorted;
          [|discriminate].
        apply bool_decide_eq_true_1 in Hsorted.
        apply (f_equal (@List.length string)) in Hsorted.
        rewrite !length_std_sort in Hsorted.
        unfold RecordArray_keys, util_keys in Hsorted.
        destruct (RecordArray_merge_keys _ _ _ _ _ _ _) as [cs|] eqn:Hcs;
          [|discriminate].
        cbn [rbind]. apply Hfinish.
        -- intros ->. apply mapM_length in Hcs.
           unfold RecordArray_keys, util_keys in Hcs. cbn [List.length] in Hcs.
           unfold vlen in *.
           destruct (Z.eqb_spec (Z.of_nat (List.length contents)) 0);
             destruct (Z.eqb_spec (Z.of_nat (List.length other_contents)) 0);
             cbn [andb] in Hnone; try discriminate; lia.
        -- apply (merge_fields_length (Content_merge fuel)
                    (RecordArray_field_key contents (Some keys))
                    (RecordArray_field_key other_contents (Some other_keys))
                    contents other_contents length other_length
                    (RecordArray_keys contents (Some keys)) cs);
             try assumption.
           ++ intros x f. apply RecordArray_field_key_elem.
           ++ intros x g. apply RecordArray_field_key_elem.
      * (* both tuples *)
        destruct (Z.eqb_spec (vlen contents) (vlen other_contents)) as [Hsame|];
          [|discriminate].
        destruct (RecordArray_merge_tuple _ _ _ _ _) as [cs|] eqn:Hcs;
          [|discriminate].
        cbn [rbind]. apply Hfinish.
        -- intros ->. apply mapM_length in Hcs.
           rewrite length_seq in Hcs. cbn [List.length] in Hcs.
           unfold vlen in *.
           destruct (Z.eqb_spec (Z.of_nat (List.length contents)) 0);
             destruct (Z.eqb_spec (Z.of_nat (List.length other_contents)) 0);
             cbn [andb] in Hnone; try discriminate; lia.
        -- apply (merge_fields_length (Content_merge fuel)
                    (fun i : nat => RecordArray_field contents (Z.of_nat i))
                    (fun i : nat =>
                       RecordArray_field other_contents (Z.of_nat i))
                    contents other_contents length other_length
                    (seq 0 (List.length contents)) cs);
             try assumption.
           ++ intros x f. apply RecordArray_field_elem.
           ++ intros x g. apply RecordArray_field_elem.
  - (* UnionArray *)
    intros Hr. cbn [Content_length].
    eapply UnionArray_merge_length; [|exact Hlen2|exact Hr]. reflexivity.
Qed.

End MergeLength.

Lemma leaf_merge_length (a b r : Content) :
  well_formed a = true -> well_formed b = true ->
  leaf_merge a b = Ok r ->
  Content_length r = Content_length a + Content_length b.
Proof.
  intros _ _. unfold leaf_merge, not_modelled.
  destruct a; try discriminate.
  - destruct b; try discriminate.
    intros Hr. inversion Hr. reflexivity.
  - destruct shape as [|n [|]]; try discriminate.
    destruct b; try discriminate.
    destruct shape as [|m [|]]; try discriminate.
    destruct (parameters_equal parameters parameters0
              && bool_decide (format = format0)); [|discriminate].
    intros Hr. inversion Hr. reflexivity.
Qed.

Lemma leaf_getitem_range_nowrap_length (c : Content) (n : Z) (r : Content) :
  well_formed c = true -> 0 <= n <= Content_length c ->
  leaf_getitem_range_nowrap c 0 n = Ok r ->
  Content_length r = n /\ well_formed r = true.
Proof.
  intros _ Hn. unfold leaf_getitem_range_nowrap, not_modelled.
  destruct c; try discriminate.
  destruct shape as [|k [|]]; try discriminate.
  destruct ((0 <=? 0) && (0 <=? n) && (n <=? k)); [|discriminate].
  intros Hr. inversion Hr. cbn [Content_length well_formed hd].
  split; [lia|]. apply andb_true_intro. split; [apply Z.leb_le; lia|].
  reflexivity.
Qed.

Lemma leaf_reverse_merge_length (self other r : Content) :
  well_formed self = true -> well_formed other = true ->
  @not_modelled Content = Ok r ->
  Content_length r = Content_length other + Content_length self.
Proof. intros _ _ Hr. discriminate Hr. Qed.

Lemma C3_merge_length_witness :
  let c1 := RecordArray None ∅
              [NumpyArray None ∅ "d" [2] [15; 25];
               NumpyArray None ∅ "?" [2] [1; 0]]
              (Some ["x"; "y"]) 2 in
  let c2 := RecordArray None ∅
              [NumpyArray None ∅ "?" [1] [1];
               NumpyArray None ∅ "d" [1] [35]]
              (Some ["y"; "x"]) 1 in
  exists r,
    @Content_merge leaf_collaborators 2 c1 c2 = Ok r /\
    Content_length r = Content_length c1 + Content_length c2.
Proof.
  intros c1 c2. eexists. split.
  - vm_compute. reflexivity.
  - apply (@C3_merge_length leaf_collaborators
             leaf_merge_length
             leaf_reverse_merge_length
             leaf_getitem_range_nowrap_length
             2 c1 c2).
    + reflexivity.
    + reflexivity.
    + vm_compute. reflexivity.
Defined.

(** * Further properties *)

(** ** carry *)

Lemma index_carry_64_in_range (fromindex carry : list Z) :
  Forall (fun j => 0 <= j < vlen fromindex) carry ->
  awkward_index_carry_64 fromindex carry =
    Ok (awkward_index_carry_nocheck_64 fromindex carry).
Proof.
  unfold awkward_index_carry_64, awkward_index_carry_nocheck_64.
  induction carry as [|j carry IH]; intros Hall; [reflexivity|].
  inversion Hall as [|? ? Hj Hrest]; subst.
  cbn [mapM fmap list_fmap].
  destruct (vec_at fromindex j) as [x|] eqn:Hx.
  - cbn [rbind default]. fold (mapM (fun j : Z =>
        match vec_at fromindex j with
        | Some x => Ok x
        | None => Err (KernelError "index out of range")
        end)).
    rewrite (IH Hrest). reflexivity.
  - exfalso. unfold vec_at, vlen in *.
    destruct (Z.ltb_spec j 0); [lia|].
    apply lookup_ge_None in Hx. lia.
Qed.

Lemma carry_nocheck_lookup (fromindex carry : list Z) (k : nat) (j : Z) :
  carry !! k = Some j -> 0 <= j < vlen fromindex ->
  awkward_index_carry_nocheck_64 fromindex carry !! k =
    fromindex !! Z.to_nat j.
Proof.
  intros Hk Hj. unfold awkward_index_carry_nocheck_64.
  rewrite list_lookup_fmap, Hk. cbn [fmap option_fmap option_map].
  unfold vec_at. destruct (Z.ltb_spec j 0); [lia|].
  destruct (fromindex !! Z.to_nat j) as [x|] eqn:Hx; [reflexivity|].
  apply lookup_ge_None in Hx. unfold vlen in Hj. lia.
Qed.

Lemma vlen_carry_nocheck (fromindex carry : list Z) :
  vlen (awkward_index_carry_nocheck_64 fromindex carry) = vlen carry.
Proof.
  unfold awkward_index_carry_nocheck_64, vlen. rewrite length_fmap.
  reflexivity.
Qed.

Lemma vec_at_nat {A} (l : list A) (k : nat) : vec_at l (Z.of_nat k) = l !! k.
Proof.
  unfold vec_at. destruct (Z.ltb_spec (Z.of_nat k) 0); [lia|].
  rewrite Nat2Z.id. reflexivity.
Qed.

Lemma vec_at_nonneg {A} (l : list A) (j : Z) :
  0 <= j -> vec_at l j = l !! Z.to_nat j.
Proof.
  intros Hj. unfold vec_at. destruct (Z.ltb_spec j 0); [lia | reflexivity].
Qed.

Section Carry.
Context `{Collaborators}.

(** The element of a union depends on the row only through its tag and its
    index. *)
Lemma union_getitem_at_same_row (w w' : IndexWidth) (ids ids' : IdentitiesPtr)
    (p p' : Parameters) (tags index tags' index' : list Z)
    (contents : list Content) (i i' : Z) :
  vec_at tags' i' = vec_at tags i ->
  vec_at index' i' = vec_at index i ->
  Content_getitem_at_nowrap (UnionArray w' ids' p' tags' index' contents) i' =
  Content_getitem_at_nowrap (UnionArray w ids p tags index contents) i.
Proof.
  intros Ht Hi. cbn [Content_getitem_at_nowrap]. rewrite Ht, Hi. reflexivity.
Qed.

(** X1. UnionArray::carry is a gather of the rows. With an index shorter
    than the tags it raises "len(index) < len(tags)"; otherwise, for a
    carry whose entries are rows of the union, it returns a union of the
    same width, parameters and arms with one row per entry of the carry,
    and at row k the tag, the index and the element of row carry[k]. *)
Theorem union_carry_is_gather (w : IndexWidth) (ids : IdentitiesPtr)
    (p : Parameters) (tags index : list Z) (contents : list Content)
    (carry : list Z) :
  contents <> [] ->
  let u := UnionArray w ids p tags index contents in
  (vlen index < vlen tags ->
   Content_carry u carry = Err (KernelError "len(index) < len(tags)")) /\
  (vlen tags <= vlen index ->
   Forall (fun j => 0 <= j < vlen tags) carry ->
   exists ids' tags' index',
     Content_carry u carry = Ok (UnionArray w ids' p tags' index' contents) /\
     vlen tags' = vlen carry /\ vlen index' = vlen carry /\
     forall (k : nat) j,
       carry !! k = Some j ->
       tags' !! k = tags !! Z.to_nat j /\
       index' !! k = index !! Z.to_nat j /\
       Content_getitem_at_nowrap
         (UnionArray w ids' p tags' index' contents) (Z.of_nat k) =
         Content_getitem_at_nowrap u j).
Proof.
  intros Hne u. subst u. cbn [Content_carry]. split.
  - intros Hshort.
    destruct (Z.ltb_spec (vlen index) (vlen tags)); [reflexivity | lia].
  - intros Hlong Hall.
    destruct (Z.ltb_spec (vlen index) (vlen tags)); [lia|].
    rewrite (index_carry_64_in_range _ _ Hall). cbn [rbind].
    rewrite UnionArray_new_ok;
      [|exact Hne|rewrite !vlen_carry_nocheck; lia].
    eexists _, _, _. split; [reflexivity|].
    rewrite !vlen_carry_nocheck. split; [reflexivity|].
    split; [reflexivity|].
    intros k j Hk.
    rewrite Forall_forall in Hall.
    pose proof (Hall j (list_elem_of_lookup_2 _ _ _ Hk)) as Hj.
    assert (Ht : awkward_index_carry_nocheck_64 tags carry !! k
                 = tags !! Z.to_nat j)
      by (apply carry_nocheck_lookup; assumption).
    assert (Hi : awkward_index_carry_nocheck_64 index carry !! k
                 = index !! Z.to_nat j)
      by (apply carry_nocheck_lookup; [assumption | lia]).
    split; [exact Ht|]. split; [exact Hi|].
    apply union_getitem_at_same_row;
      rewrite vec_at_nat, vec_at_nonneg by lia; assumption.
Qed.

End Carry.

Lemma union_carry_is_gather_witness :
  let a := NumpyArray None ∅ "d" [2] [15; 25] in
  let b := RecordArray None ∅ [a] (Some ["x"]) 2 in
  let c := RecordArray None ∅ [a] (Some ["y"]) 1 in
  let u := UnionArray8_64 None ∅ [0; 1; 0] [0; 0; 1] [b; c] in
  @Content_carry leaf_collaborators u [2; 2; 1]
    = Ok (UnionArray8_64 None ∅ [0; 0; 1] [1; 1; 0] [b; c]) /\
  @Content_getitem_at_nowrap leaf_collaborators
    (UnionArray8_64 None ∅ [0; 0; 1] [1; 1; 0] [b; c]) 2 = Ok (Record c 0) /\
  @Content_carry leaf_collaborators
    (UnionArray8_64 None ∅ [0; 1; 0] [0; 0] [b; c]) [0]
    = Err (KernelError "len(index) < len(tags)").
Proof.
  intros a b c u.
  destruct (@union_carry_is_gather leaf_collaborators I64 None ∅
              [0; 1; 0] [0; 0; 1] [b; c] [2; 2; 1] ltac:(discriminate))
    as [_ Hgather].
  destruct Hgather as (ids' & tags' & index' & Hr & _ & _ & Hrows).
  - unfold vlen. simpl. lia.
  - repeat constructor; unfold vlen; simpl; lia.
  - split; [reflexivity|]. split; [reflexivity|].
    apply (proj1 (@union_carry_is_gather leaf_collaborators I64 None ∅
                    [0; 1; 0] [0; 0] [b; c] [0] ltac:(discriminate))).
    unfold vlen. simpl. lia.
Defined.

Lemma omap_lookup_seq {A} (l : list A) (m : nat) :
  omap (fun k : nat => l !! k) (seq 0 m) = take m l.
Proof.
  induction m as [|m IH]; [reflexivity|].
  rewrite seq_S, omap_app, IH. cbn [Nat.add omap list_omap].
  destruct (l !! m) as [x|] eqn:Hx.
  - rewrite (take_S_r _ _ _ Hx). reflexivity.
  - apply lookup_ge_None in Hx.
    rewrite app_nil_r, !take_ge by lia. reflexivity.
Qed.

Lemma omap_vec_at_arange {A} (l : list A) (n : Z) :
  omap (vec_at l) (seqZ 0 n) = take (Z.to_nat n) l.
Proof.
  unfold seqZ. rewrite <- omap_lookup_seq.
  induction (seq 0 (Z.to_nat n)) as [|k ks IH]; [reflexivity|].
  cbn [fmap list_fmap omap list_omap].
  rewrite Z.add_0_r, vec_at_nat.
  destruct (l !! k); [f_equal|]; exact IH.
Qed.

Lemma carry_nocheck_arange (l : list Z) (n : Z) :
  n <= vlen l ->
  awkward_index_carry_nocheck_64 l (seqZ 0 n) = take (Z.to_nat n) l.
Proof.
  intros Hn. unfold awkward_index_carry_nocheck_64.
  apply list_eq. intros k. rewrite list_lookup_fmap.
  destruct (decide (Z.of_nat k < n)) as [Hk|Hk].
  - rewrite lookup_seqZ_lt by lia. cbn [fmap option_fmap option_map].
    rewrite Z.add_0_l, vec_at_nat, lookup_take_lt by lia.
    destruct (l !! k) as [x|] eqn:Hx; [reflexivity|].
    apply lookup_ge_None in Hx. unfold vlen in Hn. lia.
  - rewrite lookup_seqZ_ge by lia. cbn [fmap option_fmap option_map].
    symmetry. apply lookup_ge_None. rewrite length_take. lia.
Qed.

Lemma omap_vec_at_lookup {A} (l : list A) (carry : list Z) (k : nat) :
  Forall (fun j => 0 <= j < vlen l) carry ->
  omap (vec_at l) carry !! k = carry !! k ≫= vec_at l.
Proof.
  intros Hall. revert k. induction Hall as [|j carry Hj _ IH]; intros k.
  - reflexivity.
  - cbn [omap list_omap].
    destruct (vec_at l j) as [x|] eqn:Hx.
    + destruct k as [|k]; cbn [lookup list_lookup mbind option_bind].
      * rewrite Hx. reflexivity.
      * apply IH.
    + exfalso. unfold vec_at, vlen in *.
      destruct (Z.ltb_spec j 0); [lia|].
      apply lookup_ge_None in Hx. lia.
Qed.

Lemma omap_vec_at_compose {A} (l : list A) (c1 c2 : list Z) :
  Forall (fun j => 0 <= j < vlen l) c1 ->
  Forall (fun j => 0 <= j < vlen c1) c2 ->
  omap (vec_at (omap (vec_at l) c1)) c2 =
  omap (vec_at l) (awkward_index_carry_nocheck_64 c1 c2).
Proof.
  intros H1 H2. induction H2 as [|j c2 Hj _ IH]; [reflexivity|].
  unfold awkward_index_carry_nocheck_64 in *.
  cbn [omap list_omap fmap list_fmap]. rewrite IH.
  destruct (c1 !! Z.to_nat j) as [x|] eqn:Hx.
  - assert (Hc : vec_at c1 j = Some x) by (apply vec_at_lookup; split; [lia | exact Hx]).
    rewrite Hc. cbn [default].
    rewrite (vec_at_nonneg _ j) by lia.
    rewrite (omap_vec_at_lookup l c1 (Z.to_nat j) H1), Hx.
    cbn [mbind option_bind]. reflexivity.
  - apply lookup_ge_None in Hx. unfold vlen in Hj. lia.
Qed.

Lemma carry_nocheck_compose (l c1 c2 : list Z) :
  Forall (fun j => 0 <= j < vlen c1) c2 ->
  awkward_index_carry_nocheck_64 (awkward_index_carry_nocheck_64 l c1) c2 =
  awkward_index_carry_nocheck_64 l (awkward_index_carry_nocheck_64 c1 c2).
Proof.
  intros H2. unfold awkward_index_carry_nocheck_64.
  rewrite <- list_fmap_compose. apply Forall_fmap_ext.
  eapply Forall_impl; [exact H2|]. intros j Hj. cbn beta in Hj.
  cbn [compose].
  rewrite (vec_at_nonneg c1 j), (vec_at_nonneg (_ <$> c1) j) by lia.
  rewrite list_lookup_fmap.
  destruct (c1 !! Z.to_nat j) as [x|] eqn:Hx; [reflexivity|].
  apply lookup_ge_None in Hx. unfold vlen in Hj. lia.
Qed.


Lemma to_nat_vlen {A} (l : list A) : Z.to_nat (vlen l) = List.length l.
Proof. unfold vlen. apply Nat2Z.id. Qed.

Section CarryLaws.
Context `{Collaborators}.

(** X2. Carrying a union by the identity index [0, ..., len-1] is the
    window [0, len) of the union: the tags and the arms are kept, the index
    and the identities are cut to the length of the tags. *)
Theorem union_carry_arange (w : IndexWidth) (ids : IdentitiesPtr)
    (p : Parameters) (tags index : list Z) (contents : list Content) :
  contents <> [] ->
  vlen tags <= vlen index ->
  let u := UnionArray w ids p tags index contents in
  Content_carry u (awkward_carry_arange_64 (Content_length u)) =
    Ok (UnionArray w (take (List.length tags) <$> ids) p tags
          (take (List.length tags) index) contents) /\
  Content_getitem_range_nowrap u 0 (Content_length u) =
    Content_carry u (awkward_carry_arange_64 (Content_length u)).
Proof.
  intros Hne Hlen u. subst u. cbn [Content_length].
  assert (Hcarry :
    Content_carry (UnionArray w ids p tags index contents)
      (awkward_carry_arange_64 (vlen tags)) =
    Ok (UnionArray w (take (List.length tags) <$> ids) p tags
          (take (List.length tags) index) contents)).
  { cbn [Content_carry]. unfold awkward_carry_arange_64.
    destruct (Z.ltb_spec (vlen index) (vlen tags)); [lia|].
    rewrite index_carry_64_in_range.
    2:{ apply Forall_forall. intros j Hj.
        apply list_elem_of_lookup in Hj as [k Hk].
        apply lookup_seqZ in Hk. lia. }
    cbn [rbind]. rewrite !carry_nocheck_arange by lia.
    rewrite !to_nat_vlen, (take_ge tags) by lia.
    unfold Identities_getitem_carry_64.
    replace ((fun ids0 : Identities => omap (vec_at ids0) (seqZ 0 (vlen tags)))
               <$> ids)
      with (take (List.length tags) <$> ids).
    2:{ destruct ids as [i|]; [|reflexivity]. cbn [fmap option_fmap option_map].
        rewrite omap_vec_at_arange, to_nat_vlen. reflexivity. }
    apply UnionArray_new_ok; [exact Hne|].
    unfold vlen in *. rewrite length_take. lia. }
  split; [exact Hcarry|]. rewrite Hcarry.
  cbn [Content_getitem_range_nowrap].
  unfold Index_getitem_range_nowrap, Identities_getitem_range_nowrap.
  rewrite Z.sub_0_r. cbn [Z.to_nat drop].
  rewrite !to_nat_vlen, (take_ge tags) by lia.
  apply UnionArray_new_ok; [exact Hne|].
  unfold vlen in *. rewrite length_take. lia.
Qed.

(** X3. Two carries of a union compose into one: carrying by c1 and then
    by c2 is carrying by the gather of c1 at c2, when c1 addresses rows of
    the union, c2 addresses entries of c1 and the identities, if any, cover
    the rows. *)
Theorem union_carry_compose (w : IndexWidth) (ids : IdentitiesPtr)
    (p : Parameters) (tags index : list Z) (contents : list Content)
    (c1 c2 : list Z) (r1 : Content) :
  Forall (fun j => 0 <= j < vlen tags) c1 ->
  Forall (fun j => 0 <= j < vlen c1) c2 ->
  match ids with Some i => vlen tags <= vlen i | None => True end ->
  Content_carry (UnionArray w ids p tags index contents) c1 = Ok r1 ->
  Content_carry r1 c2 =
    Content_carry (UnionArray w ids p tags index contents)
      (awkward_index_carry_nocheck_64 c1 c2).
Proof.
  intros H1 H2 Hids Hr1. cbn [Content_carry] in *.
  destruct (Z.ltb_spec (vlen index) (vlen tags)) as [|Hlen]; [discriminate|].
  rewrite (index_carry_64_in_range _ _ H1) in Hr1. cbn [rbind] in Hr1.
  apply UnionArray_new_inv in Hr1. subst r1. cbn [Content_carry].
  rewrite !vlen_carry_nocheck.
  destruct (Z.ltb_spec (vlen c1) (vlen c1)); [lia|].
  assert (H2' : Forall (fun j => 0 <= j
                          < vlen (awkward_index_carry_nocheck_64 tags c1)) c2)
    by (rewrite vlen_carry_nocheck; exact H2).
  rewrite (index_carry_64_in_range _ _ H2'). cbn [rbind].
  assert (H12 : Forall (fun j => 0 <= j < vlen tags)
                  (awkward_index_carry_nocheck_64 c1 c2)).
  { apply Forall_forall. intros x Hx.
    unfold awkward_index_carry_nocheck_64 in Hx.
    apply list_elem_of_fmap in Hx as (j & -> & Hj).
    rewrite Forall_forall in H2. specialize (H2 j Hj).
    rewrite vec_at_nonneg by lia.
    destruct (c1 !! Z.to_nat j) as [y|] eqn:Hy.
    - cbn [default]. rewrite Forall_forall in H1. apply H1.
      eapply list_elem_of_lookup_2. exact Hy.
    - apply lookup_ge_None in Hy. unfold vlen in H2. lia. }
  rewrite (index_carry_64_in_range _ _ H12). cbn [rbind].
  rewrite !carry_nocheck_compose by exact H2.
  f_equal. destruct ids as [i|]; [|reflexivity].
  cbn [fmap option_fmap option_map]. f_equal.
  unfold Identities_getitem_carry_64. apply omap_vec_at_compose; [|exact H2].
  eapply Forall_impl; [exact H1|]. intros j Hj. cbn beta in *. lia.
Qed.

(** The contract of a collaborator's carry: as many rows as the carry has
    entries, in a well-formed node. *)
Hypothesis foreign_carry_length :
  forall c carry r,
    foreign_carry c carry = Ok r ->
    Content_length r = vlen carry /\ well_formed r = true.

(** X4. Whatever the node, a carry that succeeds returns a well-formed node
    with exactly one row per entry of the carry. *)
Theorem carry_length_well_formed (c : Content) (carry : list Z) (r : Content) :
  Content_carry c carry = Ok r ->
  Content_length r = vlen carry /\ well_formed r = true.
Proof.
  remember (Content_size c) as size eqn:Hsize.
  revert c r Hsize. induction size as [size IH] using lt_wf_ind.
  intros c r Hsize Hr. pose proof (vlen_nonneg carry) as Hnn.
  destruct c; cbn [Content_carry] in Hr;
    try (eapply foreign_carry_length; eassumption).
  - destruct (Content_carry c carry) as [next|] eqn:Hnext; [|discriminate].
    cbn [rbind] in Hr. inversion Hr. subst r.
    destruct (IH (Content_size c) ltac:(subst size; cbn [Content_size]; lia)
                c next eq_refl Hnext) as [Hl Hw].
    cbn [Content_length well_formed]. rewrite Hl, Hw.
    split; [reflexivity|].
    apply andb_true_intro. split; [apply Z.leb_le; lia | reflexivity].
  - destruct (mapM _ contents) as [cs|] eqn:Hmap; [|discriminate].
    cbn [rbind] in Hr. apply RecordArray_new_inv in Hr as [-> Hkeys].
    split; [reflexivity|]. apply well_formed_record.
    split; [lia|]. split; [exact Hkeys|].
    intros x' Hx'.
    destruct (mapM_elem _ _ _ _ Hmap Hx') as (x & Hx & Hcx). cbn beta in Hcx.
    pose proof (Content_size_elem x _ Hx) as Hxs.
    destruct (IH (Content_size x) ltac:(subst size; cbn [Content_size]; lia)
                x x' eq_refl Hcx) as [Hl Hw].
    split; [lia | exact Hw].
  - destruct (vlen index <? vlen tags); [discriminate|].
    destruct (awkward_index_carry_64 tags carry) as [nexttags|] eqn:Ht;
      [|discriminate].
    cbn [rbind] in Hr. apply UnionArray_new_inv in Hr. subst r.
    cbn [Content_length well_formed].
    apply mapM_length in Ht. unfold vlen. rewrite Ht.
    split; [reflexivity|].
    apply andb_true_intro. split; [apply Z.leb_le; lia | reflexivity].
Qed.

End CarryLaws.

Lemma union_carry_arange_witness :
  let a := NumpyArray None ∅ "d" [2] [15; 25] in
  let b := NumpyArray None ∅ "?" [1] [1] in
  @Content_carry leaf_collaborators
    (UnionArray8_64 (Some [7; 8; 9; 10]) ∅ [0; 1; 0] [0; 0; 1; 5] [a; b])
    [0; 1; 2]
  = Ok (UnionArray8_64 (Some [7; 8; 9]) ∅ [0; 1; 0] [0; 0; 1] [a; b]).
Proof.
  intros a b.
  apply (proj1 (@union_carry_arange leaf_collaborators I64
                  (Some [7; 8; 9; 10]) ∅ [0; 1; 0] [0; 0; 1; 5] [a; b]
                  ltac:(discriminate) ltac:(unfold vlen; simpl; lia))).
Defined.

Lemma union_carry_compose_witness :
  let a := NumpyArray None ∅ "d" [2] [15; 25] in
  let b := NumpyArray None ∅ "?" [1] [1] in
  let u := UnionArray8_64 None ∅ [0; 1; 0] [0; 0; 1] [a; b] in
  @Content_carry leaf_collaborators
    (UnionArray8_64 None ∅ [0; 0; 1] [1; 1; 0] [a; b]) [2; 0]
  = @Content_carry leaf_collaborators u [1; 2].
Proof.
  intros a b u.
  apply (@union_carry_compose leaf_collaborators I64 None ∅
           [0; 1; 0] [0; 0; 1] [a; b] [2; 2; 1] [2; 0]).
  - repeat constructor; unfold vlen; simpl; lia.
  - repeat constructor; unfold vlen; simpl; lia.
  - exact I.
  - reflexivity.
Defined.

Lemma leaf_carry_length (c : Content) (carry : list Z) (r : Content) :
  leaf_carry c carry = Ok r ->
  Content_length r = vlen carry /\ well_formed r = true.
Proof.
  pose proof (vlen_nonneg carry) as Hnn.
  unfold leaf_carry, not_modelled. destruct c; try discriminate.
  - destruct shape as [|n [|]]; try discriminate.
    destruct (awkward_index_carry_64 data carry); [|discriminate].
    cbn [rbind]. intros Hr. inversion Hr. cbn [Content_length well_formed hd].
    split; [reflexivity|].
    apply andb_true_intro. split; [apply Z.leb_le; lia | reflexivity].
  - destruct (awkward_index_carry_64 starts carry) as [s|] eqn:Hs;
      [|discriminate].
    cbn [rbind]. destruct (awkward_index_carry_64 stops carry); [|discriminate].
    cbn [rbind]. intros Hr. inversion Hr. cbn [Content_length well_formed].
    apply mapM_length in Hs. unfold vlen in *. rewrite Hs.
    split; [reflexivity|].
    apply andb_true_intro. split; [apply Z.leb_le; lia | reflexivity].
  - destruct (awkward_index_carry_64 offsets carry) as [s|] eqn:Hs;
      [|discriminate].
    cbn [rbind].
    destruct (awkward_index_carry_64 (drop 1 offsets) carry); [|discriminate].
    cbn [rbind]. intros Hr. inversion Hr. cbn [Content_length well_formed].
    apply mapM_length in Hs. unfold vlen in *. rewrite Hs.
    split; [reflexivity|].
    apply andb_true_intro. split; [apply Z.leb_le; lia | reflexivity].
Qed.

Lemma carry_length_well_formed_witness :
  let a := NumpyArray None ∅ "d" [1] [15] in
  let short := RecordArray None ∅ [a] (Some ["x"]) 3 in
  well_formed short = false /\
  exists r,
    @Content_carry leaf_collaborators short [0; 0; 0; 0] = Ok r /\
    Content_length r = 4 /\ well_formed r = true.
Proof.
  intros a short. split; [reflexivity|]. eexists. split.
  - vm_compute. reflexivity.
  - apply (@carry_length_well_formed leaf_collaborators leaf_carry_length
             short [0; 0; 0; 0]).
    vm_compute. reflexivity.
Defined.

(** ** merge and reverse_merge of a union, row by row *)

Section Concatenation.
Context `{Collaborators}.

Lemma union_getitem_at_arm (w : IndexWidth) (ids : IdentitiesPtr)
    (p : Parameters) (tags index : list Z) (contents : list Content)
    (i t x : Z) (c : Content) :
  vec_at tags i = Some t -> vec_at index i = Some x ->
  0 <= t -> contents !! Z.to_nat t = Some c ->
  Content_getitem_at_nowrap (UnionArray w ids p tags index contents) i =
    if negb ((0 <=? x) && (x <? Content_length c))
    then Err (KernelError "index[i] > len(content(tag))")
    else Content_getitem_at_nowrap c x.
Proof.
  intros Ht Hx Hpos Hc. cbn [Content_getitem_at_nowrap]. rewrite Ht, Hx.
  destruct (Z.ltb_spec t 0); [lia|].
  revert Hc. generalize (Z.to_nat t) as k. clear.
  induction contents as [|c0 cs IH]; intros k Hc; [discriminate|].
  destruct k as [|k]; cbn [lookup list_lookup] in Hc.
  - inversion Hc. reflexivity.
  - apply IH. exact Hc.
Qed.

Lemma union_getitem_at_prefix (w w' : IndexWidth) (ids ids' : IdentitiesPtr)
    (p p' : Parameters) (tags index tags' index' : list Z)
    (contents more : list Content) (i i' : Z) :
  vec_at tags' i' = vec_at tags i ->
  vec_at index' i' = vec_at index i ->
  (forall t, vec_at tags i = Some t -> 0 <= t < vlen contents) ->
  Content_getitem_at_nowrap
    (UnionArray w' ids' p' tags' index' (contents ++ more)) i' =
  Content_getitem_at_nowrap (UnionArray w ids p tags index contents) i.
Proof.
  intros Ht Hi Hvalid.
  destruct (vec_at tags i) as [t|] eqn:Htag.
  - destruct (vec_at index i) as [x|] eqn:Hidx.
    + destruct (Hvalid t eq_refl) as [Hlo Hhi].
      assert (Hlt : (Z.to_nat t < List.length contents)%nat)
        by (unfold vlen in Hhi; lia).
      destruct (lookup_lt_is_Some_2 contents (Z.to_nat t) Hlt) as [c Hc].
      assert (Hc' : (contents ++ more) !! Z.to_nat t = Some c)
        by (rewrite lookup_app_l by exact Hlt; exact Hc).
      rewrite (union_getitem_at_arm _ _ _ _ _ _ _ t x c Ht Hi Hlo Hc').
      rewrite (union_getitem_at_arm _ _ _ _ _ _ _ t x c Htag Hidx Hlo Hc).
      reflexivity.
    + cbn [Content_getitem_at_nowrap]. rewrite Ht, Hi, Htag, Hidx.
      reflexivity.
  - cbn [Content_getitem_at_nowrap]. rewrite Ht, Htag. reflexivity.
Qed.

Lemma UnionArray_merge_closed_union (self : Content) (p : Parameters)
    (tags_ index_ : list Z) (contents_ : list Content)
    (w' : IndexWidth) (ids' : IdentitiesPtr) (p' : Parameters)
    (tags' index' : list Z) (contents' : list Content) :
  parameters_equal p p' = true ->
  vlen tags_ <= vlen index_ -> vlen tags' <= vlen index' ->
  contents_ <> [] ->
  vlen contents_ + vlen contents' <= 127 ->
  UnionArray_merge self p tags_ index_ contents_
    (UnionArray w' ids' p' tags' index' contents') =
  Ok (UnionArray8_64 None ∅
        (((fun t => to8 (t + 0)) <$> tags_)
           ++ ((fun t => to8 (t + vlen contents_)) <$> tags'))
        (take (List.length tags_) index_ ++ take (List.length tags') index')
        (contents_ ++ contents')).
Proof.
  intros Hp Hidx Hidx' Hne Hcap. unfold UnionArray_merge.
  cbn [Content_parameters is_EmptyArray Content_length]. rewrite Hp.
  cbn [negb].
  unfold awkward_unionarray_filltags_to8_from8,
    awkward_unionarray_fillindex_to64_from.
  rewrite !to_nat_vlen, (take_ge tags_), (take_ge tags') by lia.
  rewrite (store_new_Index _ _ (List.length tags'))
    by (rewrite length_fmap; unfold vlen; lia).
  rewrite (store_new_Index _ _ (List.length tags'))
    by (rewrite length_take; unfold vlen in *; lia).
  rewrite store_app;
    [| unfold vlen; rewrite length_fmap; reflexivity
     | rewrite length_fmap, length_replicate; reflexivity].
  rewrite store_app;
    [| unfold vlen in *; rewrite length_take; lia
     | rewrite length_take, length_replicate; unfold vlen in *; lia].
  destruct (Z.gtb_spec (vlen (contents_ ++ contents')) kMaxInt8) as [Hgt|_].
  { rewrite vlen_app in Hgt. unfold kMaxInt8 in Hgt. lia. }
  apply UnionArray_new_ok.
  - destruct contents_; [congruence | discriminate].
  - rewrite !vlen_app. unfold vlen in *.
    rewrite !length_fmap, !length_take. lia.
Qed.

Lemma UnionArray_merge_closed_other (self : Content) (p : Parameters)
    (tags_ index_ : list Z) (contents_ : list Content) (other : Content) :
  parameters_equal p (Content_parameters other) = true ->
  is_EmptyArray other = false -> is_UnionArray other = false ->
  vlen tags_ <= vlen index_ ->
  0 <= Content_length other ->
  vlen contents_ + 1 <= 127 ->
  UnionArray_merge self p tags_ index_ contents_ other =
  Ok (UnionArray8_64 None ∅
        (((fun t => to8 (t + 0)) <$> tags_)
           ++ replicate (Z.to_nat (Content_length other))
                (to8 (vlen contents_)))
        (take (List.length tags_) index_ ++ seqZ 0 (Content_length other))
        (contents_ ++ [other])).
Proof.
  intros Hp He Hu Hidx Hother Hcap. unfold UnionArray_merge.
  rewrite Hp, He. cbn [negb].
  set (their := Content_length other) in *.
  assert (Hbody :
    (let '(tags, index, contents) :=
       (awkward_unionarray_filltags_to8_const
          (awkward_unionarray_filltags_to8_from8
             (new_Index (vlen tags_ + their)) 0 tags_ (vlen tags_) 0)
          (vlen tags_) their (vlen contents_),
        awkward_unionarray_fillindex_to64_count
          (awkward_unionarray_fillindex_to64_from
             (new_Index (vlen tags_ + their)) 0 index_ (vlen tags_))
          (vlen tags_) their,
        contents_ ++ [other]) in
     if vlen contents >? kMaxInt8
     then Err (RuntimeError
                 "FIXME: handle UnionArray with more than 127 contents")
     else UnionArray_new I64 None ∅ tags index contents) =
    Ok (UnionArray8_64 None ∅
          (((fun t => to8 (t + 0)) <$> tags_)
             ++ replicate (Z.to_nat their) (to8 (vlen contents_)))
          (take (List.length tags_) index_ ++ seqZ 0 their)
          (contents_ ++ [other]))).
  { unfold awkward_unionarray_filltags_to8_from8,
      awkward_unionarray_fillindex_to64_from,
      awkward_unionarray_filltags_to8_const,
      awkward_unionarray_fillindex_to64_count.
    rewrite !to_nat_vlen, (take_ge tags_) by lia.
    rewrite (store_new_Index _ _ (Z.to_nat their))
      by (rewrite length_fmap; unfold vlen; lia).
    rewrite (store_new_Index _ _ (Z.to_nat their))
      by (rewrite length_take; unfold vlen in *; lia).
    rewrite store_app;
      [| unfold vlen; rewrite length_fmap; reflexivity
       | rewrite !length_replicate; reflexivity].
    rewrite store_app;
      [| unfold vlen in *; rewrite length_take; lia
       | rewrite length_seqZ, length_replicate; reflexivity].
    destruct (Z.gtb_spec (vlen (contents_ ++ [other])) kMaxInt8) as [Hgt|_].
    { rewrite vlen_app in Hgt. unfold kMaxInt8, vlen in Hgt.
      cbn [List.length] in Hgt. unfold vlen in Hcap. lia. }
    apply UnionArray_new_ok.
    - destruct contents_; discriminate.
    - rewrite !vlen_app, vlen_replicate, vlen_seqZ by lia.
      unfold vlen in *. rewrite length_fmap, length_take. lia. }
  destruct other; try discriminate He; try discriminate Hu; exact Hbody.
Qed.

(** X5: merging a valid union with a non-empty node of the same parameters
    concatenates them row by row: the result has the sum of the lengths, its
    first rows are the elements of the union and the rows after them the
    elements of the other node, whether other is a union (its arms are
    appended and its tags shifted) or not (it becomes the last arm). *)
Theorem union_merge_is_concatenation (fuel : nat) (w : IndexWidth)
    (ids : IdentitiesPtr) (p : Parameters) (tags index : list Z)
    (contents : list Content) (other : Content) :
  contents <> [] ->
  vlen tags <= vlen index ->
  Forall (fun t => 0 <= t < vlen contents) tags ->
  parameters_equal p (Content_parameters other) = true ->
  is_EmptyArray other = false ->
  match other with
  | UnionArray _ _ _ tags' index' contents' =>
      vlen tags' <= vlen index' /\
      Forall (fun t => 0 <= t < vlen contents') tags'
  | _ => 0 <= Content_length other
  end ->
  vlen (UnionArray_merge_contents contents other) <= 127 ->
  exists r,
    Content_merge (S fuel) (UnionArray w ids p tags index contents) other
      = Ok r /\
    Content_length r = vlen tags + Content_length other /\
    (forall i, 0 <= i < vlen tags ->
       Content_getitem_at_nowrap r i =
       Content_getitem_at_nowrap (UnionArray w ids p tags index contents) i) /\
    (forall i, 0 <= i < Content_length other ->
       Content_getitem_at_nowrap r (vlen tags + i) =
       Content_getitem_at_nowrap other i).
Proof.
  intros Hne Hidx Hvalid Hp He Hother Hcap. cbn [Content_merge].
  assert (Hmine : forall (tl il : list Z) (more : list Content) i,
    0 <= i < vlen tags ->
    Content_getitem_at_nowrap
      (UnionArray8_64 None ∅
         (((fun t => to8 (t + 0)) <$> tags) ++ tl)
         (take (List.length tags) index ++ il) (contents ++ more)) i =
    Content_getitem_at_nowrap (UnionArray w ids p tags index contents) i).
  { intros tl il more i Hi. apply union_getitem_at_prefix.
    - rewrite vec_at_app_l
        by (unfold vlen in *; rewrite length_fmap; lia).
      rewrite vec_at_nonneg by lia. rewrite list_lookup_fmap.
      destruct (tags !! Z.to_nat i) as [t|] eqn:Ht; [|reflexivity].
      cbn [fmap option_fmap option_map]. f_equal.
      rewrite Forall_forall in Hvalid.
      pose proof (Hvalid t (list_elem_of_lookup_2 _ _ _ Ht)) as Ht'.
      unfold UnionArray_merge_contents in Hcap.
      assert (vlen contents <= 127).
      { assert (Hmore : forall extra : list Content,
                  vlen (contents ++ extra) <= 127 -> vlen contents <= 127)
          by (intros extra; rewrite vlen_app;
              pose proof (vlen_nonneg extra); lia).
        destruct other; exact (Hmore _ Hcap). }
      rewrite to8_small; lia.
    - rewrite vec_at_app_l
        by (unfold vlen in *; rewrite length_take; lia).
      rewrite vec_at_nonneg by lia.
      apply lookup_take_lt. unfold vlen in *. lia.
    - intros t Ht. rewrite vec_at_nonneg in Ht by lia.
      rewrite Forall_forall in Hvalid.
      exact (Hvalid t (list_elem_of_lookup_2 _ _ _ Ht)). }
  destruct (is_UnionArray other) eqn:Hu.
  - destruct other as [| | | | | | | | | | |w' ids' p' tags' index' contents'|];
      try discriminate Hu.
    destruct Hother as [Hidx' Hvalid'].
    cbn [Content_parameters UnionArray_merge_contents Content_length] in *.
    rewrite vlen_app in Hcap.
    rewrite (UnionArray_merge_closed_union _ p tags index contents
               w' ids' p' tags' index' contents') by assumption.
    eexists. split; [reflexivity|]. split; [|split].
    + cbn [Content_length]. rewrite vlen_app. unfold vlen.
      rewrite !length_fmap. reflexivity.
    + intros i Hi. apply Hmine. exact Hi.
    + intros i Hi.
      assert (Htag : vec_at
                (((fun t => to8 (t + 0)) <$> tags)
                   ++ ((fun t => to8 (t + vlen contents)) <$> tags'))
                (vlen tags + i) =
              (fun t => t + vlen contents) <$> vec_at tags' i).
      { rewrite vec_at_app_r
          by (try lia; unfold vlen; rewrite length_fmap; reflexivity).
        rewrite vec_at_nonneg by lia. rewrite list_lookup_fmap.
        destruct (tags' !! Z.to_nat i) as [t|] eqn:Ht; [|reflexivity].
        cbn [fmap option_fmap option_map]. f_equal.
        rewrite Forall_forall in Hvalid'.
        pose proof (Hvalid' t (list_elem_of_lookup_2 _ _ _ Ht)) as Ht'.
        pose proof (vlen_nonneg contents).
        rewrite to8_small; lia. }
      assert (Hindex : vec_at
                (take (List.length tags) index
                   ++ take (List.length tags') index')
                (vlen tags + i) = vec_at index' i).
      { rewrite vec_at_app_r
          by (try lia; unfold vlen in *; rewrite length_take; lia).
        rewrite vec_at_nonneg by lia.
        apply lookup_take_lt. unfold vlen in *. lia. }
      destruct (lookup_lt_is_Some_2 tags' (Z.to_nat i)
                  ltac:(unfold vlen in Hi; lia)) as [t Ht].
      destruct (lookup_lt_is_Some_2 index' (Z.to_nat i)
                  ltac:(unfold vlen in *; lia)) as [x Hx].
      rewrite Forall_forall in Hvalid'.
      pose proof (Hvalid' t (list_elem_of_lookup_2 _ _ _ Ht)) as [Hlo Hhi].
      destruct (lookup_lt_is_Some_2 contents' (Z.to_nat t)
                  ltac:(unfold vlen in Hhi; lia)) as [c Hc].
      rewrite <- (vec_at_nonneg tags' i) in Ht by lia.
      rewrite <- (vec_at_nonneg index' i) in Hx by lia.
      rewrite Ht in Htag. rewrite Hx in Hindex.
      cbn [fmap option_fmap option_map] in Htag.
      pose proof (vlen_nonneg contents) as Hn.
      rewrite (union_getitem_at_arm _ _ _ _ _ _ _ (t + vlen contents) x c
                 Htag Hindex ltac:(lia)).
      * rewrite (union_getitem_at_arm _ _ _ _ _ _ _ t x c Ht Hx Hlo Hc).
        reflexivity.
      * rewrite lookup_app_r by (unfold vlen; lia).
        rewrite <- Hc. f_equal. unfold vlen. lia.
  - assert (Hlen : 0 <= Content_length other)
      by (destruct other; try discriminate Hu; exact Hother).
    assert (Hcap' : vlen contents + 1 <= 127).
    { unfold UnionArray_merge_contents in Hcap.
      destruct other; try discriminate Hu; rewrite vlen_app in Hcap;
        exact Hcap. }
    rewrite (UnionArray_merge_closed_other _ p tags index contents other)
      by assumption.
    eexists. split; [reflexivity|]. split; [|split].
    + cbn [Content_length]. rewrite vlen_app, vlen_replicate by lia.
      unfold vlen. rewrite !length_fmap. reflexivity.
    + intros i Hi. apply Hmine. exact Hi.
    + intros i Hi.
      pose proof (vlen_nonneg contents) as Hn.
      assert (Htag : vec_at
                (((fun t => to8 (t + 0)) <$> tags)
                   ++ replicate (Z.to_nat (Content_length other))
                        (to8 (vlen contents)))
                (vlen tags + i) = Some (vlen contents)).
      { rewrite vec_at_app_r
          by (try lia; unfold vlen; rewrite length_fmap; reflexivity).
        rewrite to8_small by lia. apply lookup_replicate_2. lia. }
      assert (Hindex : vec_at
                (take (List.length tags) index
                   ++ seqZ 0 (Content_length other))
                (vlen tags + i) = Some i).
      { rewrite vec_at_app_r
          by (try lia; unfold vlen in *; rewrite length_take; lia).
        rewrite lookup_seqZ_lt by lia. f_equal. lia. }
      rewrite (union_getitem_at_arm _ _ _ _ _ _ _ (vlen contents) i other
                 Htag Hindex Hn).
      * destruct (Z.leb_spec 0 i); [|lia].
        destruct (Z.ltb_spec i (Content_length other)); [|lia].
        reflexivity.
      * unfold vlen. rewrite Nat2Z.id.
        rewrite lookup_app_r by lia. rewrite Nat.sub_diag. reflexivity.
Qed.

(** X6: the mirror image: reverse_merge of a valid union puts the elements
    of the other node first and the elements of the union after them. *)
Theorem union_reverse_merge_is_concatenation (w : IndexWidth)
    (ids : IdentitiesPtr) (p : Parameters) (tags index : list Z)
    (contents : list Content) (other : Content) :
  0 <= Content_length other ->
  vlen tags <= vlen index ->
  Forall (fun t => 0 <= t < vlen contents) tags ->
  vlen contents < 127 ->
  exists r,
    Content_reverse_merge (UnionArray w ids p tags index contents) other
      = Ok r /\
    Content_length r = Content_length other + vlen tags /\
    (forall i, 0 <= i < Content_length other ->
       Content_getitem_at_nowrap r i = Content_getitem_at_nowrap other i) /\
    (forall i, 0 <= i < vlen tags ->
       Content_getitem_at_nowrap r (Content_length other + i) =
       Content_getitem_at_nowrap (UnionArray w ids p tags index contents) i).
Proof.
  intros Hother Hidx Hvalid Hcap. cbn [Content_reverse_merge].
  rewrite UnionArray_reverse_merge_closed by assumption.
  eexists. split; [reflexivity|]. split; [|split].
  - cbn [Content_length]. rewrite vlen_app, vlen_replicate by lia.
    unfold vlen. rewrite length_fmap. reflexivity.
  - intros i Hi.
    assert (Htag : vec_at
              (replicate (Z.to_nat (Content_length other)) 0
                 ++ ((fun t => to8 (t + 1)) <$> tags)) i = Some 0).
    { rewrite vec_at_app_l by (rewrite vlen_replicate; lia).
      apply lookup_replicate_2. lia. }
    assert (Hindex : vec_at
              (seqZ 0 (Content_length other)
                 ++ take (List.length tags) index) i = Some i).
    { rewrite vec_at_app_l by (rewrite vlen_seqZ; lia).
      rewrite lookup_seqZ_lt by lia. f_equal. lia. }
    rewrite (union_getitem_at_arm _ _ _ _ _ (other :: contents) _ 0 i other
               Htag Hindex ltac:(lia) eq_refl).
    destruct (Z.leb_spec 0 i); [|lia].
    destruct (Z.ltb_spec i (Content_length other)); [|lia].
    reflexivity.
  - intros i Hi.
    destruct (lookup_lt_is_Some_2 tags (Z.to_nat i)
                ltac:(unfold vlen in Hi; lia)) as [t Ht].
    destruct (lookup_lt_is_Some_2 index (Z.to_nat i)
                ltac:(unfold vlen in *; lia)) as [x Hx].
    rewrite Forall_forall in Hvalid.
    pose proof (Hvalid t (list_elem_of_lookup_2 _ _ _ Ht)) as [Hlo Hhi].
    destruct (lookup_lt_is_Some_2 contents (Z.to_nat t)
                ltac:(unfold vlen in Hhi; lia)) as [c Hc].
    assert (Htag : vec_at
              (replicate (Z.to_nat (Content_length other)) 0
                 ++ ((fun t => to8 (t + 1)) <$> tags))
              (Content_length other + i) = Some (t + 1)).
    { rewrite vec_at_app_r by (try lia; rewrite vlen_replicate; lia).
      rewrite list_lookup_fmap, Ht. cbn [fmap option_fmap option_map].
      f_equal. rewrite to8_small; lia. }
    assert (Hindex : vec_at
              (seqZ 0 (Content_length other)
                 ++ take (List.length tags) index)
              (Content_length other + i) = Some x).
    { rewrite vec_at_app_r by (try lia; rewrite vlen_seqZ; lia).
      rewrite lookup_take_lt by (unfold vlen in *; lia). exact Hx. }
    rewrite <- (vec_at_nonneg tags i) in Ht by lia.
    rewrite <- (vec_at_nonneg index i) in Hx by lia.
    rewrite (union_getitem_at_arm _ _ _ _ _ _ _ (t + 1) x c Htag Hindex
               ltac:(lia)).
    + rewrite (union_getitem_at_arm _ _ _ _ _ _ _ t x c Ht Hx Hlo Hc).
      reflexivity.
    + replace (Z.to_nat (t + 1)) with (S (Z.to_nat t)) by lia. exact Hc.
Qed.

End Concatenation.

Lemma union_merge_is_concatenation_witness :
  let a := NumpyArray None ∅ "d" [2] [15; 25] in
  let b := NumpyArray None ∅ "?" [1] [1] in
  let c := NumpyArray None ∅ "l" [2] [3; 4] in
  let other := UnionArray8_64 None ∅ [0; 0] [1; 0] [c] in
  exists r,
    @Content_merge leaf_collaborators 1
      (UnionArray8_64 None ∅ [0; 1; 0] [0; 0; 1] [a; b]) other = Ok r /\
    Content_length r = 3 + 2 /\
    @Content_getitem_at_nowrap leaf_collaborators r (3 + 1) =
    @Content_getitem_at_nowrap leaf_collaborators other 1.
Proof.
  intros a b c other.
  destruct (@union_merge_is_concatenation leaf_collaborators 0 I64 None ∅
              [0; 1; 0] [0; 0; 1] [a; b] other)
    as (r & Hr & Hlen & _ & Htheirs).
  - discriminate.
  - unfold vlen. simpl. lia.
  - repeat constructor; unfold vlen; simpl; lia.
  - apply parameters_equal_true. reflexivity.
  - reflexivity.
  - subst other. cbv beta iota.
    split; [unfold vlen; simpl; lia|].
    repeat constructor; unfold vlen; simpl; lia.
  - subst other. unfold vlen. simpl. lia.
  - exists r. split; [exact Hr|]. split; [exact Hlen|].
    apply (Htheirs 1). subst other. cbn. unfold vlen. cbn. lia.
Defined.

Lemma union_reverse_merge_is_concatenation_witness :
  let a := NumpyArray None ∅ "d" [2] [15; 25] in
  let b := NumpyArray None ∅ "?" [1] [1] in
  let other := NumpyArray None ∅ "l" [2] [3; 4] in
  exists r,
    @Content_reverse_merge leaf_collaborators
      (UnionArray8_64 None ∅ [0; 1; 0] [0; 0; 1] [a; b]) other = Ok r /\
    Content_length r = 2 + 3 /\
    @Content_getitem_at_nowrap leaf_collaborators r (2 + 1) =
    @Content_getitem_at_nowrap leaf_collaborators
      (UnionArray8_64 None ∅ [0; 1; 0] [0; 0; 1] [a; b]) 1.
Proof.
  intros a b other.
  destruct (@union_reverse_merge_is_concatenation leaf_collaborators
              I64 None ∅ [0; 1; 0] [0; 0; 1] [a; b] other)
    as (r & Hr & Hlen & _ & Hmine).
  - simpl. lia.
  - unfold vlen. simpl. lia.
  - repeat constructor; unfold vlen; simpl; lia.
  - unfold vlen. simpl. lia.
  - exists r. split; [exact Hr|]. split; [exact Hlen|].
    apply (Hmine 1). cbn. unfold vlen. cbn. lia.
Defined.

(** ** getitem_at *)

Lemma wrap64_small (z : Z) : - 2 ^ 63 <= z < 2 ^ 63 -> wrap64 z = z.
Proof. intros Hz. unfold wrap64. rewrite Z.mod_small; lia. Qed.

Section GetitemAt.
Context `{Collaborators} `{Observers}.

(** X7: getitem_at of a RecordArray, a UnionArray or an UnmaskedArray of
    length len accepts exactly the positions -len <= at < len; a negative
    one counts from the end, so the element returned is the one at
    at mod len, and any other position raises "index out of range". *)
Theorem getitem_at_wraps (self : Content) (at_ : Z) :
  is_RecordArray self || is_UnionArray self || is_UnmaskedArray self = true ->
  0 <= Content_length self < 2 ^ 63 ->
  - 2 ^ 63 <= at_ < 2 ^ 63 ->
  Content_getitem_at self at_ =
    if (- Content_length self <=? at_) && (at_ <? Content_length self)
    then Content_getitem_at_nowrap self (at_ mod Content_length self)
    else Err (KernelError "index out of range").
Proof.
  intros Hclass Hlen Hat.
  assert (Hbody :
    (let len := Content_length self in
     let regular_at := if at_ <? 0 then wrap64 (at_ + len) else at_ in
     if negb ((0 <=? regular_at) && (regular_at <? len))
     then Err (KernelError "index out of range")
     else Content_getitem_at_nowrap self regular_at) =
    if (- Content_length self <=? at_) && (at_ <? Content_length self)
    then Content_getitem_at_nowrap self (at_ mod Content_length self)
    else Err (KernelError "index out of range")).
  { cbv zeta. set (len := Content_length self) in *.
    destruct (Z.ltb_spec at_ 0) as [Hneg|Hpos].
    - rewrite wrap64_small by lia.
      destruct (Z.leb_spec (- len) at_) as [Hin|Hout].
      + destruct (Z.ltb_spec at_ len); [|lia].
        destruct (Z.leb_spec 0 (at_ + len)); [|lia].
        destruct (Z.ltb_spec (at_ + len) len); [|lia].
        cbn [andb negb]. f_equal.
        apply Z.mod_unique with (q := -1); lia.
      + destruct (Z.leb_spec 0 (at_ + len)); [lia|]. reflexivity.
    - destruct (Z.leb_spec (- len) at_); [|lia].
      destruct (Z.leb_spec 0 at_); [|lia].
      destruct (Z.ltb_spec at_ len); cbn [andb negb]; [|reflexivity].
      rewrite Z.mod_small by lia. reflexivity. }
  destruct self; try discriminate Hclass; exact Hbody.
Qed.

End GetitemAt.

Lemma getitem_at_wraps_witness :
  let a := NumpyArray None ∅ "d" [2] [15; 25] in
  let b := RecordArray None ∅ [a] (Some ["x"]) 2 in
  let u := UnionArray8_64 None ∅ [0; 1; 0] [0; 0; 1] [b; b] in
  @Content_getitem_at leaf_collaborators leaf_observers u (-1) =
    Ok (Record b 1) /\
  @Content_getitem_at leaf_collaborators leaf_observers u 3 =
    Err (KernelError "index out of range").
Proof.
  intros a b u. split.
  - rewrite (@getitem_at_wraps leaf_collaborators leaf_observers u (-1));
      [reflexivity | reflexivity | cbn; unfold vlen; cbn; lia | lia].
  - rewrite (@getitem_at_wraps leaf_collaborators leaf_observers u 3);
      [reflexivity | reflexivity | cbn; unfold vlen; cbn; lia | lia].
Defined.

(** ** setitem_field *)

Lemma setitem_field_push {A} (what : A) (cs : list A) (w k : nat) :
  (k <= w)%nat ->
  mjoin (imap (fun i c => if Z.of_nat w =? Z.of_nat (k + i)
                          then [what; c] else [c]) cs)
  ++ (if Z.of_nat w >=? Z.of_nat (k + List.length cs) then [what] else [])
  = take (w - k) cs ++ what :: drop (w - k) cs.
Proof.
  revert k. induction cs as [|c cs IH]; intros k Hk.
  - cbn. rewrite Nat.add_0_r.
    destruct (Z.geb_spec (Z.of_nat w) (Z.of_nat k)); [|lia].
    rewrite take_nil, drop_nil. reflexivity.
  - cbn [imap mjoin list_join List.length]. rewrite Nat.add_0_r.
    rewrite <- app_assoc.
    destruct (Z.eqb_spec (Z.of_nat w) (Z.of_nat k)) as [Heq|Hne].
    + assert (w = k) by lia. subst w. rewrite Nat.sub_diag.
      cbn [take drop app]. f_equal. f_equal.
      assert (Hnone : forall (l : list A) (j : nat),
        mjoin (imap (fun i c0 => if Z.of_nat k =? Z.of_nat (S j + k + i)
                                 then [what; c0] else [c0]) l)
        ++ (if Z.of_nat k >=? Z.of_nat (S j + k + List.length l)
            then [what] else []) = l).
      { clear. intros l. induction l as [|x xs IHxs]; intros j.
        - cbn. destruct (Z.geb_spec (Z.of_nat k)
                           (Z.of_nat (S (j + k + 0)))); [lia|].
          reflexivity.
        - cbn [imap mjoin list_join List.length].
          destruct (Z.eqb_spec (Z.of_nat k) (Z.of_nat (S j + k + 0)));
            [lia|].
          rewrite <- app_assoc. cbn [app]. f_equal.
          etransitivity; [|apply (IHxs (S j))]. f_equal.
          + f_equal. apply imap_ext. intros i y _. cbn [compose].
            replace (S j + k + S i)%nat with (S (S j) + k + i)%nat by lia.
            reflexivity.
          + replace (S j + k + S (List.length xs))%nat
              with (S (S j) + k + List.length xs)%nat by lia.
            reflexivity. }
      etransitivity; [|apply (Hnone cs 0%nat)]. f_equal.
      * f_equal. apply imap_ext. intros i y _. cbn [compose].
        replace (k + S i)%nat with (1 + k + i)%nat by lia. reflexivity.
      * replace (k + S (List.length cs))%nat
          with (1 + k + List.length cs)%nat by lia.
        reflexivity.
    + assert (Hlt : (S k <= w)%nat) by lia.
      replace (w - k)%nat with (S (w - S k)) by lia.
      cbn [take drop app]. f_equal.
      etransitivity; [|apply (IH (S k) Hlt)]. f_equal.
      * f_equal. apply imap_ext. intros i y _. cbn [compose].
        replace (k + S i)%nat with (S k + i)%nat by lia. reflexivity.
      * replace (k + S (List.length cs))%nat
          with (S k + List.length cs)%nat by lia.
        reflexivity.
Qed.

Lemma setitem_field_contents_closed (contents_ : list Content) (where_ : Z)
    (what : Content) :
  0 <= where_ ->
  setitem_field_contents contents_ where_ what =
    take (Z.to_nat where_) contents_
      ++ what :: drop (Z.to_nat where_) contents_.
Proof.
  intros Hw. unfold setitem_field_contents, vlen.
  pose proof (setitem_field_push what contents_ (Z.to_nat where_) 0
                ltac:(lia)) as Hpush.
  rewrite Z2Nat.id in Hpush by lia. cbn [Nat.add] in Hpush.
  rewrite Nat.sub_0_r in Hpush. exact Hpush.
Qed.

Lemma mapM_lookup_seq {A B} (g : nat -> A -> B) (e : error)
    (pre l : list A) :
  mapM (fun i : nat =>
          match (pre ++ l) !! i with
          | Some x => Ok (g i x)
          | None => Err e
          end)
       (seq (List.length pre) (List.length l))
  = Ok (imap (fun i => g (List.length pre + i)%nat) l).
Proof.
  revert pre. induction l as [|x l IH]; intros pre; [reflexivity|].
  cbn [List.length seq mapM imap].
  rewrite list_lookup_middle by reflexivity. cbn [rbind].
  fold (mapM (fun i : nat =>
          match (pre ++ x :: l) !! i with
          | Some x => Ok (g i x)
          | None => Err e
          end)).
  pose proof (IH (pre ++ [x])) as IH'.
  rewrite <- app_assoc in IH'. cbn [app] in IH'.
  rewrite length_app in IH'. cbn [List.length] in IH'.
  rewrite Nat.add_1_r in IH'. rewrite IH'. cbn [rbind].
  rewrite Nat.add_0_r. f_equal. f_equal.
  apply imap_ext. intros i y _. cbn [compose]. f_equal. lia.
Qed.

Lemma setitem_field_recordlookup_closed (contents_ : list Content)
    (keys : list string) (where_ : Z) :
  0 <= where_ -> vlen keys = vlen contents_ ->
  setitem_field_recordlookup contents_ (Some keys) where_ =
    Ok (Some (take (Z.to_nat where_) keys
                ++ pretty where_ :: drop (Z.to_nat where_) keys)).
Proof.
  intros Hw Hlen. unfold setitem_field_recordlookup.
  assert (Hn : List.length contents_ = List.length keys)
    by (unfold vlen in Hlen; lia).
  rewrite Hn.
  rewrite (mapM_lookup_seq
             (fun i key => if where_ =? Z.of_nat i
                           then [pretty where_; key] else [key])
             (RuntimeError "vector::at out of range") [] keys).
  cbn [rbind List.length Nat.add]. f_equal. f_equal.
  pose proof (setitem_field_push (pretty where_) keys (Z.to_nat where_) 0
                ltac:(lia)) as Hpush.
  rewrite Z2Nat.id in Hpush by lia. cbn [Nat.add] in Hpush.
  rewrite Nat.sub_0_r in Hpush. unfold vlen. rewrite Hn. exact Hpush.
Qed.

Lemma minlength_with_exact (cs : list Content) (n : Z) :
  0 <= n ->
  Forall (fun c => n <= Content_length c) cs ->
  Exists (fun c => Content_length c = n) cs ->
  minlength cs = n.
Proof.
  intros Hn Hall Hex. destruct cs as [|x l]; [inversion Hex|].
  destruct (minlength_is_minimum x l) as [Hmin Hhit].
  - eapply Forall_impl; [exact Hall|]. cbn beta. intros c Hc. lia.
  - apply Exists_exists in Hex as (c & Hc & Hlen).
    apply Exists_exists in Hhit as (d & Hd & Hmind).
    rewrite Forall_forall in Hmin, Hall.
    pose proof (Hmin c Hc). pose proof (Hall d Hd). lia.
Qed.

(** X8: setitem_field(where, what) with a position. On a record whose
    fields are at least as long as the record, it raises for a negative
    position and for a value whose length is not the length of the record;
    otherwise the value is inserted before the field at that position (after
    the last field when the position is beyond it), its key is the decimal
    position, the other fields keep their order, and the length of the
    record is unchanged. *)
Theorem setitem_field_inserts (ids : IdentitiesPtr) (p : Parameters)
    (contents_ : list Content) (recordlookup_ : option (list string))
    (length_ : Z) (where_ : Z) (what : Content) :
  0 <= length_ ->
  Forall (fun c => length_ <= Content_length c) contents_ ->
  match recordlookup_ with
  | Some keys => vlen keys = vlen contents_
  | None => True
  end ->
  RecordArray_setitem_field ids p contents_ recordlookup_ length_
    where_ what =
  if where_ <? 0
  then Err (InvalidArgument "where must be non-negative")
  else if negb (Content_length what =? length_)
  then Err (InvalidArgument
              (setitem_field_length_message (Content_length what) length_))
  else Ok (RecordArray ids p
             (take (Z.to_nat where_) contents_
                ++ what :: drop (Z.to_nat where_) contents_)
             ((fun keys => take (Z.to_nat where_) keys
                             ++ pretty where_ :: drop (Z.to_nat where_) keys)
                <$> recordlookup_)
             length_).
Proof.
  intros Hlen Hfields Hkeys. unfold RecordArray_setitem_field.
  destruct (Z.ltb_spec where_ 0) as [|Hw]; [reflexivity|].
  destruct (Z.eqb_spec (Content_length what) length_) as [Hwhat|];
    [|reflexivity].
  cbn [negb]. rewrite setitem_field_contents_closed by exact Hw.
  assert (Hmin : minlength (take (Z.to_nat where_) contents_
                   ++ what :: drop (Z.to_nat where_) contents_) = length_).
  { apply minlength_with_exact; [exact Hlen | |].
    - apply Forall_app. split; [apply Forall_take; exact Hfields|].
      constructor; [lia | apply Forall_drop; exact Hfields].
    - apply Exists_app. right. left. exact Hwhat. }
  assert (Hcount : vlen (take (Z.to_nat where_) contents_
                     ++ what :: drop (Z.to_nat where_) contents_)
                   = vlen contents_ + 1).
  { unfold vlen. rewrite length_app. cbn [List.length].
    rewrite length_take, length_drop. lia. }
  destruct recordlookup_ as [keys|].
  - rewrite setitem_field_recordlookup_closed by assumption.
    cbn [rbind fmap option_fmap option_map].
    unfold RecordArray_new4, RecordArray_new. rewrite Hmin, Hcount.
    assert (Hk : vlen (take (Z.to_nat where_) keys
                   ++ pretty where_ :: drop (Z.to_nat where_) keys)
                 = vlen contents_ + 1).
    { unfold vlen in *. rewrite length_app. cbn [List.length].
      rewrite length_take, length_drop. lia. }
    rewrite Hk, Z.eqb_refl. reflexivity.
  - cbn [setitem_field_recordlookup rbind fmap option_fmap option_map].
    unfold RecordArray_new4, RecordArray_new. rewrite Hmin. reflexivity.
Qed.

Lemma setitem_field_inserts_witness :
  let x := NumpyArray None ∅ "d" [3] [15; 25; 35] in
  let y := NumpyArray None ∅ "?" [2] [1; 0] in
  let z := NumpyArray None ∅ "l" [2] [7; 8] in
  RecordArray_setitem_field None ∅ [x; y] (Some ["x"; "y"]) 2 1 z =
    Ok (RecordArray None ∅ [x; z; y] (Some ["x"; "1"; "y"]) 2) /\
  RecordArray_setitem_field None ∅ [x; y] (Some ["x"; "y"]) 2 5 z =
    Ok (RecordArray None ∅ [x; y; z] (Some ["x"; "y"; "5"]) 2) /\
  is_invalid_argument
    (RecordArray_setitem_field None ∅ [x; y] (Some ["x"; "y"]) 2 1 x) = true.
Proof.
  intros x y z.
  assert (Hfields : Forall (fun c => 2 <= Content_length c) [x; y])
    by (repeat constructor; cbn; lia).
  split; [|split].
  - rewrite (setitem_field_inserts None ∅ [x; y] (Some ["x"; "y"]) 2 1 z
               ltac:(lia) Hfields eq_refl).
    reflexivity.
  - rewrite (setitem_field_inserts None ∅ [x; y] (Some ["x"; "y"]) 2 5 z
               ltac:(lia) Hfields eq_refl).
    reflexivity.
  - rewrite (setitem_field_inserts None ∅ [x; y] (Some ["x"; "y"]) 2 1 x
               ltac:(lia) Hfields eq_refl).
    reflexivity.
Defined.

Section SetitemFieldKey.
Context `{Collaborators} `{Observers}.

(** X9: setitem_field(where, what) with a key. On a record whose fields are
    at least as long as the record, it raises for a value whose length is
    not the length of the record; otherwise the value becomes the last
    field under the key where, after the keys of the record (those of
    init_recordlookup for a tuple, which becomes a record with keys), and
    the length of the record is unchanged. No field is replaced, also when
    where is already a key. *)
Theorem setitem_field_key_appends (ids : IdentitiesPtr) (p : Parameters)
    (contents_ : list Content) (recordlookup_ : option (list string))
    (length_ : Z) (where_ : string) (what : Content) :
  0 <= length_ ->
  Forall (fun c => length_ <= Content_length c) contents_ ->
  vlen (default (util_init_recordlookup (vlen contents_)) recordlookup_)
    = vlen contents_ ->
  RecordArray_setitem_field_key ids p contents_ recordlookup_ length_
    where_ what =
  if negb (Content_length what =? length_)
  then Err (InvalidArgument
              (setitem_field_length_message (Content_length what) length_))
  else Ok (RecordArray ids p (contents_ ++ [what])
             (Some (default (util_init_recordlookup (vlen contents_))
                      recordlookup_ ++ [where_]))
             length_).
Proof.
  intros Hlen Hfields Hkeys. unfold RecordArray_setitem_field_key.
  destruct (Z.eqb_spec (Content_length what) length_) as [Hwhat|];
    [|reflexivity].
  cbn [negb].
  assert (Hmin : minlength (contents_ ++ [what]) = length_).
  { apply minlength_with_exact; [exact Hlen | |].
    - apply Forall_app. split; [exact Hfields|]. constructor; [lia|].
      constructor.
    - apply Exists_app. right. left. exact Hwhat. }
  unfold RecordArray_new4, RecordArray_new. rewrite Hmin.
  assert (Hk : forall keys : list string,
            vlen keys = vlen contents_ ->
            (vlen (keys ++ [where_]) =? vlen (contents_ ++ [what])) = true).
  { intros keys Hkeys'. rewrite !vlen_app, Hkeys'. apply Z.eqb_refl. }
  destruct recordlookup_ as [keys|]; cbv [default from_option id] in *;
    rewrite (Hk _ Hkeys); reflexivity.
Qed.

End SetitemFieldKey.

Lemma setitem_field_key_appends_witness :
  let x := NumpyArray None ∅ "d" [3] [15; 25; 35] in
  let y := NumpyArray None ∅ "?" [2] [1; 0] in
  let z := NumpyArray None ∅ "l" [2] [7; 8] in
  @RecordArray_setitem_field_key leaf_observers
    None ∅ [x; y] (Some ["x"; "y"]) 2 "x" z =
    Ok (RecordArray None ∅ [x; y; z] (Some ["x"; "y"; "x"]) 2) /\
  @RecordArray_setitem_field_key leaf_observers
    None ∅ [x; y] None 2 "z" z =
    Ok (RecordArray None ∅ [x; y; z] (Some ["0"; "1"; "z"]) 2).
Proof.
  intros x y z.
  assert (Hfields : Forall (fun c => 2 <= Content_length c) [x; y])
    by (repeat constructor; cbn; lia).
  split.
  - rewrite (@setitem_field_key_appends leaf_observers
               None ∅ [x; y] (Some ["x"; "y"]) 2 "x" z
               ltac:(lia) Hfields eq_refl).
    reflexivity.
  - rewrite (@setitem_field_key_appends leaf_observers
               None ∅ [x; y] None 2 "z" z
               ltac:(lia) Hfields eq_refl).
    reflexivity.
Defined.

(** ** keys of a union *)

Lemma existsb_eqb_elem_of (key : string) (tmp : list string) :
  existsb (String.eqb key) tmp = true <-> key ∈ tmp.
Proof.
  rewrite existsb_exists. split.
  - intros (x & Hx & Heq). apply String.eqb_eq in Heq. subst x.
    apply list_elem_of_In. exact Hx.
  - intros Hin. exists key. split; [apply list_elem_of_In; exact Hin|].
    apply String.eqb_refl.
Qed.

Lemma keys_erase_missing_from (tmp pre suf : list string) :
  fold_left (fun (out : list string) (j : nat) =>
               match out !! j with
               | Some key =>
                   if existsb (String.eqb key) tmp then out
                   else delete j out
               | None => out
               end)
            (rev (seq 0 (List.length pre))) (pre ++ suf)
  = filter (fun key => key ∈ tmp) pre ++ suf.
Proof.
  revert suf. induction pre as [|x pre IH] using rev_ind; intros suf;
    [reflexivity|].
  rewrite length_app. cbn [List.length]. rewrite Nat.add_1_r, seq_S.
  cbn [Nat.add]. rewrite rev_app_distr. cbn [rev app fold_left].
  rewrite <- app_assoc. cbn [app].
  rewrite list_lookup_middle by reflexivity.
  rewrite filter_app.
  destruct (existsb (String.eqb x) tmp) eqn:Hfound.
  - apply existsb_eqb_elem_of in Hfound.
    rewrite IH. rewrite filter_cons_True by exact Hfound.
    rewrite filter_nil, <- app_assoc. reflexivity.
  - assert (Hnot : x ∉ tmp).
    { intros Hin. apply existsb_eqb_elem_of in Hin. congruence. }
    replace (delete (List.length pre) (pre ++ x :: suf)) with (pre ++ suf).
    + rewrite IH. rewrite filter_cons_False by exact Hnot.
      rewrite filter_nil, app_nil_r. reflexivity.
    + clear. induction pre as [|y pre IHp]; [reflexivity|].
      cbn [app List.length]. cbn. f_equal. exact IHp.
Qed.

Lemma keys_erase_missing_filter (tmp out : list string) :
  keys_erase_missing tmp out = filter (fun key => key ∈ tmp) out.
Proof.
  unfold keys_erase_missing.
  pose proof (keys_erase_missing_from tmp out []) as Hfrom.
  rewrite !app_nil_r in Hfrom. exact Hfrom.
Qed.

Section Keys.
Context `{Collaborators} `{Observers}.

(** X10: the keys of a union are the keys of its first arm that every other
    arm has too, in the order of the first arm. *)
Theorem union_keys_intersection (w : IndexWidth) (ids : IdentitiesPtr)
    (p : Parameters) (tags index : list Z) (first : Content)
    (rest : list Content) :
  Content_keys (UnionArray w ids p tags index (first :: rest)) =
    filter (fun key => Forall (fun c => key ∈ Content_keys c) rest)
           (Content_keys first) /\
  (forall key,
     key ∈ Content_keys (UnionArray w ids p tags index (first :: rest)) <->
     forall c, c ∈ first :: rest -> key ∈ Content_keys c).
Proof.
  assert (Hclosed :
    Content_keys (UnionArray w ids p tags index (first :: rest)) =
    filter (fun key => Forall (fun c => key ∈ Content_keys c) rest)
           (Content_keys first)).
  { cbn [Content_keys]. generalize (Content_keys first) as out.
    induction rest as [|c cs IH]; intros out.
    - induction out as [|key out IHout]; [reflexivity|].
      rewrite filter_cons_True by constructor. f_equal. exact IHout.
    - rewrite IH, keys_erase_missing_filter.
      rewrite list_filter_filter. apply list_filter_iff.
      intros key. rewrite Forall_cons. tauto. }
  split; [exact Hclosed|].
  intros key. rewrite Hclosed, list_elem_of_filter, Forall_forall.
  split.
  - intros [Hrest Hfirst] c Hc.
    apply elem_of_cons in Hc as [->|Hc]; [exact Hfirst | apply Hrest, Hc].
  - intros Hall. split.
    + intros c Hc. apply Hall. right. exact Hc.
    + apply Hall. left.
Qed.

End Keys.

(** ** purelist_depth of a union *)

Section Depth.
Context `{Collaborators} `{Observers}.

(** X11: the purelist_depth of a union is the depth its arms have in
    common, and -1 when two arms differ in depth or there is no arm. *)
Theorem union_purelist_depth (w : IndexWidth) (ids : IdentitiesPtr)
    (p : Parameters) (tags index : list Z) (contents : list Content) :
  Content_purelist_depth (UnionArray w ids p tags index contents) =
    match contents with
    | [] => -1
    | first :: rest =>
        if forallb (fun c => Content_purelist_depth c
                               =? Content_purelist_depth first) rest
        then Content_purelist_depth first
        else -1
    end.
Proof.
  cbn [Content_purelist_depth].
  destruct contents as [|first rest]; [reflexivity|].
  generalize (Content_purelist_depth first) as out.
  induction rest as [|c cs IH]; intros out; [reflexivity|].
  cbn [forallb]. rewrite (Z.eqb_sym (Content_purelist_depth c) out).
  destruct (out =? Content_purelist_depth c); cbn [negb andb];
    [apply IH | reflexivity].
Qed.

End Depth.

(** ** validityerror of a record *)

Section Validity.
Context `{Collaborators} `{Observers}.

(** X12: validityerror of a record returns the empty string exactly when
    every field is at least as long as the record and validityerror of
    every field, called with the path extended by .field(i), returns the
    empty string; when a field is too short, the message names the first
    such field by its position, whatever the fields contain. *)
Theorem record_validityerror_empty (ids : IdentitiesPtr) (p : Parameters)
    (contents : list Content) (recordlookup : option (list string))
    (length_ : Z) (path : string) :
  (Content_validityerror
     (RecordArray ids p contents recordlookup length_) path = "" <->
   Forall (fun c => length_ <= Content_length c) contents /\
   (forall (i : nat) (c : Content),
      contents !! i = Some c ->
      Content_validityerror c
        (path +:+ ".field(" +:+ pretty (Z.of_nat i) +:+ ")") = "")) /\
  (forall (j : nat) (c : Content),
     contents !! j = Some c -> Content_length c < length_ ->
     (forall (k : nat) (x : Content),
        contents !! k = Some x -> (k < j)%nat ->
        length_ <= Content_length x) ->
     Content_validityerror
       (RecordArray ids p contents recordlookup length_) path =
     "at " +:+ path +:+ " (RecordArray): len(field("
     +:+ pretty (Z.of_nat j) +:+ ")) < len(recordarray)").
Proof.
  cbn [Content_validityerror].
  assert (Hloop : forall (cs : list Content) (k : nat),
    (fix go (cs : list Content) (i : nat) : string :=
       match cs with
       | [] => ""
       | content :: cs' =>
           let sub :=
             Content_validityerror content
               (path +:+ ".field(" +:+ pretty (Z.of_nat i) +:+ ")") in
           if negb (String.eqb sub "") then sub else go cs' (S i)
       end) cs k = "" <->
    (forall (i : nat) (c : Content),
       cs !! i = Some c ->
       Content_validityerror c
         (path +:+ ".field(" +:+ pretty (Z.of_nat (k + i)) +:+ ")") = "")).
  { induction cs as [|c cs IH]; intros k.
    - split; [intros _ i c Hc; discriminate Hc | reflexivity].
    - cbv zeta.
      destruct (String.eqb_spec
                  (Content_validityerror c
                     (path +:+ ".field(" +:+ pretty (Z.of_nat k) +:+ ")"))
                  "") as [Hsub|Hsub]; cbn [negb].
      + rewrite IH. split.
        * intros Hrest [|i] x Hx.
          -- inversion Hx. subst x. rewrite Nat.add_0_r. exact Hsub.
          -- replace (k + S i)%nat with (S k + i)%nat by lia.
             apply Hrest. exact Hx.
        * intros Hall i x Hx.
          replace (S k + i)%nat with (k + S i)%nat by lia.
          apply (Hall (S i)). exact Hx.
      + split; [intros Hempty; contradiction|].
        intros Hall. exfalso. apply Hsub.
        rewrite <- (Nat.add_0_r k). apply (Hall 0%nat). reflexivity. }
  destruct (list_find (fun c => Content_length c < length_) contents)
    as [[j c]|] eqn:Hfind.
  - apply list_find_Some in Hfind as (Hj & Hshort & Hfirst). split.
    + split; [intros Hempty; discriminate Hempty|].
      intros [Hall _]. rewrite Forall_forall in Hall.
      pose proof (Hall c (list_elem_of_lookup_2 _ _ _ Hj)). lia.
    + intros i x Hx Hxshort Hbefore.
      assert (i = j) as ->; [|reflexivity].
      destruct (lt_eq_lt_dec i j) as [[Hlt|Heq]|Hgt]; [|exact Heq|].
      * exfalso. exact (Hfirst i x Hx Hlt Hxshort).
      * exfalso. pose proof (Hbefore j c Hj Hgt). lia.
  - apply list_find_None in Hfind. split.
    + rewrite (Hloop contents 0%nat). cbn [Nat.add]. split.
      * intros Hall. split; [|exact Hall].
        eapply Forall_impl; [exact Hfind|]. cbn beta. intros; lia.
      * intros [_ Hall]. exact Hall.
    + intros i c Hc Hshort. rewrite Forall_forall in Hfind.
      exfalso. apply (Hfind c (list_elem_of_lookup_2 _ _ _ Hc)). exact Hshort.
Qed.

End Validity.

(** ** mergeable of two records *)

Lemma std_sort_insert_Permutation (x : string) (l : list string) :
  std_sort_insert x l ≡ₚ x :: l.
Proof.
  induction l as [|y ys IH]; [reflexivity|].
  cbn [std_sort_insert]. destruct (String.leb x y); [reflexivity|].
  fold (std_sort_insert x ys). rewrite IH. apply Permutation_swap.
Qed.

Lemma std_sort_Permutation (l : list string) : std_sort l ≡ₚ l.
Proof.
  induction l as [|x l IH]; [reflexivity|].
  cbn [std_sort fold_right]. fold (std_sort l).
  rewrite std_sort_insert_Permutation, IH. reflexivity.
Qed.

Lemma foldM_all_true {A} (g : A -> result bool) (l : list A) :
  foldM (fun (acc : bool) (x : A) => if acc then g x else Ok false) l true
    = Ok true ->
  Forall (fun x => g x = Ok true) l.
Proof.
  assert (Hfalse : forall l' : list A,
            foldM (fun (acc : bool) (x : A) =>
                     if acc then g x else Ok false) l' false = Ok false).
  { induction l' as [|x l' IH]; [reflexivity|]. cbn [foldM rbind].
    exact IH. }
  induction l as [|x l IH]; intros Hfold; [constructor|].
  cbn [foldM] in Hfold.
  fold (foldM (fun (acc : bool) (x : A) =>
                 if acc then g x else Ok false)) in Hfold.
  destruct (g x) as [[|]|] eqn:Hg; cbn [rbind] in Hfold.
  - constructor; [exact Hg | apply IH; exact Hfold].
  - rewrite Hfalse in Hfold. discriminate Hfold.
  - discriminate Hfold.
Qed.

Section RecordMergeable.
Context `{Collaborators}.

(** X13: when mergeable of two records answers true, the parameters are
    equal and the two have the same fields: two tuples have the same number
    of fields and are mergeable position by position, two records with keys
    have the same keys up to order and are mergeable key by key; a tuple and
    a record with keys are never mergeable. *)
Theorem record_mergeable_same_fields (fuel : nat)
    (ids ids' : IdentitiesPtr) (p p' : Parameters)
    (cs cs' : list Content) (rl rl' : option (list string))
    (n n' : Z) (mergebool : bool) :
  Content_mergeable (S fuel) (RecordArray ids p cs rl n)
    (RecordArray ids' p' cs' rl' n') mergebool = Ok true ->
  p = p' /\
  match rl, rl' with
  | None, None =>
      vlen cs = vlen cs' /\
      (forall (i : nat) (a b : Content),
         cs !! i = Some a -> cs' !! i = Some b ->
         Content_mergeable fuel a b mergebool = Ok true)
  | Some keys, Some keys' =>
      keys ≡ₚ keys' /\
      (forall key, key ∈ keys ->
         exists a b,
           RecordArray_field_key cs rl key = Ok a /\
           RecordArray_field_key cs' rl' key = Ok b /\
           Content_mergeable fuel a b mergebool = Ok true)
  | _, _ => False
  end.
Proof.
  cbn [Content_mergeable]. unfold RecordArray_mergeable.
  cbn [Content_parameters]. unfold parameters_equal.
  destruct (bool_decide_reflect (p = p')) as [Hp|]; [|discriminate].
  cbn [negb]. intros Hm. split; [exact Hp|].
  destruct rl as [keys|], rl' as [keys'|];
    cbn [bool_decide negb andb] in Hm.
  - rewrite !bool_decide_true in Hm by (eexists; reflexivity).
    cbn [negb andb] in Hm. unfold RecordArray_keys, util_keys in Hm.
    destruct (bool_decide_reflect (std_sort keys = std_sort keys'))
      as [Hkeys|]; [|discriminate].
    split.
    + rewrite <- (std_sort_Permutation keys), Hkeys.
      apply std_sort_Permutation.
    + unfold RecordArray_mergeable_keys in Hm.
      apply foldM_all_true in Hm. rewrite Forall_forall in Hm.
      intros key Hkey.
      assert (Hin : key ∈ std_sort keys)
        by (rewrite std_sort_Permutation; exact Hkey).
      specialize (Hm key Hin). cbn beta in Hm.
      destruct (RecordArray_field_key cs (Some keys) key) as [a|];
        [|discriminate].
      destruct (RecordArray_field_key cs' (Some keys') key) as [b|];
        [|discriminate].
      cbn [rbind] in Hm. exists a, b. auto.
  - rewrite bool_decide_true in Hm by (eexists; reflexivity).
    rewrite bool_decide_false in Hm by (intros [? ?]; discriminate).
    cbn [negb andb] in Hm. discriminate Hm.
  - rewrite bool_decide_false in Hm by (intros [? ?]; discriminate).
    rewrite bool_decide_true in Hm by (eexists; reflexivity).
    cbn [negb andb] in Hm. discriminate Hm.
  - rewrite !bool_decide_false in Hm by (intros [? ?]; discriminate).
    cbn [negb andb] in Hm.
    destruct (Z.eqb_spec (vlen cs) (vlen cs')) as [Hcount|];
      [|discriminate].
    split; [exact Hcount|].
    unfold RecordArray_mergeable_tuple in Hm.
    apply foldM_all_true in Hm. rewrite Forall_forall in Hm.
    intros i a b Ha Hb.
    assert (Hi : i ∈ seq 0 (List.length cs)).
    { apply elem_of_seq. apply lookup_lt_Some in Ha. lia. }
    specialize (Hm i Hi). cbn beta in Hm.
    unfold RecordArray_field in Hm.
    apply lookup_lt_Some in Ha as Hlt.
    destruct (Z.geb_spec (Z.of_nat i) (vlen cs));
      [unfold vlen in *; lia|].
    destruct (Z.geb_spec (Z.of_nat i) (vlen cs'));
      [unfold vlen in *; lia|].
    rewrite !vec_at_nat, Ha, Hb in Hm. cbn [rbind] in Hm. exact Hm.
Qed.

End RecordMergeable.

Lemma record_mergeable_same_fields_witness :
  let x := NumpyArray None ∅ "d" [2] [15; 25] in
  let y := NumpyArray None ∅ "?" [2] [1; 0] in
  ["x"; "y"] ≡ₚ ["y"; "x"] /\
  @Content_mergeable leaf_collaborators 1 x x false = Ok true.
Proof.
  intros x y.
  assert (Hm : @Content_mergeable leaf_collaborators 2
                 (RecordArray None ∅ [x; y] (Some ["x"; "y"]) 2)
                 (RecordArray None ∅ [y; x] (Some ["y"; "x"]) 2) false
               = Ok true) by (vm_compute; reflexivity).
  destruct (@record_mergeable_same_fields leaf_collaborators 1
              _ _ _ _ _ _ _ _ _ _ _ Hm)
    as [_ [Hperm Hfields]].
  split; [exact Hperm|].
  destruct (Hfields "x") as (a & b & Ha & Hb & Hab); [left|].
  inversion Ha. inversion Hb. subst a b. exact Hab.
Defined.

(** ** getitem_range_nowrap of a union *)

Lemma vec_at_range (l : list Z) (start stop i : Z) :
  0 <= start -> 0 <= i < stop - start ->
  vec_at (Index_getitem_range_nowrap l start stop) i = vec_at l (start + i).
Proof.
  intros Hs Hi. unfold Index_getitem_range_nowrap.
  rewrite !vec_at_nonneg by lia.
  rewrite lookup_take_lt by lia. rewrite lookup_drop. f_equal. lia.
Qed.

Section Range.
Context `{Collaborators}.

(** X14: getitem_range_nowrap(start, stop) of a union, for a window inside
    its rows, is a union over the same arms with stop - start rows whose
    row i is row start + i of the union. *)
Theorem union_range_is_window (w : IndexWidth) (ids : IdentitiesPtr)
    (p : Parameters) (tags index : list Z) (contents : list Content)
    (start stop : Z) :
  contents <> [] ->
  vlen tags <= vlen index ->
  0 <= start <= stop -> stop <= vlen tags ->
  exists ids' tags' index',
    Content_getitem_range_nowrap
      (UnionArray w ids p tags index contents) start stop
      = Ok (UnionArray w ids' p tags' index' contents) /\
    vlen tags' = stop - start /\
    (forall i, 0 <= i < stop - start ->
       Content_getitem_at_nowrap
         (UnionArray w ids' p tags' index' contents) i =
       Content_getitem_at_nowrap
         (UnionArray w ids p tags index contents) (start + i)).
Proof.
  intros Hne Hidx Hrange Hstop. cbn [Content_getitem_range_nowrap].
  eexists _, _, _. split; [|split].
  - apply UnionArray_new_ok; [exact Hne|].
    unfold Index_getitem_range_nowrap, vlen in *.
    rewrite !length_take, !length_drop. lia.
  - unfold Index_getitem_range_nowrap, vlen in *.
    rewrite length_take, length_drop. lia.
  - intros i Hi. apply union_getitem_at_same_row;
      apply vec_at_range; lia.
Qed.

End Range.

Lemma union_range_is_window_witness :
  let a := RecordArray None ∅ [] None 2 in
  let b := RecordArray None ∅ [] (Some []) 1 in
  let u := UnionArray8_64 None ∅ [0; 1; 0] [0; 0; 1] [a; b] in
  exists r,
    @Content_getitem_range_nowrap leaf_collaborators u 1 3 = Ok r /\
    @Content_getitem_at_nowrap leaf_collaborators r 1 = Ok (Record a 1).
Proof.
  intros a b u.
  destruct (@union_range_is_window leaf_collaborators I64 None ∅
              [0; 1; 0] [0; 0; 1] [a; b] 1 3)
    as (ids' & tags' & index' & Hr & _ & Hrows).
  - discriminate.
  - unfold vlen. simpl. lia.
  - lia.
  - unfold vlen. simpl. lia.
  - eexists. split; [exact Hr|].
    rewrite (Hrows 1) by lia. reflexivity.
Defined.

(** ** simplify_uniontype of a union that is already simple *)

Lemma find_mergeable_none (mergeable : Content -> Content -> result bool)
    (x : Content) (cs : list Content) (k : nat) :
  Forall (fun c => mergeable c x = Ok false) cs ->
  find_mergeable mergeable x cs k = Ok None.
Proof.
  revert k. induction cs as [|c cs IH]; intros k Hall; [reflexivity|].
  inversion Hall as [|? ? Hc Hcs]; subst.
  cbn [find_mergeable]. rewrite Hc. cbn [rbind].
  apply IH. exact Hcs.
Qed.

Lemma simplify_one_next (tags index : list Z) (m : Z) :
  vlen tags <= vlen index -> 0 <= m <= 127 ->
  awkward_unionarray_simplify_one_to8_64
    ((fun t => if t <? m then t else 0) <$> tags)
    (zip_with (fun t x => if t <? m then x else 0) tags index)
    tags index m m (vlen tags) 0
  = ((fun t => if t <? m + 1 then t else 0) <$> tags,
     zip_with (fun t x => if t <? m + 1 then x else 0) tags index).
Proof.
  intros Hidx Hm. unfold awkward_unionarray_simplify_one_to8_64.
  assert (Hrow : forall (i : nat) (t : Z),
            tags !! i = Some t -> exists x, index !! i = Some x).
  { intros i t Ht. apply lookup_lt_Some in Ht.
    apply lookup_lt_is_Some_2. unfold vlen in Hidx. lia. }
  f_equal.
  - apply list_eq. intros i.
    rewrite list_lookup_imap, !list_lookup_fmap.
    destruct (tags !! i) as [t|] eqn:Ht; [|reflexivity].
    destruct (Hrow i t Ht) as [x Hx]. rewrite Hx.
    cbn [fmap option_fmap option_map].
    apply lookup_lt_Some in Ht as Hlt.
    destruct (Z.ltb_spec (Z.of_nat i) (vlen tags));
      [|unfold vlen in *; lia].
    f_equal.
    destruct (Z.eqb_spec t m) as [->|Hne].
    + rewrite to8_small by lia.
      destruct (Z.ltb_spec m (m + 1)); [reflexivity | lia].
    + destruct (Z.ltb_spec t m), (Z.ltb_spec t (m + 1));
        try reflexivity; lia.
  - apply list_eq. intros i.
    rewrite list_lookup_imap, !lookup_zip_with.
    destruct (tags !! i) as [t|] eqn:Ht; [|reflexivity].
    destruct (Hrow i t Ht) as [x Hx]. rewrite Hx.
    cbn [mbind option_bind fmap option_fmap option_map].
    apply lookup_lt_Some in Ht as Hlt.
    destruct (Z.ltb_spec (Z.of_nat i) (vlen tags));
      [|unfold vlen in *; lia].
    f_equal.
    destruct (Z.eqb_spec t m) as [->|Hne].
    + cbn [default from_option id].
      destruct (Z.ltb_spec m (m + 1)); [lia | lia].
    + cbn [default from_option id].
      destruct (Z.ltb_spec t m), (Z.ltb_spec t (m + 1));
        try reflexivity; lia.
Qed.

Section SimplifySimple.
Context `{Collaborators}.

Lemma simplify_arm_flat
    (mergeable : Content -> Content -> result bool)
    (merge : Content -> Content -> result Content)
    (tags_ index_ : list Z) (len : Z)
    (st : list Z * list Z * list Content) (i : nat) (content : Content) :
  is_UnionArray content = false ->
  simplify_arm mergeable merge tags_ index_ len st (i, content) =
  simplify_step mergeable merge
    (fun totags toindex towhich base =>
       awkward_unionarray_simplify_one_to8_64 totags toindex
         tags_ index_ towhich (Z.of_nat i) len base)
    st content.
Proof.
  intros Hflat. destruct content; try reflexivity; discriminate Hflat.
Qed.

Lemma simplify_fold_simple
    (mergeable : Content -> Content -> result bool)
    (merge : Content -> Content -> result Content)
    (tags index : list Z) (suf pre : list Content) :
  vlen tags <= vlen index ->
  vlen (pre ++ suf) <= 127 ->
  Forall (fun c => is_UnionArray c = false) suf ->
  (forall (i j : nat) (ci cj : Content),
     (i < j)%nat ->
     (pre ++ suf) !! i = Some ci -> (pre ++ suf) !! j = Some cj ->
     mergeable ci cj = Ok false) ->
  foldM (simplify_arm mergeable merge tags index (vlen tags))
        (zip (seq (List.length pre) (List.length suf)) suf)
        ((fun t => if t <? vlen pre then t else 0) <$> tags,
         zip_with (fun t x => if t <? vlen pre then x else 0) tags index,
         pre)
  = Ok ((fun t => if t <? vlen (pre ++ suf) then t else 0) <$> tags,
        zip_with (fun t x => if t <? vlen (pre ++ suf) then x else 0)
                 tags index,
        pre ++ suf).
Proof.
  intros Hidx. revert pre.
  induction suf as [|c suf IH]; intros pre Hcap Hflat Hdistinct.
  - rewrite app_nil_r. reflexivity.
  - inversion Hflat as [|? ? Hc Hsuf]; subst.
    cbn [List.length seq zip zip_with foldM].
    fold (foldM (simplify_arm mergeable merge tags index (vlen tags))).
    rewrite simplify_arm_flat by exact Hc.
    unfold simplify_step.
    rewrite (find_mergeable_none mergeable c pre 0).
    + cbn [rbind].
      pose proof (vlen_nonneg pre) as Hpre.
      assert (Hm : 0 <= vlen pre <= 127).
      { rewrite vlen_app in Hcap. pose proof (vlen_nonneg (c :: suf)). lia. }
      replace (Z.of_nat (List.length pre)) with (vlen pre) by reflexivity.
      rewrite (simplify_one_next tags index (vlen pre) Hidx Hm).
      cbn [rbind].
      pose proof (IH (pre ++ [c])) as IH'.
      rewrite <- app_assoc in IH'. cbn [app] in IH'.
      rewrite length_app in IH'. cbn [List.length] in IH'.
      rewrite Nat.add_1_r in IH'.
      assert (Hv : vlen (pre ++ [c]) = vlen pre + 1)
        by (rewrite vlen_app; reflexivity).
      rewrite Hv in IH'.
      apply IH'; assumption.
    + apply Forall_forall. intros ci Hci.
      apply list_elem_of_lookup_1 in Hci as [i Hi].
      apply (Hdistinct i (List.length pre) ci c).
      * apply lookup_lt_Some in Hi. exact Hi.
      * rewrite lookup_app_l by (apply lookup_lt_Some in Hi; exact Hi).
        exact Hi.
      * apply list_lookup_middle. reflexivity.
Qed.

Lemma simplify_canonical_simple (fuel : nat) (tags index : list Z)
    (contents : list Content) (mergebool : bool) :
  vlen tags <= vlen index ->
  Forall (fun t => 0 <= t < vlen contents) tags ->
  vlen contents <= 127 ->
  Forall (fun c => is_UnionArray c = false) contents ->
  (forall (i j : nat) (ci cj : Content),
     (i < j)%nat -> contents !! i = Some ci -> contents !! j = Some cj ->
     Content_mergeable fuel ci cj mergebool = Ok false) ->
  simplify_canonical fuel tags index contents mergebool =
    Ok (tags, take (List.length tags) index, contents).
Proof.
  intros Hidx Hvalid Hcount Hflat Hdistinct.
  unfold simplify_canonical.
  destruct (Z.ltb_spec (vlen index) (vlen tags)); [lia|].
  unfold enumerate.
  pose proof (simplify_fold_simple
                (fun c x => Content_mergeable fuel c x mergebool)
                (Content_merge fuel) tags index contents []
                Hidx ltac:(cbn [app]; lia) Hflat Hdistinct) as Hfold.
  cbn [app List.length] in Hfold.
  assert (Hrow : forall (i : nat) (t : Z),
            tags !! i = Some t ->
            0 <= t < vlen contents /\ exists x, index !! i = Some x).
  { intros i t Ht. split.
    - rewrite Forall_forall in Hvalid.
      exact (Hvalid t (list_elem_of_lookup_2 _ _ _ Ht)).
    - apply lookup_lt_Some in Ht.
      apply lookup_lt_is_Some_2. unfold vlen in Hidx. lia. }
  assert (Htags0 :
    new_Index (vlen tags) =
    (fun t => if t <? vlen (@nil Content) then t else 0) <$> tags).
  { unfold new_Index, vlen. rewrite Nat2Z.id. cbn [List.length].
    apply list_eq. intros i. rewrite list_lookup_fmap.
    destruct (tags !! i) as [t|] eqn:Ht.
    - destruct (Hrow i t Ht) as [Ht' _].
      cbn [fmap option_fmap option_map].
      destruct (Z.ltb_spec t (Z.of_nat 0)); [lia|].
      apply lookup_replicate_2. apply lookup_lt_Some in Ht. exact Ht.
    - apply lookup_ge_None in Ht. apply lookup_replicate_None. lia. }
  assert (Hindex0 :
    new_Index (vlen tags) =
    zip_with (fun t x => if t <? vlen (@nil Content) then x else 0)
             tags index).
  { unfold new_Index, vlen. rewrite Nat2Z.id. cbn [List.length].
    apply list_eq. intros i. rewrite lookup_zip_with.
    destruct (tags !! i) as [t|] eqn:Ht.
    - destruct (Hrow i t Ht) as [Ht' [x Hx]]. rewrite Hx.
      cbn [mbind option_bind fmap option_fmap option_map].
      destruct (Z.ltb_spec t (Z.of_nat 0)); [lia|].
      apply lookup_replicate_2. apply lookup_lt_Some in Ht. exact Ht.
    - apply lookup_ge_None in Ht. cbn [mbind option_bind].
      apply lookup_replicate_None. lia. }
  rewrite Htags0 at 1. rewrite Hindex0. rewrite Hfold.
  assert (Htagsn :
    (fun t => if t <? vlen contents then t else 0) <$> tags = tags).
  { apply list_eq. intros i. rewrite list_lookup_fmap.
    destruct (tags !! i) as [t|] eqn:Ht; [|reflexivity].
    destruct (Hrow i t Ht) as [Ht' _].
    cbn [fmap option_fmap option_map].
    destruct (Z.ltb_spec t (vlen contents)); [reflexivity | lia]. }
  assert (Hindexn :
    zip_with (fun t x => if t <? vlen contents then x else 0) tags index
    = take (List.length tags) index).
  { apply list_eq. intros i. rewrite lookup_zip_with.
    destruct (tags !! i) as [t|] eqn:Ht.
    + destruct (Hrow i t Ht) as [Ht' [x Hx]]. rewrite Hx.
      cbn [mbind option_bind fmap option_fmap option_map].
      destruct (Z.ltb_spec t (vlen contents)); [|lia].
      rewrite lookup_take_lt by (apply lookup_lt_Some in Ht; exact Ht).
      symmetry. exact Hx.
    + apply lookup_ge_None in Ht. cbn [mbind option_bind].
      symmetry. apply lookup_take_ge. exact Ht. }
  rewrite Htagsn, Hindexn. reflexivity. 
Qed.

Lemma simplify_uniontype_simple_union (fuel : nat) (ids : IdentitiesPtr)
    (p : Parameters) (tags index : list Z) (contents : list Content)
    (mergebool : bool) :
  vlen tags <= vlen index ->
  Forall (fun t => 0 <= t < vlen contents) tags ->
  2 <= vlen contents <= 127 ->
  Forall (fun c => is_UnionArray c = false) contents ->
  (forall (i j : nat) (ci cj : Content),
     (i < j)%nat -> contents !! i = Some ci -> contents !! j = Some cj ->
     Content_mergeable fuel ci cj mergebool = Ok false) ->
  UnionArray_simplify_uniontype fuel ids p tags index contents mergebool =
    Ok (UnionArray8_64 ids p tags (take (List.length tags) index) contents).
Proof.
  intros Hidx Hvalid Hcount Hflat Hdistinct.
  unfold UnionArray_simplify_uniontype.
  rewrite simplify_canonical_simple by (try assumption; lia).
  cbn [rbind].
  destruct (Z.gtb_spec (vlen contents) kMaxInt8) as [Hgt|_];
    [unfold kMaxInt8 in Hgt; lia|].
  destruct contents as [|c0 [|c1 rest]];
    [unfold vlen in Hcount; cbn [List.length] in Hcount; lia
    |unfold vlen in Hcount; cbn [List.length] in Hcount; lia|].
  apply UnionArray_new_ok; [discriminate|].
  unfold vlen in *. rewrite length_take. lia.
Qed.

(** X15: simplify_uniontype leaves a union alone that is already simple.
    When no arm is itself a union, no arm is mergeable with a later one,
    every tag names an arm, and there are at most 127 arms, the loop
    collects the arms as they are with the tags as they are and the index
    cut to the length of the tags: with two arms or more the result is the
    UnionArray8_64 over exactly these, with one arm it is that arm carried
    by the index. *)
Theorem simplify_uniontype_simple (fuel : nat) (ids : IdentitiesPtr)
    (p : Parameters) (tags index : list Z) (contents : list Content)
    (mergebool : bool) :
  vlen tags <= vlen index ->
  Forall (fun t => 0 <= t < vlen contents) tags ->
  1 <= vlen contents <= 127 ->
  Forall (fun c => is_UnionArray c = false) contents ->
  (forall (i j : nat) (ci cj : Content),
     (i < j)%nat -> contents !! i = Some ci -> contents !! j = Some cj ->
     Content_mergeable fuel ci cj mergebool = Ok false) ->
  simplify_canonical fuel tags index contents mergebool =
    Ok (tags, take (List.length tags) index, contents) /\
  UnionArray_simplify_uniontype fuel ids p tags index contents mergebool =
    match contents with
    | [c0] => Content_carry c0 (take (List.length tags) index)
    | _ => Ok (UnionArray8_64 ids p tags (take (List.length tags) index)
                 contents)
    end.
Proof.
  intros Hidx Hvalid Hcount Hflat Hdistinct.
  assert (Hcanon :
    simplify_canonical fuel tags index contents mergebool =
      Ok (tags, take (List.length tags) index, contents))
    by (apply simplify_canonical_simple; try assumption; lia).
  split; [exact Hcanon|].
  unfold UnionArray_simplify_uniontype. rewrite Hcanon. cbn [rbind].
  destruct (Z.gtb_spec (vlen contents) kMaxInt8) as [Hgt|_];
    [unfold kMaxInt8 in Hgt; lia|].
  destruct contents as [|c0 [|c1 rest]].
  - unfold vlen in Hcount. cbn [List.length] in Hcount. lia.
  - reflexivity.
  - apply UnionArray_new_ok; [discriminate|].
    unfold vlen in *. rewrite length_take. lia.
Qed.

End SimplifySimple.
Lemma simplify_uniontype_simple_witness :
  let a := NumpyArray None ∅ "d" [2] [15; 25] in
  let b := NumpyArray None ∅ "?" [1] [1] in
  @UnionArray_simplify_uniontype leaf_collaborators 1 None ∅
    [0; 1; 0] [0; 0; 1; 9] [a; b] false =
  Ok (UnionArray8_64 None ∅ [0; 1; 0] [0; 0; 1] [a; b]).
Proof.
  intros a b.
  destruct (@simplify_uniontype_simple leaf_collaborators 1 None ∅
              [0; 1; 0] [0; 0; 1; 9] [a; b] false) as [_ Hr].
  - unfold vlen. simpl. lia.
  - repeat constructor; unfold vlen; simpl; lia.
  - unfold vlen. simpl. lia.
  - repeat constructor.
  - intros i j ci cj Hlt Hi Hj.
    destruct i as [|[|i]]; [|destruct j as [|[|j]]; try lia; discriminate Hj
                            |discriminate Hi].
    destruct j as [|[|j]]; [lia| |discriminate Hj].
    inversion Hi. inversion Hj. subst ci cj. vm_compute. reflexivity.
  - exact Hr.
Defined.

(** ** offsets_and_flattened of a union *)

Section UnionFlatten.
Context `{Collaborators}.

Lemma union_flatten_fold
    (rec : Content -> Z -> Z -> result (list Z * Content))
    (axis depth : Z) (l : list Content) (rs : list (list Z * Content))
    (b : bool) (os : list (list Z)) (cs : list Content) :
  Forall2 (fun c r => rec c axis depth = Ok r) l rs ->
  foldM (fun (acc : bool * list (list Z) * list Content) content =>
           let '(_, offsetsraws, contents) := acc in
           do '(offsets, flattened) <- rec content axis depth ;;
           Ok (negb (vlen offsets =? 0),
               offsetsraws ++ [offsets],
               contents ++ [flattened]))
        l (b, os, cs)
  = Ok (match last rs with
        | Some r => negb (vlen r.1 =? 0)
        | None => b
        end, os ++ rs.*1, cs ++ rs.*2).
Proof.
  intros Hall. revert b os cs.
  induction Hall as [|c [offsets flattened] l rs Hc _ IH]; intros b os cs.
  - cbn [foldM last fmap list_fmap]. rewrite !app_nil_r. reflexivity.
  - cbn [foldM]. rewrite Hc. cbn [rbind].
    match goal with
    | |- context [foldM ?f] => fold (foldM f)
    end.
    rewrite IH. cbn [fmap list_fmap fst snd].
    rewrite <- !app_assoc. cbn [app].
    destruct rs as [|r rs']; [reflexivity|].
    rewrite last_cons_cons.
    destruct (last (r :: rs')) eqn:Hlast; [reflexivity|].
    apply last_None in Hlast. discriminate Hlast.
Qed.

(** X16: below axis 0, offsets_and_flattened of a union flattens every arm
    and looks at the offsets of the last arm only: when these are empty the
    result is no offsets and the union with the same tags and index over
    the flattened arms, without identities and parameters, whatever
    offsets the arms before the last returned. *)
Theorem union_flatten_last_arm (fuel : nat) (w : IndexWidth)
    (ids : IdentitiesPtr) (p : Parameters) (tags index : list Z)
    (contents : list Content) (axis depth toaxis : Z)
    (before : list (list Z * Content)) (flattened : Content) :
  axis_wrap_if_negative (UnionArray w ids p tags index contents) axis
    = Ok toaxis ->
  toaxis <> depth ->
  vlen tags <= vlen index ->
  Forall2 (fun c r => Content_offsets_and_flattened fuel c axis depth = Ok r)
          contents (before ++ [([], flattened)]) ->
  Content_offsets_and_flattened (S fuel)
    (UnionArray w ids p tags index contents) axis depth =
  Ok ([], UnionArray w None ∅ tags index (before.*2 ++ [flattened])).
Proof.
  intros Hwrap Haxis Hidx Harms.
  cbn [Content_offsets_and_flattened].
  unfold UnionArray_offsets_and_flattened. rewrite Hwrap. cbn [rbind].
  destruct (Z.eqb_spec toaxis depth); [contradiction|].
  rewrite (union_flatten_fold _ axis depth contents
             (before ++ [([], flattened)]) false [] [] Harms).
  cbn [rbind]. rewrite last_snoc. cbn [fst].
  replace (vlen (@nil Z) =? 0) with true by reflexivity. cbn [negb].
  rewrite fmap_app. cbn [fmap list_fmap snd].
  rewrite UnionArray_new_ok; [reflexivity | | exact Hidx].
  destruct (before.*2); discriminate.
Qed.

End UnionFlatten.

Lemma union_flatten_last_arm_witness :
  let x := NumpyArray None ∅ "l" [2] [1; 2] in
  let e := RecordArray None ∅ [] None 1 in
  @Content_offsets_and_flattened unexpected_collaborators 2
    (UnionArray8_64 None ∅ [0; 1; 0] [0; 0; 1] [x; e]) 2 0 =
  Ok ([], UnionArray8_64 None ∅ [0; 1; 0] [0; 0; 1]
            [x; RecordArray None ∅ [] None 0]).
Proof.
  intros x e.
  apply (@union_flatten_last_arm unexpected_collaborators 1 I64 None ∅
           [0; 1; 0] [0; 0; 1] [x; e] 2 0 2 [([0; 2], x)]
           (RecordArray None ∅ [] None 0)).
  - reflexivity.
  - lia.
  - unfold vlen. simpl. lia.
  - repeat constructor.
Defined.

(** ** asslice and reduce_next of a union that stays a union *)

Section Irreducible.
Context `{Collaborators} `{Observers}.

(** X17: a union of two or more arms, none of them a union and no two of
    them mergeable (with mergebool false), cannot be used as a slice:
    asslice raises std::invalid_argument, whatever its arms are. *)
Theorem simple_union_asslice_raises (fuel : nat) (w : IndexWidth)
    (ids : IdentitiesPtr) (p : Parameters) (tags index : list Z)
    (contents : list Content) :
  vlen tags <= vlen index ->
  Forall (fun t => 0 <= t < vlen contents) tags ->
  2 <= vlen contents <= 127 ->
  Forall (fun c => is_UnionArray c = false) contents ->
  (forall (i j : nat) (ci cj : Content),
     (i < j)%nat -> contents !! i = Some ci -> contents !! j = Some cj ->
     Content_mergeable fuel ci cj false = Ok false) ->
  Content_asslice (S fuel) (UnionArray w ids p tags index contents) =
    Err (InvalidArgument "cannot use a union of different types as a slice").
Proof.
  intros Hidx Hvalid Hcount Hflat Hdistinct. cbn [Content_asslice].
  rewrite simplify_uniontype_simple_union by assumption.
  cbn [rbind]. destruct (Z.eqb_spec (vlen contents) 1); [lia|].
  reflexivity.
Qed.

(** X18: such a union, with arms that are not mergeable with mergebool
    true either, cannot be reduced: reduce_next raises
    std::invalid_argument with the name of the reducer and of the class. *)
Theorem simple_union_reduce_next_raises (fuel : nat) (w : IndexWidth)
    (ids : IdentitiesPtr) (p : Parameters) (tags index : list Z)
    (contents : list Content) (reducer : Reducer) (negaxis : Z)
    (starts parents : list Z) (outlength : Z) (mask keepdims : bool) :
  vlen tags <= vlen index ->
  Forall (fun t => 0 <= t < vlen contents) tags ->
  2 <= vlen contents <= 127 ->
  Forall (fun c => is_UnionArray c = false) contents ->
  (forall (i j : nat) (ci cj : Content),
     (i < j)%nat -> contents !! i = Some ci -> contents !! j = Some cj ->
     Content_mergeable fuel ci cj true = Ok false) ->
  Content_reduce_next (S fuel) (UnionArray w ids p tags index contents)
    reducer negaxis starts parents outlength mask keepdims =
    Err (InvalidArgument
           ("cannot reduce (call '" +:+ Reducer_name reducer
            +:+ "' on) an irreducible " +:+ UnionArray_classname w)).
Proof.
  intros Hidx Hvalid Hcount Hflat Hdistinct. cbn [Content_reduce_next].
  rewrite simplify_uniontype_simple_union by assumption.
  reflexivity.
Qed.

End Irreducible.

Lemma simple_union_asslice_raises_witness :
  let a := NumpyArray None ∅ "d" [2] [15; 25] in
  let b := NumpyArray None ∅ "?" [1] [1] in
  @Content_asslice leaf_collaborators leaf_observers 2
    (UnionArray8_64 None ∅ [0; 1; 0] [0; 0; 1] [a; b]) =
  Err (InvalidArgument "cannot use a union of different types as a slice").
Proof.
  intros a b.
  apply (@simple_union_asslice_raises leaf_collaborators leaf_observers 1
           I64 None ∅ [0; 1; 0] [0; 0; 1] [a; b]).
  - unfold vlen. simpl. lia.
  - repeat constructor; unfold vlen; simpl; lia.
  - unfold vlen. simpl. lia.
  - repeat constructor.
  - intros i j ci cj Hlt Hi Hj.
    destruct i as [|[|i]]; [|destruct j as [|[|j]]; try lia; discriminate Hj
                            |discriminate Hi].
    destruct j as [|[|j]]; [lia| |discriminate Hj].
    inversion Hi. inversion Hj. subst ci cj. vm_compute. reflexivity.
Defined.

Lemma simple_union_reduce_next_raises_witness :
  let a := NumpyArray None ∅ "d" [2] [15; 25] in
  let b := RecordArray None ∅ [] None 1 in
  @Content_reduce_next leaf_collaborators leaf_observers 2
    (UnionArray I32 None ∅ [0; 1; 0] [0; 0; 1] [a; b])
    "sum" 1 [0] [0; 0; 0] 1 false false =
  Err (InvalidArgument
         "cannot reduce (call 'sum' on) an irreducible UnionArray8_32").
Proof.
  intros a b.
  apply (@simple_union_reduce_next_raises leaf_collaborators leaf_observers
           1 I32 None ∅ [0; 1; 0] [0; 0; 1] [a; b]
           "sum" 1 [0] [0; 0; 0] 1 false false).
  - unfold vlen. simpl. lia.
  - repeat constructor; unfold vlen; simpl; lia.
  - unfold vlen. simpl. lia.
  - repeat constructor.
  - intros i j ci cj Hlt Hi Hj.
    destruct i as [|[|i]]; [|destruct j as [|[|j]]; try lia; discriminate Hj
                            |discriminate Hi].
    destruct j as [|[|j]]; [lia| |discriminate Hj].
    inversion Hi. inversion Hj. subst ci cj. vm_compute. reflexivity.
Defined.

(** ** merge of two records with different fields *)

Section RecordMergeShape.
Context `{Collaborators}.

(** X19: two records with equal parameters whose fields do not match (a
    tuple against a record with keys, two tuples with different numbers of
    fields, or two records with keys whose sorted keys differ and that are
    not both without fields) cannot be merged: merge raises
    std::invalid_argument, and mergeable has answered false for them. *)
Theorem record_merge_different_fields (fuel : nat)
    (ids ids' : IdentitiesPtr) (p p' : Parameters)
    (cs cs' : list Content) (rl rl' : option (list string))
    (n n' : Z) (mergebool : bool) :
  parameters_equal p p' = true ->
  match rl, rl' with
  | None, None => vlen cs <> vlen cs'
  | Some keys, Some keys' =>
      std_sort keys <> std_sort keys' /\ ~ (cs = [] /\ cs' = [])
  | _, _ => True
  end ->
  Content_merge (S fuel) (RecordArray ids p cs rl n)
    (RecordArray ids' p' cs' rl' n') =
    Err (InvalidArgument
           "cannot merge records or tuples with different fields") /\
  Content_mergeable (S fuel) (RecordArray ids p cs rl n)
    (RecordArray ids' p' cs' rl' n') mergebool = Ok false.
Proof.
  intros Hp Hshape.
  cbn [Content_merge Content_mergeable].
  unfold RecordArray_merge, RecordArray_mergeable.
  cbn [Content_parameters]. rewrite Hp. cbn [negb].
  assert (Hempty : forall l : list Content,
            (vlen l =? 0) = true -> l = []).
  { intros [|x l] Hl; [reflexivity|].
    apply Z.eqb_eq in Hl. unfold vlen in Hl. cbn [List.length] in Hl. lia. }
  destruct rl as [keys|], rl' as [keys'|].
  - destruct Hshape as [Hkeys Hfields].
    rewrite !bool_decide_true by (eexists; reflexivity).
    cbn [negb andb eqb].
    unfold RecordArray_keys, util_keys.
    rewrite (bool_decide_false (std_sort keys = std_sort keys'))
      by exact Hkeys.
    split; [|reflexivity].
    destruct (vlen cs =? 0) eqn:Hcs; [|reflexivity].
    destruct (vlen cs' =? 0) eqn:Hcs'; [|reflexivity].
    exfalso. apply Hfields. split; apply Hempty; assumption.
  - rewrite bool_decide_true by (eexists; reflexivity).
    rewrite bool_decide_false by (intros [? ?]; discriminate).
    cbn [negb andb eqb]. split; reflexivity.
  - rewrite bool_decide_false by (intros [? ?]; discriminate).
    rewrite bool_decide_true by (eexists; reflexivity).
    cbn [negb andb eqb]. split; reflexivity.
  - rewrite !bool_decide_false by (intros [? ?]; discriminate).
    cbn [negb andb eqb].
    destruct (Z.eqb_spec (vlen cs) (vlen cs')); [contradiction|].
    split; [|reflexivity].
    destruct (vlen cs =? 0) eqn:Hcs; [|reflexivity].
    destruct (vlen cs' =? 0) eqn:Hcs'; [|reflexivity].
    exfalso. apply Z.eqb_eq in Hcs, Hcs'. lia.
Qed.

End RecordMergeShape.

Lemma record_merge_different_fields_witness :
  let x := NumpyArray None ∅ "d" [2] [15; 25] in
  let y := NumpyArray None ∅ "?" [2] [1; 0] in
  @Content_merge leaf_collaborators 1
    (RecordArray None ∅ [x; y] (Some ["x"; "y"]) 2)
    (RecordArray None ∅ [x; y] (Some ["x"; "z"]) 2) =
    Err (InvalidArgument
           "cannot merge records or tuples with different fields") /\
  @Content_mergeable leaf_collaborators 1
    (RecordArray None ∅ [x; y] None 2)
    (RecordArray None ∅ [x] None 2) true = Ok false.
Proof.
  intros x y. split.
  - apply (@record_merge_different_fields leaf_collaborators 0
             None None ∅ ∅ [x; y] [x; y] (Some ["x"; "y"])
             (Some ["x"; "z"]) 2 2 false).
    + apply parameters_equal_true. reflexivity.
    + split; [vm_compute; discriminate|].
      intros [Hnil _]. discriminate Hnil.
  - apply (@record_merge_different_fields leaf_collaborators 0
             None None ∅ ∅ [x; y] [x] None None 2 2 true).
    + apply parameters_equal_true. reflexivity.
    + unfold vlen. simpl. lia.
Defined.
